(** * JoystickGremlin: profile data model and custom-module variables

    A shallow embedding of [gremlin/profile.py] and of the non-UI part
    of [gremlin/custom_module.py], followed by the properties of the
    repository's specification that concern them.

    Layout: a small model of the Python runtime the code relies on
    (exceptions, primitive values, [int], [float], [str], comparisons),
    insertion-ordered dictionaries, ElementTree nodes, then the two
    source modules, then the theorems. *)

From Stdlib Require Import ZArith QArith Qround Lqa String Ascii List Bool Lia.
From stdpp Require Import base option list gmap strings.

Local Open Scope string_scope.
Local Open Scope list_scope.
Local Open Scope Z_scope.

(* ===================================================================== *)
(** ** Python runtime *)
(* ===================================================================== *)

Module Py.

(** The exceptions the modelled code can raise. *)
Inductive exn : Type :=
  | ValueError
  | TypeError
  | KeyError
  | AttributeError
  | OverflowError
  | AssertionError
  | ProfileError.   (* gremlin.error.ProfileError *)

(** A computation that returns a value or raises. *)
Inductive result (A : Type) : Type :=
  | Ok (a : A)
  | Raise (e : exn).
Arguments Ok {A} a.
Arguments Raise {A} e.

Definition bind {A B} (r : result A) (k : A -> result B) : result B :=
  match r with
  | Ok a => k a
  | Raise e => Raise e
  end.

(** A float: a finite one, represented by the rational number it
    denotes, or one of the special values nan, inf and -inf. *)
Inductive float : Type :=
  | Finite (q : Q)
  | NaN
  | Inf (negative : bool).

(** Primitive values, as stored in the variable registry and in the
    fields of a variable.  [PyFloat] holds the finite floats; nan and the
    two infinities are [PyNaN] and [PyInf]. *)
Inductive pyval : Type :=
  | PyNone
  | PyBool (b : bool)
  | PyInt (z : Z)
  | PyFloat (q : Q)
  | PyNaN
  | PyInf (negative : bool)
  | PyStr (s : string).

Definition pyval_of_float (f : float) : pyval :=
  match f with
  | Finite q => PyFloat q
  | NaN => PyNaN
  | Inf negative => PyInf negative
  end.

Definition is_None (v : pyval) : bool :=
  match v with PyNone => true | _ => false end.

(** What the interpreter does with floats and text is not fixed here:
    [float(str)] (None when it raises ValueError; the float may be nan or
    infinite, as for "nan" and "1e999"), [float(int)] (None when it raises
    OverflowError) and [repr(float)] of a finite float. *)
Class FloatRuntime : Type := {
  float_of_string : string -> option float;
  float_of_int : Z -> option Q;
  float_repr : Q -> string
}.

(** *** Text *)

Definition ascii_lower (c : ascii) : ascii :=
  let n := nat_of_ascii c in
  if (65 <=? n)%nat && (n <=? 90)%nat then ascii_of_nat (n + 32) else c.

(** [str.lower]; text is ASCII throughout. *)
Fixpoint lower (s : string) : string :=
  match s with
  | EmptyString => EmptyString
  | String c s' => String (ascii_lower c) (lower s')
  end.

(** Characters [int] treats as blanks around a literal. *)
Definition is_space (c : ascii) : bool :=
  let n := nat_of_ascii c in
  ((9 <=? n)%nat && (n <=? 13)%nat) || ((28 <=? n)%nat && (n <=? 32)%nat).

Definition digit_of (c : ascii) : option Z :=
  let n := nat_of_ascii c in
  if (48 <=? n)%nat && (n <=? 57)%nat then Some (Z.of_nat (n - 48)) else None.

Fixpoint lstrip (s : string) : string :=
  match s with
  | String c s' => if is_space c then lstrip s' else s
  | EmptyString => EmptyString
  end.

Fixpoint string_rev_append (s acc : string) : string :=
  match s with
  | EmptyString => acc
  | String c s' => string_rev_append s' (String c acc)
  end.

Definition string_rev (s : string) : string := string_rev_append s EmptyString.

Definition strip (s : string) : string :=
  string_rev (lstrip (string_rev (lstrip s))).

(** Where the scanner of a decimal literal stands: nothing read yet, just
    after a digit, or just after an underscore. *)
Inductive scan : Type := AtStart | AfterDigit | AfterUnderscore.

(** Digits with single underscores between them, read left to right. *)
Fixpoint scan_digits (st : scan) (acc : Z) (s : string) : option Z :=
  match s with
  | EmptyString =>
      match st with AfterDigit => Some acc | _ => None end
  | String c s' =>
      match digit_of c with
      | Some d => scan_digits AfterDigit (10 * acc + d) s'
      | None =>
          if Ascii.eqb c "_"
          then match st with
               | AfterDigit => scan_digits AfterUnderscore acc s'
               | _ => None
               end
          else None
      end
  end.

(** [int(s)] for a string [s], base ten: blanks stripped, an optional sign,
    then the digits.  None stands for ValueError. *)
Definition int_of_string (s : string) : option Z :=
  match strip s with
  | String c s' =>
      if Ascii.eqb c "-" then option_map Z.opp (scan_digits AtStart 0 s')
      else if Ascii.eqb c "+" then scan_digits AtStart 0 s'
      else scan_digits AtStart 0 (String c s')
  | EmptyString => None
  end.

Definition digit_char (d : Z) : ascii := ascii_of_nat (48 + Z.to_nat d).

(** The decimal digits of a positive number, most significant first. *)
Fixpoint pos_digits (fuel : nat) (n : Z) (acc : string) : string :=
  match fuel with
  | O => acc
  | S fuel' =>
      let acc' := String (digit_char (n mod 10)) acc in
      if n <? 10 then acc' else pos_digits fuel' (n / 10) acc'
  end.

(** [str(z)] for an integer. *)
Definition string_of_int (z : Z) : string :=
  if z <? 0
  then String "-" (pos_digits (S (Z.to_nat (Z.log2 (- z)))) (- z) EmptyString)
  else pos_digits (S (Z.to_nat (Z.log2 z))) z EmptyString.

Definition string_of_bool (b : bool) : string :=
  if b then "True" else "False".

(** *** Conversions: the builtins [int], [float] and [str] *)

Definition Qtrunc (q : Q) : Z :=
  if Qle_bool 0 q then Qfloor q else Qceiling q.

Definition py_int (v : pyval) : result pyval :=
  match v with
  | PyNone => Raise TypeError
  | PyBool b => Ok (PyInt (if b then 1 else 0))
  | PyInt z => Ok (PyInt z)
  | PyFloat q => Ok (PyInt (Qtrunc q))
  | PyNaN => Raise ValueError
  | PyInf _ => Raise OverflowError
  | PyStr s =>
      match int_of_string s with
      | Some z => Ok (PyInt z)
      | None => Raise ValueError
      end
  end.

Definition py_float {rt : FloatRuntime} (v : pyval) : result pyval :=
  match v with
  | PyNone => Raise TypeError
  | PyBool b => Ok (PyFloat (if b then 1 else 0))
  | PyInt z =>
      match float_of_int z with
      | Some q => Ok (PyFloat q)
      | None => Raise OverflowError
      end
  | PyFloat q => Ok (PyFloat q)
  | PyNaN => Ok PyNaN
  | PyInf negative => Ok (PyInf negative)
  | PyStr s =>
      match float_of_string s with
      | Some f => Ok (pyval_of_float f)
      | None => Raise ValueError
      end
  end.

Definition py_str {rt : FloatRuntime} (v : pyval) : result pyval :=
  match v with
  | PyNone => Ok (PyStr "None")
  | PyBool b => Ok (PyStr (string_of_bool b))
  | PyInt z => Ok (PyStr (string_of_int z))
  | PyFloat q => Ok (PyStr (float_repr q))
  | PyNaN => Ok (PyStr "nan")
  | PyInf negative => Ok (PyStr (if negative then "-inf" else "inf"))
  | PyStr s => Ok (PyStr s)
  end.

(** *** Ordering *)

(** The number a finite numeric value denotes. *)
Definition as_number (v : pyval) : option Q :=
  match v with
  | PyBool b => Some (if b then 1 else 0)%Q
  | PyInt z => Some (inject_Z z)
  | PyFloat q => Some q
  | _ => None
  end.

(** A numeric value on the extended number line: bools and ints are
    compared with floats by their exact value. *)
Definition as_float (v : pyval) : option float :=
  match v with
  | PyBool b => Some (Finite (if b then 1 else 0)%Q)
  | PyInt z => Some (Finite (inject_Z z))
  | PyFloat q => Some (Finite q)
  | PyNaN => Some NaN
  | PyInf negative => Some (Inf negative)
  | _ => None
  end.

Definition Qlt_bool (a b : Q) : bool := negb (Qle_bool b a).

(** [x < y] on the extended number line: every comparison with nan is
    false, -inf is below and inf above every other number. *)
Definition float_lt (x y : float) : bool :=
  match x, y with
  | NaN, _ | _, NaN => false
  | Finite a, Finite b => Qlt_bool a b
  | Inf true, Inf true => false
  | Inf true, _ => true
  | _, Inf true => false
  | Inf false, _ => false
  | Finite _, Inf false => true
  end.

(** [a < b]: numbers compare by value, strings lexicographically, anything
    else is a TypeError. *)
Definition py_lt (a b : pyval) : result bool :=
  match as_float a, as_float b with
  | Some x, Some y => Ok (float_lt x y)
  | _, _ =>
      match a, b with
      | PyStr s, PyStr t => Ok (String.ltb s t)
      | _, _ => Raise TypeError
      end
  end.

Definition py_gt (a b : pyval) : result bool := py_lt b a.

(** [max(a, b)] keeps [a] unless [b > a]; [min(a, b)] keeps [a] unless
    [b < a]. *)
Definition py_max (a b : pyval) : result pyval :=
  bind (py_gt b a) (fun g => Ok (if g then b else a)).

Definition py_min (a b : pyval) : result pyval :=
  bind (py_lt b a) (fun l => Ok (if l then b else a)).

End Py.

Export Py.

#[global] Instance result_ret : MRet result := @Ok.
#[global] Instance result_bind : MBind result :=
  fun A B k r => Py.bind r k.

(* ===================================================================== *)
(** ** Dictionaries that keep insertion order *)
(* ===================================================================== *)

Module ODict.

Section odict.
Context {K V : Type} `{EqDecision K}.

(** [d.get(k)] *)
Fixpoint get (k : K) (d : list (K * V)) : option V :=
  match d with
  | [] => None
  | (k', v) :: d' => if decide (k = k') then Some v else get k d'
  end.

(** [k in d] *)
Definition mem (k : K) (d : list (K * V)) : bool :=
  match get k d with Some _ => true | None => false end.

(** [d[k] = v]: an existing key keeps its place, a new one goes last. *)
Fixpoint set (k : K) (v : V) (d : list (K * V)) : list (K * V) :=
  match d with
  | [] => [(k, v)]
  | (k', v') :: d' =>
      if decide (k = k') then (k', v) :: d' else (k', v') :: set k v d'
  end.

(** [d.values()] *)
Definition values (d : list (K * V)) : list V := map snd d.

(** What [del d[k]] leaves of [d] when the key is there: the entries
    under the other keys, in their order. *)
Fixpoint remove (k : K) (d : list (K * V)) : list (K * V) :=
  match d with
  | [] => []
  | (k', v) :: d' =>
      if decide (k = k') then remove k d' else (k', v) :: remove k d'
  end.
End odict.

End ODict.

(** [dict K V] is a Python dict with keys in [K] and values in [V]. *)
Abbreviation dict K V := (list (K * V)).

(* ===================================================================== *)
(** ** xml.etree.ElementTree *)
(* ===================================================================== *)

Module ElementTree.

(** An element: its tag, its attributes and its child elements.  Text and
    tails carry only layout in a profile and are left out.  An attribute
    set from Python may hold None until the tree is serialised. *)
#[warnings="-register-all"]
Inductive Element : Type :=
  | Node (tag : string) (attrib : dict string (option string))
         (children : list Element).

Definition tag (node : Element) : string :=
  match node with Node t _ _ => t end.
Definition attrib (node : Element) : dict string (option string) :=
  match node with Node _ a _ => a end.
Definition children (node : Element) : list Element :=
  match node with Node _ _ c => c end.

(** [ElementTree.Element(tag)] *)
Definition new (tag : string) : Element := Node tag [] [].

(** [node.set(key, value)] *)
Definition set (node : Element) (key : string) (value : option string) : Element :=
  Node (tag node) (ODict.set key value (attrib node)) (children node).

(** [node.append(child)] *)
Definition append (node child : Element) : Element :=
  Node (tag node) (attrib node) (children node ++ [child]).

(** [node.get(key)]: None when the attribute is missing. *)
Definition get (node : Element) (key : string) : option string :=
  match ODict.get key (attrib node) with
  | Some v => v
  | None => None
  end.

(** [node.get(key, default)] *)
Definition get_default (node : Element) (key default : string) : option string :=
  match ODict.get key (attrib node) with
  | Some v => v
  | None => Some default
  end.

(** [node.iter(tag)]: the node itself and its descendants, in document
    order, that carry the tag. *)
Fixpoint iter (t : string) (node : Element) : list Element :=
  match node with
  | Node t' _ cs =>
      (if decide (t' = t) then [node] else []) ++
      (fix over (l : list Element) : list Element :=
         match l with
         | [] => []
         | c :: l' => iter t c ++ over l'
         end) cs
  end.

(** Whether every attribute of the tree holds text. *)
Fixpoint serialisable (node : Element) : bool :=
  match node with
  | Node _ a cs =>
      forallb (fun kv => match snd kv with Some _ => true | None => false end) a
      && (fix over (l : list Element) : bool :=
            match l with
            | [] => true
            | c :: l' => serialisable c && over l'
            end) cs
  end.

(** Writing a tree out ([ElementTree.tostring], then the pretty printer)
    and parsing the file again ([ElementTree.parse]).  A document is
    identified with its element tree, so the text in between is the tree
    itself; serialising an attribute that holds None is a TypeError.
    This is exact for trees whose attribute values are text of printable
    characters.  A control character in a value makes the real calls raise
    (ExpatError), and a tab or line break in a value is read back as a
    space; neither is modelled, and what is proved of a document that was
    written out either holds whatever the text is, or is stated for
    printable text only. *)
Definition tostring (root : Element) : result Element :=
  if serialisable root then Ok root else Raise TypeError.

End ElementTree.

Abbreviation Element := ElementTree.Element.

(* ===================================================================== *)
(** ** gremlin/custom_module.py *)
(* ===================================================================== *)

Module custom_module.

(** [clamp_value(value, min_val, max_val)]: the bounds are swapped when
    they come in the wrong order. *)
Definition clamp_value (value min_val max_val : pyval) : result pyval :=
  swap ← py_gt min_val max_val;
  let '(min_val, max_val) :=
    if (swap : bool) then (max_val, min_val) else (min_val, max_val) in
  inner ← py_max min_val value;
  py_min max_val inner.

(** *** VariableRegistry *)

(** [self._registry]: module, then instance name, then key. *)
Abbreviation instance_dict := (gmap string pyval).
Abbreviation module_dict := (gmap string (gmap string pyval)).
Abbreviation VariableRegistry := (gmap string (gmap string (gmap string pyval))).

Definition VariableRegistry_init : VariableRegistry := ∅.

Definition VariableRegistry_clear (self : VariableRegistry) : VariableRegistry := ∅.

(** [self._registry[module]] once the key is known to be there. *)
Definition module_at (self : VariableRegistry) (module : string) : module_dict :=
  default ∅ (self !! module).

(** [self._registry[module][name]] once both keys are known to be there. *)
Definition instance_at (self : VariableRegistry) (module name : string)
  : instance_dict :=
  default ∅ (module_at self module !! name).

(** [_get_instance(module, name)] returns the dictionary stored at
    [self._registry[module][name]], after creating the two levels when they
    are missing.  The dictionary is returned by reference: the result here
    is the registry after the call, and the caller reads or writes the
    dictionary at that path. *)
Definition VariableRegistry__get_instance
    (self : VariableRegistry) (module name : string) : VariableRegistry :=
  let self1 :=
    if decide (self !! module = None) then <[module := ∅]> self else self in
  if decide (module_at self1 module !! name = None)
  then <[module := <[name := ∅]> (module_at self1 module)]> self1
  else self1.

(** [set(module, name, key, value)]. *)
Definition VariableRegistry_set
    (self : VariableRegistry) (module name key : string) (value : pyval)
  : VariableRegistry :=
  let self' := VariableRegistry__get_instance self module name in
  <[module := <[name := <[key := value]> (instance_at self' module name)]>
                (module_at self' module)]> self'.

(** [get(module, name, key)]: the registry after the call and the value
    returned. *)
Definition VariableRegistry_get
    (self : VariableRegistry) (module name key : string)
  : VariableRegistry * pyval :=
  let self' := VariableRegistry__get_instance self module name in
  (self', default PyNone (instance_at self' module name !! key)).

(** *** Variable types *)

(** [common.VariableType], with the members the module refers to. *)
Inductive VariableType : Type :=
  | Int | Float | String_ | Bool | Mode | VirtualInput | PhysicalInput.

(** [_cast_variable[variable_type]]: the table has three entries, any
    other key is a KeyError. *)
Definition _cast_variable {rt : FloatRuntime} (t : VariableType)
  : result (pyval -> result pyval) :=
  match t with
  | Int => Ok py_int
  | Float => Ok py_float
  | String_ => Ok py_str
  | _ => Raise KeyError
  end.

(** The [identifier] global of the calling custom module: absent, or the
    pair of a module and an instance name. *)
Definition identifier := option (string * string).

(** The fields of a [NumericalVariable]. *)
Record NumericalVariable : Type := {
  label : string;
  description : string;
  variable_type : VariableType;
  value : pyval;
  default_value : pyval;
  min_value : pyval;
  max_value : pyval
}.

Definition set_value (var : NumericalVariable) (v : pyval) : NumericalVariable :=
  {| label := label var; description := description var;
     variable_type := variable_type var; value := v;
     default_value := default_value var; min_value := min_value var;
     max_value := max_value var |}.

(** [_init_numerical(var, default_value, min_value, max_value)]. *)
Definition _init_numerical
    (var : NumericalVariable) (default_value' min_value' max_value' : pyval)
  : NumericalVariable :=
  {| label := label var; description := description var;
     variable_type := variable_type var; value := value var;
     default_value :=
       if is_None (default_value var) then default_value' else default_value var;
     min_value := if is_None (min_value var) then min_value' else min_value var;
     max_value := if is_None (max_value var) then max_value' else max_value var |}.

(** [NumericalVariable._load_from_registry(identifier)], run against the
    global [variable_registry].  The closing diagnostic [print] is left
    out.  An exception leaves the function and the constructor that called
    it; the registry is followed no further then. *)
Definition NumericalVariable__load_from_registry {rt : FloatRuntime}
    (self : NumericalVariable) (ident : identifier)
    (variable_registry : VariableRegistry)
  : result (NumericalVariable * VariableRegistry) :=
  '(self, variable_registry) ←
    match ident with
    | Some (id0, id1) =>
        let '(variable_registry, val) :=
          VariableRegistry_get variable_registry id0 id1 (label self) in
        if is_None val
        then Ok (set_value self (default_value self), variable_registry)
        else
          cast ← _cast_variable (variable_type self);
          v ← cast val;
          Ok (set_value self v, variable_registry)
    | None => Ok (set_value self (default_value self), variable_registry)
    end;
  v ← clamp_value (value self) (min_value self) (max_value self);
  Ok (set_value self v, variable_registry).

(** [IntegerVariable._initialize_variable] and
    [FloatVariable._initialize_variable]. *)
Definition IntegerVariable__initialize_variable (self : NumericalVariable)
  : NumericalVariable :=
  _init_numerical self (PyInt 0) (PyInt 0) (PyInt 10).

Definition FloatVariable__initialize_variable (self : NumericalVariable)
  : NumericalVariable :=
  _init_numerical self (PyInt 0) (PyFloat (-1)) (PyFloat 1).

(** [NumericalVariable.__init__] up to the call of [_initialize_variable]:
    the fields as the constructor's arguments give them. *)
Definition NumericalVariable_fields
    (label' description' : string) (variable_type' : VariableType)
    (default_value' min_value' max_value' : pyval) : NumericalVariable :=
  {| label := label'; description := description';
     variable_type := variable_type'; value := PyNone;
     default_value := default_value'; min_value := min_value';
     max_value := max_value' |}.

(** [IntegerVariable(label, description, default_value, min_value,
    max_value)]; an argument that is not passed is [PyNone].  [ident] is
    what the constructor finds for [identifier] in the caller's globals. *)
Definition IntegerVariable {rt : FloatRuntime}
    (label' description' : string) (default_value' min_value' max_value' : pyval)
    (ident : identifier) (variable_registry : VariableRegistry)
  : result (NumericalVariable * VariableRegistry) :=
  let self := NumericalVariable_fields label' description' Int
                default_value' min_value' max_value' in
  let self := IntegerVariable__initialize_variable self in
  NumericalVariable__load_from_registry self ident variable_registry.

(** [FloatVariable(label, description, default_value, min_value,
    max_value)]. *)
Definition FloatVariable {rt : FloatRuntime}
    (label' description' : string) (default_value' min_value' max_value' : pyval)
    (ident : identifier) (variable_registry : VariableRegistry)
  : result (NumericalVariable * VariableRegistry) :=
  let self := NumericalVariable_fields label' description' Float
                default_value' min_value' max_value' in
  let self := FloatVariable__initialize_variable self in
  NumericalVariable__load_from_registry self ident variable_registry.

(** The fields of a [StringVariable]. *)
Record StringVariable : Type := {
  s_label : string;
  s_description : string;
  s_variable_type : VariableType;
  s_value : pyval;
  s_default_value : pyval
}.

Definition s_set_value (var : StringVariable) (v : pyval) : StringVariable :=
  {| s_label := s_label var; s_description := s_description var;
     s_variable_type := s_variable_type var; s_value := v;
     s_default_value := s_default_value var |}.

(** [StringVariable._load_from_registry(identifier)]. *)
Definition StringVariable__load_from_registry {rt : FloatRuntime}
    (self : StringVariable) (ident : identifier)
    (variable_registry : VariableRegistry)
  : result (StringVariable * VariableRegistry) :=
  match ident with
  | Some (id0, id1) =>
      cast ← _cast_variable (s_variable_type self);
      let '(variable_registry, val) :=
        VariableRegistry_get variable_registry id0 id1 (s_label self) in
      v ← cast val;
      Ok (s_set_value self v, variable_registry)
  | None => Ok (s_set_value self (s_default_value self), variable_registry)
  end.

(** [StringVariable(label, description, default_value)]. *)
Definition StringVariable_init {rt : FloatRuntime}
    (label' description' : string) (default_value' : pyval)
    (ident : identifier) (variable_registry : VariableRegistry)
  : result (StringVariable * VariableRegistry) :=
  let self := {| s_label := label'; s_description := description';
                 s_variable_type := String_; s_value := PyNone;
                 s_default_value := default_value' |} in
  StringVariable__load_from_registry self ident variable_registry.

(** [ModeVariable._load_from_registry(identifier)]; a ModeVariable has
    the fields of a StringVariable, with the variable type Mode. *)
Definition ModeVariable__load_from_registry {rt : FloatRuntime}
    (self : StringVariable) (ident : identifier)
    (variable_registry : VariableRegistry)
  : result (StringVariable * VariableRegistry) :=
  match ident with
  | Some (id0, id1) =>
      cast ← _cast_variable (s_variable_type self);
      let '(variable_registry, val) :=
        VariableRegistry_get variable_registry id0 id1 (s_label self) in
      v ← cast val;
      Ok (s_set_value self v, variable_registry)
  | None => Ok (s_set_value self (s_default_value self), variable_registry)
  end.

(** [logging.get_logger("system").error(message)]: a call into the
    [logging] package, which is not part of the sources.  What it does is
    left open here; the standard module of that name has no [get_logger],
    so that there the call raises AttributeError. *)
Class SystemLog : Type := {
  log_error : string -> result unit
}.

(** The loop of [get_variable_definitions(fname)] over the globals of the
    loaded module, a global being a variable declaration or something
    else.  It keeps the dictionary [variables]; the messages handed to the
    log are collected beside it. *)
Definition collect_variables {V : Type} {syslog : SystemLog}
    (label_of : V -> string) (globals : list (string * option V))
  : result (dict string V * list string) :=
  foldl (fun acc '(key, value) =>
           '(variables, log) ← acc;
           match (value : option V) with
           | Some var =>
               log ←
                 (if ODict.mem (label_of var) variables
                  then
                    let message :=
                      ("Duplicate label present: " ++ label_of var)%string in
                    log_error message;;
                    Ok (log ++ [message])
                  else Ok log);
               Ok (ODict.set (label_of var) var variables, log)
           | None => Ok (variables, log)
           end)
        (Ok ([], [])) globals.

(** [get_variable_definitions(fname)]: [module] is None when [fname] is no
    file, and the globals of the module the file defines otherwise.  The
    result is the collection returned and the messages logged. *)
Definition get_variable_definitions {V : Type} {syslog : SystemLog}
    (label_of : V -> string) (module : option (list (string * option V)))
  : result (list V * list string) :=
  match module with
  | None => Ok ([], [])
  | Some globals =>
      '(variables, log) ← collect_variables label_of globals;
      Ok (ODict.values variables, log)
  end.

End custom_module.

(* ===================================================================== *)
(** ** gremlin/profile.py *)
(* ===================================================================== *)

Module profile.

(** [gremlin.event_handler.InputType], the four members the profile
    uses. *)
Inductive InputType : Type :=
  | JoystickAxis | JoystickButton | JoystickHat | Keyboard.

#[global] Instance InputType_eq_dec : EqDecision InputType.
Proof. solve_decision. Defined.

(** [tag_to_input_type(tag)] *)
Definition tag_to_input_type (tag : string) : result InputType :=
  let tag := lower tag in
  if decide (tag = "axis") then Ok JoystickAxis
  else if decide (tag = "button") then Ok JoystickButton
  else if decide (tag = "hat") then Ok JoystickHat
  else if decide (tag = "key") then Ok Keyboard
  else Raise ProfileError.

(** Modelled from the spec: [action.common.input_type_to_tag], which is not
    part of the sources at hand.  The specification gives the mapping
    axis, button, hat, key for the four input types; an input type that is
    still unset has no tag and is taken to be a ProfileError. *)
Definition input_type_to_tag (t : option InputType) : result string :=
  match t with
  | Some JoystickAxis => Ok "axis"
  | Some JoystickButton => Ok "button"
  | Some JoystickHat => Ok "hat"
  | Some Keyboard => Ok "key"
  | None => Raise ProfileError
  end.

(** [int(value)] for the value of an attribute: None is a TypeError, text
    that is no integer a ValueError. *)
Definition int_of_attr (value : option string) : result Z :=
  match value with
  | None => Raise TypeError
  | Some s =>
      match int_of_string s with
      | Some z => Ok z
      | None => Raise ValueError
      end
  end.

(** [_parse_bool(value)] *)
Definition _parse_bool (value : option string) : result bool :=
  match int_of_attr value with
  | Ok int_value =>
      if decide (int_value = 0 \/ int_value = 1)
      then Ok (int_value =? 1)
      else Raise ProfileError
  | Raise ValueError =>
      let l := match value with Some s => lower s | None => EmptyString end in
      if decide (l = "true" \/ l = "false")
      then Ok (if decide (l = "true") then true else false)
      else Raise ProfileError
  | Raise TypeError => Raise ProfileError
  | Raise e => Raise e
  end.

(** The tags of [action_lookup]. *)
Definition action_tags : list string :=
  [ "macro"; "remap"; "response-curve"; "cycle-modes"; "pause-action";
    "resume-action"; "switch-mode"; "switch-to-previous-mode" ].

(** The action classes live in the [action] package.  What the profile
    needs from them: the object a class builds from an element
    ([action_lookup[tag](parent)] followed by [from_xml]) and the element an
    object writes ([to_xml]). *)
Class Actions : Type := {
  Action : Type;
  action_from_xml : string -> Element -> result Action;
  action_to_xml : Action -> result Element
}.

(** [DeviceType] *)
Inductive DeviceType : Type := DT_Keyboard | DT_Joystick.

(** What [input_id] holds: nothing yet, the index of an axis, button or
    hat, or the pair of a key code and the extended flag. *)
Inductive InputId : Type :=
  | IdNone
  | IdInt (z : Z)
  | IdKey (code : Z) (extended : bool).

#[global] Instance InputId_eq_dec : EqDecision InputId.
Proof. solve_decision. Defined.

(** A reference to an object: its position in the heap. *)
Abbreviation ref := nat.

Section with_actions.
Context {acts : Actions}.

(** The fields of an [InputItem] (the back reference [parent] is left
    out, as for the other classes). *)
Record InputItem : Type := {
  input_type : option InputType;
  input_id : InputId;
  always_execute : bool;
  actions : list Action
}.

(** [InputItem(parent)] *)
Definition InputItem_init : InputItem :=
  {| input_type := None; input_id := IdNone;
     always_execute := false; actions := [] |}.

(** Input items are objects: a mode holds references ([ref]) to them,
    and the items themselves live in the heap, addressed by position. *)
Record World : Type := {
  heap : list InputItem;
  stdout : list string     (* the lines printed so far *)
}.

(** A statement: it runs in a world and either raises or leaves a value
    and the world after it.  An exception ends the whole load, so the world
    it leaves behind is not kept. *)
Definition M (A : Type) : Type := World -> result (A * World).

#[global] Instance M_ret : MRet M := fun A a w => Ok (a, w).
#[global] Instance M_bind : MBind M := fun A B k m w =>
  match m w with
  | Ok (a, w') => k a w'
  | Raise e => Raise e
  end.

Definition lift {A} (r : result A) : M A := fun w =>
  match r with
  | Ok a => Ok (a, w)
  | Raise e => Raise e
  end.

(** Allocation of a new object. *)
Definition alloc (item : InputItem) : M ref := fun w =>
  Ok (length (heap w), {| heap := heap w ++ [item]; stdout := stdout w |}).

(** Reading an object; a reference is always to an allocated object, the
    other case is there to make the function total. *)
Definition deref (r : ref) : M InputItem := fun w =>
  match heap w !! r with
  | Some item => Ok (item, w)
  | None => Raise KeyError
  end.

(** Assignment to the attributes of an object. *)
Definition update (r : ref) (f : InputItem -> InputItem) : M unit := fun w =>
  match heap w !! r with
  | Some item => Ok (tt, {| heap := <[r := f item]> (heap w); stdout := stdout w |})
  | None => Raise KeyError
  end.

(** [print(line)] *)
Definition print (line : string) : M unit := fun w =>
  Ok (tt, {| heap := heap w; stdout := stdout w ++ [line] |}).

(** [for x in xs: body], threading the variables the loop assigns. *)
Fixpoint for_each {A S : Type} (xs : list A) (body : S -> A -> M S) (s : S)
  : M S :=
  match xs with
  | [] => mret s
  | x :: xs' => s' ← body s x; for_each xs' body s'
  end.

Definition set_input_type (t : InputType) (it : InputItem) : InputItem :=
  {| input_type := Some t; input_id := input_id it;
     always_execute := always_execute it; actions := actions it |}.
Definition set_input_id (i : InputId) (it : InputItem) : InputItem :=
  {| input_type := input_type it; input_id := i;
     always_execute := always_execute it; actions := actions it |}.
Definition set_always_execute (b : bool) (it : InputItem) : InputItem :=
  {| input_type := input_type it; input_id := input_id it;
     always_execute := b; actions := actions it |}.
Definition append_action (a : Action) (it : InputItem) : InputItem :=
  {| input_type := input_type it; input_id := input_id it;
     always_execute := always_execute it; actions := actions it ++ [a] |}.

(** [InputItem.from_xml(node)] *)
Definition InputItem_from_xml (self : ref) (node : Element) : M unit :=
  t ← lift (tag_to_input_type (ElementTree.tag node));
  update self (set_input_type t);;
  id ← lift (int_of_attr (ElementTree.get node "id"));
  update self (set_input_id (IdInt id));;
  ae ← lift (_parse_bool (ElementTree.get_default node "always-execute" "False"));
  update self (set_always_execute ae);;
  (if decide (t = Keyboard)
   then ext ← lift (_parse_bool (ElementTree.get node "extended"));
        update self (set_input_id (IdKey id ext))
   else mret tt);;
  for_each (ElementTree.children node) (fun _ child =>
    if negb (bool_decide (ElementTree.tag child ∈ action_tags))
    then print ("Unknown node:  " ++ ElementTree.tag child)%string
    else
      entry ← lift (action_from_xml (ElementTree.tag child) child);
      update self (append_action entry)) tt.

(** [str(self.input_id)] *)
Definition string_of_input_id (i : InputId) : string :=
  match i with
  | IdNone => "None"
  | IdInt z => string_of_int z
  | IdKey code ext =>
      ("(" ++ string_of_int code ++ ", " ++ string_of_bool ext ++ ")")%string
  end.

(** [InputItem.to_xml()] *)
Definition InputItem_to_xml (self : InputItem) : result Element :=
  tag ← input_type_to_tag (input_type self);
  let node := ElementTree.new tag in
  node ←
    (if decide (input_type self = Some Keyboard)
     then match input_id self with
          | IdKey code ext =>
              let node := ElementTree.set node "id" (Some (string_of_int code)) in
              Ok (ElementTree.set node "extended" (Some (string_of_bool ext)))
          | _ => Raise TypeError     (* not subscriptable *)
          end
     else Ok (ElementTree.set node "id"
                (Some (string_of_input_id (input_id self)))));
  let node :=
    if always_execute self
    then ElementTree.set node "always-execute" (Some "True")
    else node in
  foldl (fun acc entry =>
           node ← acc; child ← action_to_xml entry;
           Ok (ElementTree.append node child))
        (Ok node) (actions self).

(** [Mode._config]: one dictionary of input items per input type, in the
    order the constructor lists them. *)
Record Config : Type := {
  axis_items : dict InputId ref;
  button_items : dict InputId ref;
  hat_items : dict InputId ref;
  key_items : dict InputId ref
}.

(** [self._config[input_type]] *)
Definition config_get (c : Config) (t : InputType) : dict InputId ref :=
  match t with
  | JoystickAxis => axis_items c
  | JoystickButton => button_items c
  | JoystickHat => hat_items c
  | Keyboard => key_items c
  end.

(** [self._config[input_type][input_id] = item] *)
Definition config_set (c : Config) (t : InputType) (i : InputId) (item : ref)
  : Config :=
  match t with
  | JoystickAxis =>
      {| axis_items := ODict.set i item (axis_items c);
         button_items := button_items c; hat_items := hat_items c;
         key_items := key_items c |}
  | JoystickButton =>
      {| axis_items := axis_items c;
         button_items := ODict.set i item (button_items c);
         hat_items := hat_items c; key_items := key_items c |}
  | JoystickHat =>
      {| axis_items := axis_items c; button_items := button_items c;
         hat_items := ODict.set i item (hat_items c);
         key_items := key_items c |}
  | Keyboard =>
      {| axis_items := axis_items c; button_items := button_items c;
         hat_items := hat_items c;
         key_items := ODict.set i item (key_items c) |}
  end.

(** The fields of a [Mode]. *)
Record Mode : Type := {
  Mode_name : option string;
  _config : Config
}.

(** [Mode(parent)] *)
Definition Mode_init : Mode :=
  {| Mode_name := None;
     _config := {| axis_items := []; button_items := [];
                   hat_items := []; key_items := [] |} |}.

Definition Mode_set_name (n : option string) (m : Mode) : Mode :=
  {| Mode_name := n; _config := _config m |}.
Definition Mode_set_item (t : InputType) (i : InputId) (item : ref) (m : Mode)
  : Mode :=
  {| Mode_name := Mode_name m; _config := config_set (_config m) t i item |}.

(** [Mode.from_xml(node)] *)
Definition Mode_from_xml (self : Mode) (node : Element) : M Mode :=
  let self := Mode_set_name (ElementTree.get node "name") self in
  for_each (ElementTree.children node) (fun self child =>
    item ← alloc InputItem_init;
    InputItem_from_xml item child;;
    it ← deref item;
    match input_type it with
    | Some t => mret (Mode_set_item t (input_id it) item self)
    | None => lift (Raise KeyError)
    end) self.

(** [Mode.to_xml()], in a world [w]. *)
Definition Mode_to_xml (w : World) (self : Mode) : result Element :=
  let node := ElementTree.new "mode" in
  let node := ElementTree.set node "name" (Mode_name self) in
  foldl (fun acc item =>
           node ← acc;
           it ← match heap w !! (item : ref) with
                | Some it => Ok it
                | None => Raise KeyError
                end;
           child ← InputItem_to_xml it;
           Ok (ElementTree.append node child))
        (Ok node)
        (concat (map (fun t => ODict.values (config_get (_config self) t))
                     [JoystickAxis; JoystickButton; JoystickHat; Keyboard])).

(** [Mode.get_data(input_type, input_id)].  The assertion
    [input_type in self._config] holds for each of the four input types. *)
Definition Mode_get_data (self : Mode) (input_type' : InputType)
    (input_id' : InputId) : M (Mode * ref) :=
  self ←
    (if negb (ODict.mem input_id' (config_get (_config self) input_type'))
     then
       entry ← alloc InputItem_init;
       update entry (set_input_type input_type');;
       update entry (set_input_id input_id');;
       mret (Mode_set_item input_type' input_id' entry self)
     else mret self);
  match ODict.get input_id' (config_get (_config self) input_type') with
  | Some item => mret (self, item)
  | None => lift (Raise KeyError)
  end.

(** [self._config[input_type] = items] *)
Definition config_replace (c : Config) (t : InputType) (items : dict InputId ref)
  : Config :=
  match t with
  | JoystickAxis =>
      {| axis_items := items; button_items := button_items c;
         hat_items := hat_items c; key_items := key_items c |}
  | JoystickButton =>
      {| axis_items := axis_items c; button_items := items;
         hat_items := hat_items c; key_items := key_items c |}
  | JoystickHat =>
      {| axis_items := axis_items c; button_items := button_items c;
         hat_items := items; key_items := key_items c |}
  | Keyboard =>
      {| axis_items := axis_items c; button_items := button_items c;
         hat_items := hat_items c; key_items := items |}
  end.

(** [Mode.delete_data(input_type, input_id)]: [del] on a key that is not
    in the dictionary is a KeyError. *)
Definition Mode_delete_data (self : Mode) (input_type' : InputType)
    (input_id' : InputId) : result Mode :=
  if ODict.mem input_id' (config_get (_config self) input_type')
  then Ok {| Mode_name := Mode_name self;
             _config := config_replace (_config self) input_type'
                          (ODict.remove input_id'
                             (config_get (_config self) input_type')) |}
  else Raise KeyError.

(** [Mode.set_data(input_type, input_id, data)] *)
Definition Mode_set_data (self : Mode) (input_type' : InputType)
    (input_id' : InputId) (data : ref) : Mode :=
  Mode_set_item input_type' input_id' data self.

(** The fields of a [Device]. *)
Record Device : Type := {
  Device_name : option string;
  hardware_id : option Z;
  windows_id : option Z;
  modes : dict (option string) Mode;
  type : option DeviceType
}.

(** [Device(parent)]: every device starts with an empty "global" mode. *)
Definition Device_init : Device :=
  {| Device_name := None; hardware_id := None; windows_id := None;
     modes := [(Some "global", Mode_set_name (Some "global") Mode_init)];
     type := None |}.

Definition Device_set_name (n : option string) (d : Device) : Device :=
  {| Device_name := n; hardware_id := hardware_id d;
     windows_id := windows_id d; modes := modes d; type := type d |}.
Definition Device_set_hardware_id (i : option Z) (d : Device) : Device :=
  {| Device_name := Device_name d; hardware_id := i;
     windows_id := windows_id d; modes := modes d; type := type d |}.
Definition Device_set_windows_id (i : option Z) (d : Device) : Device :=
  {| Device_name := Device_name d; hardware_id := hardware_id d;
     windows_id := i; modes := modes d; type := type d |}.
Definition Device_set_type (t : DeviceType) (d : Device) : Device :=
  {| Device_name := Device_name d; hardware_id := hardware_id d;
     windows_id := windows_id d; modes := modes d; type := Some t |}.
Definition Device_set_mode (n : option string) (m : Mode) (d : Device) : Device :=
  {| Device_name := Device_name d; hardware_id := hardware_id d;
     windows_id := windows_id d; modes := ODict.set n m (modes d);
     type := type d |}.

(** [device.index]: the class [Device] defines no attribute of that name,
    neither in its constructor nor in a method or property, and nothing
    assigns one to a device, so reading it raises AttributeError. *)
Definition Device_index (self : Device) : result Z := Raise AttributeError.

(** [Device.from_xml(node)] *)
Definition Device_from_xml (self : Device) (node : Element) : M Device :=
  let self := Device_set_name (ElementTree.get node "name") self in
  hid ← lift (int_of_attr (ElementTree.get node "id"));
  let self := Device_set_hardware_id (Some hid) self in
  wid ← lift (int_of_attr (ElementTree.get node "windows_id"));
  let self := Device_set_windows_id (Some wid) self in
  self ←
    (if decide (Device_name self = Some "keyboard")
     then
       index ← lift (Device_index self);
       if decide (index = 0)
       then mret (Device_set_type DT_Keyboard self)
       else mret (Device_set_type DT_Joystick self)
     else mret (Device_set_type DT_Joystick self));
  for_each (ElementTree.children node) (fun self child =>
    mode ← Mode_from_xml Mode_init child;
    mret (Device_set_mode (Mode_name mode) mode self)) self.

(** [str(self.hardware_id)] *)
Definition string_of_id (i : option Z) : string :=
  match i with
  | Some z => string_of_int z
  | None => "None"
  end.

(** [Device.to_xml()], in a world [w]. *)
Definition Device_to_xml (w : World) (self : Device) : result Element :=
  let node := ElementTree.new "device" in
  let node := ElementTree.set node "name" (Device_name self) in
  let node := ElementTree.set node "id" (Some (string_of_id (hardware_id self))) in
  let node :=
    ElementTree.set node "windows_id" (Some (string_of_id (windows_id self))) in
  foldl (fun acc mode =>
           node ← acc; child ← Mode_to_xml w mode;
           Ok (ElementTree.append node child))
        (Ok node) (ODict.values (modes self)).

(** What [gremlin.util.joystick_devices()] reports for an attached
    device. *)
Record JoystickDevice : Type := {
  dev_name : string;
  dev_device_id : Z;
  dev_hardware_id : Z;
  dev_windows_id : Z;
  is_virtual : bool
}.

(** The fields of a [Profile]. *)
Record Profile : Type := {
  devices : dict Z Device;
  imports : list (option string)
}.

(** The two functions of [gremlin.util] the profile calls: the attached
    devices, and the mode names for a device, which [mode_list] finds by
    following the device to the profile that holds it. *)
Class Util : Type := {
  joystick_devices : list JoystickDevice;
  mode_list : dict Z Device -> Device -> list (option string)
}.

(** [Profile()] *)
Definition Profile_init : Profile := {| devices := []; imports := [] |}.

Definition Profile_set_device (k : Z) (d : Device) (p : Profile) : Profile :=
  {| devices := ODict.set k d (devices p); imports := imports p |}.
Definition Profile_append_import (e : option string) (p : Profile) : Profile :=
  {| devices := devices p; imports := imports p ++ [e] |}.

(** The device [Profile.from_xml] builds for an attached device that has
    no entry yet, before its modes are filled in. *)
Definition new_device_for (dev : JoystickDevice) : Device :=
  let new_device := Device_init in
  let new_device := Device_set_name (Some (dev_name dev)) new_device in
  let new_device := Device_set_hardware_id (Some (dev_hardware_id dev)) new_device in
  let new_device := Device_set_windows_id (Some (dev_windows_id dev)) new_device in
  Device_set_type DT_Joystick new_device.

(** The loop "Create required modes" of [Profile.from_xml]. *)
Definition create_required_modes (names : list (option string))
    (new_device : Device) : Device :=
  foldl (fun new_device mode =>
           if negb (ODict.mem mode (modes new_device))
           then Device_set_mode mode (Mode_set_name mode Mode_init) new_device
           else new_device)
        new_device names.

(** The body of the second loop of [Profile.from_xml]: an entry for an
    attached device that is not virtual and has none.  The new device is in
    [self.devices] when [mode_list] is called, and the modes are added to
    that same object. *)
Definition reconcile_device {util : Util} (self : Profile) (dev : JoystickDevice)
  : Profile :=
  if negb (is_virtual dev)
     && negb (ODict.mem (dev_device_id dev) (devices self))
  then
    let new_device := new_device_for dev in
    let self := Profile_set_device (dev_device_id dev) new_device self in
    let names := mode_list (devices self) new_device in
    let new_device := create_required_modes names new_device in
    Profile_set_device (dev_device_id dev) new_device self
  else self.

(** The second loop of [Profile.from_xml], over the attached devices. *)
Definition reconcile {util : Util} (self : Profile) : Profile :=
  foldl reconcile_device self joystick_devices.

(** [Profile.from_xml(fname)], where [root] is the root element of the
    document in the file. *)
Definition Profile_from_xml {util : Util} (self : Profile) (root : Element)
  : M Profile :=
  self ← for_each (ElementTree.iter "device" root) (fun self child =>
            device ← Device_from_xml Device_init child;
            index ← lift (Device_index device);
            mret (Profile_set_device index device self)) self;
  let self := reconcile self in
  mret (foldl (fun self child =>
                 foldl (fun self entry =>
                          Profile_append_import (ElementTree.get entry "name") self)
                       self (ElementTree.children child))
              self (ElementTree.iter "import" root)).

(** [Profile.to_xml(fname)], in a world [w]: the document written to the
    file. *)
Definition Profile_to_xml (w : World) (self : Profile) : result Element :=
  let root := ElementTree.new "devices" in
  let root := ElementTree.set root "version" (Some "1") in
  root ← foldl (fun acc device =>
                  root ← acc; child ← Device_to_xml w device;
                  Ok (ElementTree.append root child))
               (Ok root) (ODict.values (devices self));
  let import_node := ElementTree.new "import" in
  let import_node :=
    foldl (fun import_node entry =>
             let node := ElementTree.new "module" in
             let node := ElementTree.set node "name" entry in
             ElementTree.append import_node node)
          import_node (imports self) in
  let root := ElementTree.append root import_node in
  ElementTree.tostring root.

(** [Profile.get_device_modes(hardware_id, device_name)]: the profile
    after the call and the device returned. *)
Definition Profile_get_device_modes (self : Profile) (hardware_id' : Z)
    (device_name : option string) : result (Profile * Device) :=
  let self :=
    if negb (ODict.mem hardware_id' (devices self))
    then
      let device := Device_init in
      let device := Device_set_name device_name device in
      let device := Device_set_hardware_id (Some hardware_id') device in
      let device := Device_set_type DT_Joystick device in
      let device :=
        if decide (device_name = Some "keyboard")
        then Device_set_type DT_Keyboard device else device in
      Profile_set_device hardware_id' device self
    else self in
  match ODict.get hardware_id' (devices self) with
  | Some device => Ok (self, device)
  | None => Raise KeyError
  end.

End with_actions.

End profile.

(* ===================================================================== *)
(** ** Vocabulary of the statements *)
(* ===================================================================== *)

Import custom_module.
Import profile.

(** Text without blanks. *)
Fixpoint no_space (s : string) : bool :=
  match s with
  | EmptyString => true
  | String c s' => negb (is_space c) && no_space s'
  end.

(** The value stored under a key triple, if any. *)
Definition stored (reg : VariableRegistry) (module name key : string)
  : option pyval :=
  ((reg !! module) ≫= (.!! name)) ≫= (.!! key).

(** The dictionary of an instance, if the two upper levels exist. *)
Definition instance_of (reg : VariableRegistry) (module name : string)
  : option (gmap string pyval) :=
  (reg !! module) ≫= (.!! name).

(** Text of printable ASCII characters, from the space to the tilde. *)
Fixpoint printable (s : string) : bool :=
  match s with
  | EmptyString => true
  | String c s' =>
      (32 <=? nat_of_ascii c)%nat && (nat_of_ascii c <=? 126)%nat
      && printable s'
  end.

(** An import entry that is such a text. *)
Definition plain_name (entry : option string) : Prop :=
  exists s, entry = Some s /\ printable s = true.

(** A variable after loading has the declaration it had before: every
    field but the value. *)
Definition same_declaration (self var : StringVariable) : Prop :=
  s_label var = s_label self /\ s_description var = s_description self
  /\ s_variable_type var = s_variable_type self
  /\ s_default_value var = s_default_value self.

Definition same_numeric_declaration (self var : NumericalVariable) : Prop :=
  label var = label self /\ description var = description self
  /\ variable_type var = variable_type self
  /\ default_value var = default_value self
  /\ min_value var = min_value self /\ max_value var = max_value self.

(** A float runtime to run examples with: it reads integer literals only
    and writes a float by its integral part.  Nothing proved below depends
    on this choice; the general statements hold for every runtime. *)
#[local] Instance integral_floats : FloatRuntime := {|
  float_of_string := fun s =>
    option_map (fun z => Finite (inject_Z z)) (int_of_string s);
  float_of_int := fun z => Some (inject_Z z);
  float_repr := fun q => (string_of_int (Qfloor q) ++ ".0")%string
|}.

(** Actions to run examples with: an action keeps the element it was read
    from and writes it back. *)
#[local] Instance element_actions : Actions := {|
  Action := Element;
  action_from_xml := fun _ node => Ok node;
  action_to_xml := fun a => Ok a
|}.

(** A machine without joysticks. *)
#[local] Instance no_joysticks : Util := {|
  joystick_devices := [];
  mode_list := fun _ _ => []
|}.

(** A machine with one joystick. *)
Definition stick : JoystickDevice :=
  {| dev_name := "Stick"; dev_device_id := 1; dev_hardware_id := 1;
     dev_windows_id := 1; is_virtual := false |}.

#[local] Instance one_joystick : Util := {|
  joystick_devices := [stick];
  mode_list := fun _ _ => [Some "global"]
|}.

(** A button with three actions, the second of a tag that [action_lookup]
    does not have, and a mode that holds it. *)
Definition button_with_unknown_action : Element :=
  ElementTree.Node "button" [("id", Some "3")]
    [ ElementTree.Node "remap" [("button", Some "1")] [];
      ElementTree.Node "bogus" [] [];
      ElementTree.Node "macro" [] [] ].

Definition mode_with_unknown_action : Element :=
  ElementTree.Node "mode" [("name", Some "global")]
    [button_with_unknown_action].

(** A device element whose mode is that mode, and a document with that
    device. *)
Definition device_with_unknown_action : Element :=
  ElementTree.Node "device"
    [("name", Some "Stick"); ("id", Some "1"); ("windows_id", Some "1")]
    [mode_with_unknown_action].

Definition document_with_unknown_action : Element :=
  ElementTree.Node "devices" [("version", Some "1")]
    [device_with_unknown_action; ElementTree.Node "import" [] []].

(** The world before anything is allocated or printed. *)
Definition empty_world : World := {| heap := []; stdout := [] |}.

(** The profile [Profile.from_xml] builds from a document without devices
    on the machine with one joystick: an entry for the joystick, with an
    empty "global" mode. *)
Definition stick_profile : Profile := reconcile (util := one_joystick) Profile_init.

(** The document [Profile.to_xml] writes for it. *)
Definition stick_document : Element :=
  ElementTree.Node "devices" [("version", Some "1")]
    [ ElementTree.Node "device"
        [("name", Some "Stick"); ("id", Some "1"); ("windows_id", Some "1")]
        [ ElementTree.Node "mode" [("name", Some "global")] [] ];
      ElementTree.Node "import" [] [] ].

(** An integer variable "count" with the default 5 and the bounds 0 and
    10. *)
Definition count_variable : NumericalVariable :=
  {| label := "count"; description := "Number of items";
     variable_type := Int; value := PyNone; default_value := PyInt 5;
     min_value := PyInt 0; max_value := PyInt 10 |}.

(** A string variable "title" and a mode variable "mode". *)
Definition title_variable : StringVariable :=
  {| s_label := "title"; s_description := "Title of the window";
     s_variable_type := String_; s_value := PyNone;
     s_default_value := PyStr "Untitled" |}.

Definition mode_variable : StringVariable :=
  {| s_label := "mode"; s_description := "Mode to switch to";
     s_variable_type := custom_module.Mode; s_value := PyNone;
     s_default_value := PyStr "global" |}.

(** The globals of a module that declares the label "x" twice, a
    variable being a label with a default. *)
Definition module_with_duplicate : list (string * option (string * Z)) :=
  [("first", Some ("x", 1)); ("os", None); ("second", Some ("x", 2))].

(** A world with one new item in it, a key element without the attribute
    "extended", and a device element named "keyboard". *)
Definition one_item_world {acts : Actions} : World :=
  {| heap := [InputItem_init]; stdout := [] |}.

Definition key_without_extended : Element :=
  ElementTree.Node "key" [("id", Some "30")] [].

Definition keyboard_element : Element :=
  ElementTree.Node "device"
    [("name", Some "keyboard"); ("id", Some "0"); ("windows_id", Some "0")]
    [ ElementTree.Node "mode" [("name", Some "global")] [] ].

(** The device element of [stick_document]. *)
Definition stick_element : Element :=
  ElementTree.Node "device"
    [("name", Some "Stick"); ("id", Some "1"); ("windows_id", Some "1")]
    [ ElementTree.Node "mode" [("name", Some "global")] [] ].

(** What [Device.from_xml] makes of it. *)
Definition stick_device : Device :=
  {| Device_name := Some "Stick"; hardware_id := Some 1; windows_id := Some 1;
     modes := [(Some "global", Mode_set_name (Some "global") Mode_init)];
     type := Some DT_Joystick |}.

(** The device [get_device_modes] makes for the id 7 and the name
    "Pedals". *)
Definition pedals : Device :=
  {| Device_name := Some "Pedals"; hardware_id := Some 7; windows_id := None;
     modes := [(Some "global", Mode_set_name (Some "global") Mode_init)];
     type := Some DT_Joystick |}.

(** A profile without devices that imports one module. *)
Definition plugin_profile : Profile :=
  {| devices := []; imports := [Some "plugin.py"] |}.

(** A key, extended and always executed, with one action, and a mode that
    holds it at address 0. *)
Definition key_item : InputItem (acts := element_actions) :=
  {| input_type := Some Keyboard; input_id := IdKey 30 true;
     always_execute := true;
     actions := [ElementTree.Node "remap" [("button", Some "1")] []] |}.

Definition key_world : World (acts := element_actions) :=
  {| heap := [key_item]; stdout := [] |}.

Definition key_mode : Mode :=
  {| Mode_name := Some "global";
     _config := {| axis_items := []; button_items := []; hat_items := [];
                   key_items := [(IdKey 30 true, 0%nat)] |} |}.

(** A device whose one mode is that mode. *)
Definition key_device : Device :=
  {| Device_name := Some "Pad"; hardware_id := Some 3; windows_id := Some 2;
     modes := [(Some "global", key_mode)]; type := Some DT_Joystick |}.

(** The variables a module declares, in the order of its globals. *)
Definition declared {V : Type} (globals : list (string * option V)) : list V :=
  omap snd globals.

(** The logger of the standard [logging] module, which has no
    [get_logger]: looking the name up raises AttributeError. *)
Definition raising_log : SystemLog :=
  {| log_error := fun _ => Raise AttributeError |}.

Section statements.
Context {acts : Actions}.

(** Whether the tag of an element is a key of [action_lookup]. *)
Definition known (child : Element) : bool :=
  bool_decide (ElementTree.tag child ∈ action_tags).

(** The line printed for a child whose tag is not. *)
Definition unknown_warning (child : Element) : string :=
  ("Unknown node:  " ++ ElementTree.tag child)%string.

(** The warnings an input element gives rise to, in document order. *)
Definition item_warnings (node : Element) : list string :=
  map unknown_warning
      (List.filter (fun c => negb (known c)) (ElementTree.children node)).

(** An input element without its children of unknown tag. *)
Definition without_unknown (node : Element) : Element :=
  ElementTree.Node (ElementTree.tag node) (ElementTree.attrib node)
    (List.filter known (ElementTree.children node)).

(** The same for all input elements of a mode element. *)
Definition mode_without_unknown (node : Element) : Element :=
  ElementTree.Node (ElementTree.tag node) (ElementTree.attrib node)
    (map without_unknown (ElementTree.children node)).

Definition mode_warnings (node : Element) : list string :=
  concat (map item_warnings (ElementTree.children node)).

(** The same for all mode elements of a device element. *)
Definition device_without_unknown (node : Element) : Element :=
  ElementTree.Node (ElementTree.tag node) (ElementTree.attrib node)
    (map mode_without_unknown (ElementTree.children node)).

Definition device_warnings (node : Element) : list string :=
  concat (map mode_warnings (ElementTree.children node)).

(** The outcome [r], with more lines printed. *)
Definition with_warnings {A} (ws : list string) (r : result (A * World))
  : result (A * World) :=
  match r with
  | Ok (a, w) => Ok (a, {| heap := heap w; stdout := stdout w ++ ws |})
  | Raise e => Raise e
  end.

(** The actions of the children of known tag, in document order. *)
Definition parse_known_actions (cs : list Element) : result (list Action) :=
  mapM (fun c => action_from_xml (ElementTree.tag c) c) (List.filter known cs).

(** What [InputItem.from_xml(node)] makes of an item, as a value. *)
Definition InputItem_parsed (item : InputItem) (node : Element)
  : result InputItem :=
  t ← tag_to_input_type (ElementTree.tag node);
  id ← int_of_attr (ElementTree.get node "id");
  ae ← _parse_bool (ElementTree.get_default node "always-execute" "False");
  iid ← (if decide (t = Keyboard)
         then ext ← _parse_bool (ElementTree.get node "extended");
              Ok (IdKey id ext)
         else Ok (IdInt id));
  acts ← parse_known_actions (ElementTree.children node);
  Ok {| input_type := Some t; input_id := iid; always_execute := ae;
        actions := actions item ++ acts |}.

(** An item with more actions at the end of its list. *)
Definition add_actions (new : list Action) (item : InputItem) : InputItem :=
  {| input_type := input_type item; input_id := input_id item;
     always_execute := always_execute item; actions := actions item ++ new |}.

(** What the loop of [Mode.from_xml] makes of a mode, as a value: the mode
    and the items it allocates, the first of them at address [next]. *)
Fixpoint Mode_items (self : Mode) (cs : list Element) (next : nat)
  : result (Mode * list InputItem) :=
  match cs with
  | [] => Ok (self, [])
  | c :: cs' =>
      item ← InputItem_parsed InputItem_init c;
      match input_type item with
      | Some t =>
          '(m, items) ←
            Mode_items (Mode_set_item t (input_id item) next self) cs' (S next);
          Ok (m, item :: items)
      | None => Raise KeyError
      end
  end.

(** What the loop of [Device.from_xml] makes of a device, as a value. *)
Fixpoint Device_modes (self : Device) (cs : list Element) (next : nat)
  : result (Device * list InputItem) :=
  match cs with
  | [] => Ok (self, [])
  | c :: cs' =>
      '(m, items) ←
        Mode_items (Mode_set_name (ElementTree.get c "name") Mode_init)
          (ElementTree.children c) next;
      '(d, items') ←
        Device_modes (Device_set_mode (Mode_name m) m self) cs'
          (next + length items);
      Ok (d, items ++ items')
  end.

(** An item as [InputItem.from_xml] leaves it: the input type is set, and
    the id is a pair exactly for a key. *)
Definition well_formed_item (item : InputItem) : Prop :=
  match input_type item, input_id item with
  | Some Keyboard, IdKey _ _ => True
  | Some Keyboard, _ => False
  | Some _, IdInt _ => True
  | _, _ => False
  end.

(** An action whose class reads back what it writes, under a tag of
    [action_lookup]. *)
Definition action_round_trips (a : Action) : Prop :=
  exists child,
    action_to_xml a = Ok child /\ known child = true
    /\ action_from_xml (ElementTree.tag child) child = Ok a.

(** The element an item at an address is written as. *)
Definition item_to_xml_at (w : World) (item : ref) : result Element :=
  it ← match heap w !! item with
       | Some it => Ok it
       | None => Raise KeyError
       end;
  InputItem_to_xml it.

(** The names [Profile.from_xml] imports from a document. *)
Definition imported (root : Element) : list (option string) :=
  concat (map (fun child =>
                 map (fun entry => ElementTree.get entry "name")
                     (ElementTree.children child))
              (ElementTree.iter "import" root)).

(** What a mode holds, by value: for an input type, the ids of the slots
    in their order, each with the item found at its address. *)
Definition Mode_content (h : list InputItem) (m : Mode) (t : InputType)
  : list (InputId * option InputItem) :=
  map (fun kv : InputId * ref => (kv.1, h !! kv.2)) (config_get (_config m) t).

(** A slot that holds an item of its own type and id, which is well
    formed and whose actions read back what they write. *)
Definition slot_consistent (h : list InputItem) (t : InputType)
    (kv : InputId * ref) : Prop :=
  exists item,
    h !! kv.2 = Some item /\ input_type item = Some t
    /\ input_id item = kv.1 /\ well_formed_item item
    /\ Forall action_round_trips (actions item).

(** A mode whose slots are consistent, no id twice under an input type. *)
Definition Mode_consistent (h : list InputItem) (m : Mode) : Prop :=
  forall t,
    NoDup (map fst (config_get (_config m) t))
    /\ Forall (slot_consistent h t) (config_get (_config m) t).

(** An element that a slot is written as and read back from. *)
Definition reads_as (h : list InputItem) (e : InputType * (InputId * ref))
    (c : Element) : Prop :=
  exists item,
    h !! e.2.2 = Some item /\ input_type item = Some e.1
    /\ input_id item = e.2.1
    /\ InputItem_to_xml item = Ok c
    /\ InputItem_parsed InputItem_init c = Ok item
    /\ item_warnings c = [].

(** An element that a mode, stored under its own name, is written as and
    read back from: at whatever address the items are created, the mode
    read has the same name and holds the same items. *)
Definition mode_reads_as (w : World) (kv : option string * Mode) (c : Element)
  : Prop :=
  Mode_name kv.2 = kv.1
  /\ Mode_to_xml w kv.2 = Ok c
  /\ ElementTree.get c "name" = kv.1
  /\ mode_warnings c = []
  /\ exists items,
       forall next, exists m',
         Mode_items (Mode_set_name kv.1 Mode_init) (ElementTree.children c) next
         = Ok (m', items)
         /\ Mode_name m' = kv.1
         /\ forall h,
              (forall k item,
                 items !! k = Some item -> h !! (next + k)%nat = Some item) ->
              forall t, Mode_content h m' t = Mode_content (heap w) kv.2 t.

(** A device whose modes are consistent and stored under their names, no
    name twice. *)
Definition Device_consistent (h : list InputItem) (d : Device) : Prop :=
  NoDup (map fst (modes d))
  /\ Forall (fun kv : option string * Mode =>
               Mode_name kv.2 = kv.1 /\ Mode_consistent h kv.2) (modes d).

(** The items of a list of slots. *)
Definition items_of (h : list InputItem)
    (es : list (InputType * (InputId * ref))) : list InputItem :=
  omap (fun e => h !! e.2.2) es.

(** Storing an item, by value, in the slots of one input type. *)
Definition store_item (t : InputType) (acc : dict InputId (option InputItem))
    (item : InputItem) : dict InputId (option InputItem) :=
  if decide (input_type item = Some t)
  then ODict.set (input_id item) (Some item) acc else acc.

End statements.

(* ===================================================================== *)
(** ** Integers as text *)
(* ===================================================================== *)

Section integers_as_text.

Lemma digit_range (d : Z) :
  0 <= d < 10 ->
  d = 0 \/ d = 1 \/ d = 2 \/ d = 3 \/ d = 4 \/ d = 5 \/ d = 6 \/ d = 7
  \/ d = 8 \/ d = 9.
Proof. lia. Qed.

Lemma digit_of_digit_char (d : Z) :
  0 <= d < 10 -> digit_of (digit_char d) = Some d.
Proof.
  intros Hd. destruct (digit_range d Hd) as [->|[->|[->|[->|[->|[->|[->|[->|[->| ->]]]]]]]]];
    reflexivity.
Qed.

Lemma digit_char_not_space (d : Z) :
  0 <= d < 10 -> is_space (digit_char d) = false.
Proof.
  intros Hd. destruct (digit_range d Hd) as [->|[->|[->|[->|[->|[->|[->|[->|[->| ->]]]]]]]]];
    reflexivity.
Qed.

Lemma digit_is_no_sign (c : ascii) (d : Z) :
  digit_of c = Some d -> Ascii.eqb c "-" = false /\ Ascii.eqb c "+" = false.
Proof.
  intros Hd. split.
  - destruct (Ascii.eqb_spec c "-") as [->|]; [discriminate Hd | done].
  - destruct (Ascii.eqb_spec c "+") as [->|]; [discriminate Hd | done].
Qed.

Lemma pos_digits_S (fuel : nat) (n : Z) (acc : string) :
  pos_digits (S fuel) n acc
  = if n <? 10 then String (digit_char (n mod 10)) acc
    else pos_digits fuel (n / 10) (String (digit_char (n mod 10)) acc).
Proof. reflexivity. Qed.

(** The digits written for [n] read back as [n], whatever was read
    before them. *)
Lemma scan_pos_digits (fuel : nat) : forall n,
  0 <= n < 10 ^ Z.of_nat (S fuel) ->
  exists k, 0 <= k /\ forall st a rest,
    scan_digits st a (pos_digits (S fuel) n rest)
    = scan_digits AfterDigit (a * 10 ^ k + n) rest.
Proof.
  induction fuel as [|fuel IH]; intros n Hn.
  - exists 1. split; [lia|]. intros st a rest.
    rewrite pos_digits_S. assert ((n <? 10) = true) as -> by lia.
    cbn [scan_digits]. rewrite digit_of_digit_char by (apply Z.mod_pos_bound; lia).
    rewrite Z.mod_small by lia. f_equal. lia.
  - destruct (n <? 10) eqn:Hlt.
    + exists 1. split; [lia|]. intros st a rest.
      rewrite pos_digits_S, Hlt. cbn [scan_digits].
      rewrite digit_of_digit_char by (apply Z.mod_pos_bound; lia).
      rewrite Z.mod_small by lia. f_equal. lia.
    + destruct (IH (n / 10)) as (k & Hk & Hscan).
      { split; [apply Z.div_pos; lia|].
        apply Z.div_lt_upper_bound; [lia|].
        replace (Z.of_nat (S (S fuel))) with (Z.succ (Z.of_nat (S fuel))) in Hn
          by lia.
        rewrite Z.pow_succ_r in Hn by lia. lia. }
      exists (k + 1). split; [lia|]. intros st a rest.
      rewrite (pos_digits_S (S fuel)), Hlt, Hscan. cbn [scan_digits].
      rewrite digit_of_digit_char by (apply Z.mod_pos_bound; lia).
      f_equal. rewrite Z.pow_add_r by lia.
      pose proof (Z.div_mod n 10 ltac:(lia)). lia.
Qed.

Lemma pos_digits_head (fuel : nat) : forall n rest,
  0 <= n ->
  exists c s' d, pos_digits (S fuel) n rest = String c s' /\ digit_of c = Some d.
Proof.
  induction fuel as [|fuel IH]; intros n rest Hn; rewrite pos_digits_S.
  - destruct (n <? 10); eexists _, _, _; (split; [reflexivity|]);
      apply digit_of_digit_char, Z.mod_pos_bound; lia.
  - destruct (n <? 10).
    + eexists _, _, _. split; [reflexivity|].
      apply digit_of_digit_char, Z.mod_pos_bound; lia.
    + apply IH. apply Z.div_pos; lia.
Qed.

Lemma pos_digits_no_space (fuel : nat) : forall n rest,
  no_space rest = true -> no_space (pos_digits fuel n rest) = true.
Proof.
  induction fuel as [|fuel IH]; intros n rest Hrest; [done|].
  rewrite pos_digits_S.
  assert (no_space (String (digit_char (n mod 10)) rest) = true) as Hstep.
  { cbn [no_space]. rewrite digit_char_not_space, Hrest; [done|].
    apply Z.mod_pos_bound; lia. }
  destruct (n <? 10); [done | by apply IH].
Qed.

Lemma lstrip_no_space (s : string) : no_space s = true -> lstrip s = s.
Proof.
  destruct s as [|c s]; [done|]. cbn [no_space lstrip].
  by destruct (is_space c).
Qed.

Lemma no_space_rev_append (s acc : string) :
  no_space (string_rev_append s acc) = no_space s && no_space acc.
Proof.
  revert acc. induction s as [|c s IH]; intros acc; cbn [string_rev_append no_space].
  - done.
  - rewrite IH. cbn [no_space]. by destruct (is_space c), (no_space s).
Qed.

Lemma rev_append_rev_append (s acc acc' : string) :
  string_rev_append (string_rev_append s acc) acc'
  = string_rev_append acc (s ++ acc')%string.
Proof.
  revert acc acc'. induction s as [|c s IH]; intros acc acc';
    cbn [string_rev_append]; [done|].
  by rewrite IH.
Qed.

Lemma string_app_empty (s : string) : (s ++ EmptyString)%string = s.
Proof.
  induction s as [|c s IH]; [done|].
  change (String c (s ++ EmptyString)%string = String c s). by f_equal.
Qed.

Lemma strip_no_space (s : string) : no_space s = true -> strip s = s.
Proof.
  intros Hs. unfold strip, string_rev.
  rewrite (lstrip_no_space s Hs).
  rewrite lstrip_no_space
    by (rewrite no_space_rev_append, Hs; reflexivity).
  rewrite rev_append_rev_append. cbn [string_rev_append].
  apply string_app_empty.
Qed.

Lemma fuel_suffices (z : Z) :
  0 <= z -> 0 <= z < 10 ^ Z.of_nat (S (Z.to_nat (Z.log2 z))).
Proof.
  intros Hz. split; [done|].
  pose proof (Z.log2_nonneg z) as Hlog.
  replace (Z.of_nat (S (Z.to_nat (Z.log2 z)))) with (Z.succ (Z.log2 z)) by lia.
  destruct (decide (z = 0)) as [->|Hnz]; [done|].
  pose proof (Z.log2_spec z ltac:(lia)) as [_ Hup].
  eapply Z.lt_le_trans; [exact Hup|].
  apply Z.pow_le_mono_l. lia.
Qed.

Lemma int_of_digits (z : Z) :
  0 <= z ->
  scan_digits AtStart 0
    (pos_digits (S (Z.to_nat (Z.log2 z))) z EmptyString) = Some z.
Proof.
  intros Hz.
  destruct (scan_pos_digits _ z (fuel_suffices z Hz)) as (k & _ & Hscan).
  rewrite Hscan. cbn [scan_digits]. reflexivity.
Qed.

Lemma string_of_int_no_space (z : Z) : no_space (string_of_int z) = true.
Proof.
  unfold string_of_int. destruct (z <? 0).
  - cbn [no_space]. rewrite pos_digits_no_space by done. reflexivity.
  - by apply pos_digits_no_space.
Qed.

(** [int(str(z)) == z] *)
Lemma int_of_string_of_int (z : Z) : int_of_string (string_of_int z) = Some z.
Proof.
  unfold int_of_string.
  rewrite strip_no_space by apply string_of_int_no_space.
  unfold string_of_int. destruct (z <? 0) eqn:Hneg.
  - cbn [Ascii.eqb]. rewrite int_of_digits by lia.
    simpl. f_equal. lia.
  - pose proof (int_of_digits z ltac:(lia)) as Hdigits.
    destruct (pos_digits_head (Z.to_nat (Z.log2 z)) z EmptyString ltac:(lia))
      as (c & s' & d & Heq & Hd).
    rewrite Heq in *.
    destruct (digit_is_no_sign c d Hd) as [-> ->]. done.
Qed.

End integers_as_text.

(* ===================================================================== *)
(** ** Properties of the variable registry *)
(* ===================================================================== *)

(** One step of rewriting with the lookups of nested dictionaries. *)
Ltac reg_step :=
  first [ progress simplify_eq/=
        | rewrite lookup_insert_eq
        | rewrite lookup_empty
        | rewrite lookup_insert_ne by congruence
        | case_decide
        | match goal with H : ?x = _ |- context [?x] => rewrite H end
        | match goal with H : ?x = _, H' : context [?x] |- _ => rewrite H in H' end ].

Section registry.
Implicit Types (reg : VariableRegistry) (module name key : string).

Lemma get_instance_present reg module name d :
  instance_of reg module name = Some d ->
  VariableRegistry__get_instance reg module name = reg.
Proof.
  unfold instance_of, VariableRegistry__get_instance, module_at.
  destruct (reg !! module) as [md|] eqn:Hm; simpl; intros Hn;
    repeat reg_step; done.
Qed.

Lemma get_instance_instance_of reg module name :
  instance_of (VariableRegistry__get_instance reg module name) module name
  = Some (default ∅ (instance_of reg module name)).
Proof.
  unfold instance_of, VariableRegistry__get_instance, module_at.
  destruct (reg !! module) as [md|] eqn:Hm; simpl;
    [destruct (md !! name) as [d|] eqn:Hn|]; repeat reg_step; done.
Qed.

Lemma get_instance_other reg module name module' name' :
  (module', name') <> (module, name) ->
  instance_of (VariableRegistry__get_instance reg module name) module' name'
  = instance_of reg module' name'.
Proof.
  intros Hne.
  unfold instance_of, VariableRegistry__get_instance, module_at.
  destruct (decide (module' = module)) as [->|Hmm];
  (destruct (reg !! module) as [md|] eqn:Hm; simpl;
    [destruct (md !! name) as [d|] eqn:Hn|]); repeat reg_step; try done.
  all: try (destruct (decide (name' = name)); repeat reg_step; done).
Qed.

Lemma stored_instance_of reg module name key :
  stored reg module name key = instance_of reg module name ≫= (.!! key).
Proof. reflexivity. Qed.

Lemma get_instance_stored reg module name module' name' key' :
  stored (VariableRegistry__get_instance reg module name) module' name' key'
  = stored reg module' name' key'.
Proof.
  rewrite !stored_instance_of.
  destruct (decide ((module', name') = (module, name))) as [[= -> ->]|Hne].
  - rewrite get_instance_instance_of.
    destruct (instance_of reg module name); simpl; [done|].
    by rewrite lookup_empty.
  - by rewrite get_instance_other.
Qed.

Lemma instance_at_instance_of reg module name :
  instance_at reg module name = default ∅ (instance_of reg module name).
Proof.
  unfold instance_at, module_at, instance_of.
  destruct (reg !! module); simpl; [done|]. by rewrite lookup_empty.
Qed.

Lemma get_value reg module name key :
  (VariableRegistry_get reg module name key).2
  = default PyNone (stored reg module name key).
Proof.
  unfold VariableRegistry_get. simpl.
  rewrite instance_at_instance_of, get_instance_instance_of. simpl.
  rewrite stored_instance_of.
  destruct (instance_of reg module name); simpl; [done|].
  by rewrite lookup_empty.
Qed.

Lemma get_registry reg module name key :
  (VariableRegistry_get reg module name key).1
  = VariableRegistry__get_instance reg module name.
Proof. reflexivity. Qed.

Lemma set_stored reg module name key value :
  stored (VariableRegistry_set reg module name key value) module name key
  = Some value.
Proof.
  unfold stored, VariableRegistry_set.
  rewrite lookup_insert_eq. simpl. rewrite lookup_insert_eq. simpl.
  by rewrite lookup_insert_eq.
Qed.

Lemma get_instance_other_module reg module name module' :
  module' <> module ->
  VariableRegistry__get_instance reg module name !! module' = reg !! module'.
Proof.
  intros Hne. unfold VariableRegistry__get_instance, module_at.
  repeat case_decide; repeat reg_step; done.
Qed.

(** C3, the part that fails: on the empty registry, reading a key leaves
    an empty module level and an empty instance level behind. *)
Lemma get_absent_key_creates_levels :
  (VariableRegistry_get ∅ "module.py" "Instance 1" "x").2 = PyNone /\
  (VariableRegistry_get ∅ "module.py" "Instance 1" "x").1
    = {[ "module.py" := {[ "Instance 1" := ∅ ]} ]} /\
  (VariableRegistry_get ∅ "module.py" "Instance 1" "x").1 <> ∅.
Proof.
  split; [reflexivity|]. split; [reflexivity|].
  intros Heq.
  assert (Hl : (VariableRegistry_get ∅ "module.py" "Instance 1" "x").1
               !! "module.py" = None) by (rewrite Heq; apply lookup_empty).
  vm_compute in Hl. discriminate.
Qed.

(** C3, as the code has it: [get] returns the stored value, or None when
    there is none, and no key triple reads differently afterwards.  It is
    not a pure read: the instance dictionary of the key exists afterwards,
    empty if it had to be created.  Other modules and other instances are
    untouched, and the registry is unchanged when the two upper levels
    were already there. *)
Theorem get_returns_stored_and_creates_levels reg module name key :
  let reg' := (VariableRegistry_get reg module name key).1 in
  (VariableRegistry_get reg module name key).2
    = default PyNone (stored reg module name key)
  /\ (forall m i k, stored reg' m i k = stored reg m i k)
  /\ instance_of reg' module name
     = Some (default ∅ (instance_of reg module name))
  /\ (forall m i, (m, i) <> (module, name) ->
        instance_of reg' m i = instance_of reg m i)
  /\ (forall m, m <> module -> reg' !! m = reg !! m)
  /\ (is_Some (instance_of reg module name) -> reg' = reg).
Proof.
  cbv zeta. rewrite get_value, get_registry. split; [done|].
  split; [intros; apply get_instance_stored|].
  split; [apply get_instance_instance_of|].
  split; [intros; by apply get_instance_other|].
  split; [intros; by apply get_instance_other_module|].
  intros [d Hd]. by eapply get_instance_present.
Qed.

(** C6: after [set(m, i, key, v)] the value is stored under the three
    levels, created where they were missing, and [get(m, i, key)] returns
    it; after [clear()], [get] returns None for every key triple. *)
Theorem set_then_get_and_clear reg module name key value :
  stored (VariableRegistry_set reg module name key value) module name key
    = Some value
  /\ (VariableRegistry_get (VariableRegistry_set reg module name key value)
        module name key).2 = value
  /\ (forall m i k,
        (VariableRegistry_get (VariableRegistry_clear reg) m i k).2 = PyNone).
Proof.
  split; [apply set_stored|].
  split.
  - by rewrite get_value, set_stored.
  - intros m i k. rewrite get_value. reflexivity.
Qed.

End registry.

(* ===================================================================== *)
(** ** Properties of the variables of a custom module *)
(* ===================================================================== *)

Section variables.
Context {rt : FloatRuntime}.
Implicit Types (reg : VariableRegistry) (module name : string).

Lemma load_absent (self : NumericalVariable) module name reg :
  (VariableRegistry_get reg module name (label self)).2 = PyNone ->
  NumericalVariable__load_from_registry self (Some (module, name)) reg
  = (v ← clamp_value (default_value self) (min_value self) (max_value self);
     Ok (set_value self v, VariableRegistry__get_instance reg module name)).
Proof.
  intros Hget. unfold NumericalVariable__load_from_registry.
  destruct (VariableRegistry_get reg module name (label self)) as [reg' val] eqn:Hg.
  assert (reg' = VariableRegistry__get_instance reg module name) as ->
    by (rewrite <- get_registry with (key := label self); by rewrite Hg).
  simpl in Hget. subst val. reflexivity.
Qed.

Lemma load_present (self : NumericalVariable) module name reg val :
  (VariableRegistry_get reg module name (label self)).2 = val ->
  is_None val = false ->
  NumericalVariable__load_from_registry self (Some (module, name)) reg
  = (cast ← _cast_variable (variable_type self);
     v ← cast val;
     v' ← clamp_value v (min_value self) (max_value self);
     Ok (set_value self v', VariableRegistry__get_instance reg module name)).
Proof.
  intros Hget Hnone. unfold NumericalVariable__load_from_registry.
  destruct (VariableRegistry_get reg module name (label self)) as [reg' val'] eqn:Hg.
  assert (reg' = VariableRegistry__get_instance reg module name) as ->
    by (rewrite <- get_registry with (key := label self); by rewrite Hg).
  simpl in Hget. subst val'. rewrite Hnone.
  destruct (_cast_variable (variable_type self)) as [cast|]; [|done].
  simpl. destruct (cast val); done.
Qed.

(** C4, the part that fails: an integer variable whose stored value is
    the text "abc" cannot be constructed; the ValueError of [int] leaves
    [_load_from_registry] and the constructor. *)
Lemma unparsable_stored_value_raises :
  let reg := VariableRegistry_set ∅ "module.py" "Instance 1" "count"
               (PyStr "abc") in
  @IntegerVariable integral_floats "count" "Number of items" PyNone PyNone PyNone
    (Some ("module.py", "Instance 1")) reg = Raise ValueError
  /\ ~ (exists var reg',
          @IntegerVariable integral_floats "count" "Number of items" PyNone PyNone PyNone
            (Some ("module.py", "Instance 1")) reg = Ok (var, reg')
          /\ value var = PyInt 0).
Proof.
  assert (Hrun :
    @IntegerVariable integral_floats "count" "Number of items" PyNone PyNone PyNone
      (Some ("module.py", "Instance 1"))
      (VariableRegistry_set ∅ "module.py" "Instance 1" "count" (PyStr "abc"))
    = Raise ValueError) by (vm_compute; reflexivity).
  cbv zeta. split; [exact Hrun|].
  intros (var & reg' & Hok & _). rewrite Hrun in Hok. discriminate.
Qed.

(** C4, as the code has it: when the identifier is present and the value
    stored for the label of a numeric variable is not None and its cast
    ([int] for Int, [float] for Float) raises, [_load_from_registry] raises
    that same exception: nothing is reported, the value does not fall back
    to the default, and no clamping takes place. *)
Theorem load_raises_on_cast_failure
    (self : NumericalVariable) module name reg val e :
  variable_type self = Int \/ variable_type self = Float ->
  stored reg module name (label self) = Some val ->
  val <> PyNone ->
  (variable_type self = Int -> py_int val = Raise e) ->
  (variable_type self = Float -> py_float val = Raise e) ->
  NumericalVariable__load_from_registry self (Some (module, name)) reg
  = Raise e.
Proof.
  intros Hty Hst Hval Hint Hfloat.
  rewrite (load_present self module name reg val).
  - destruct Hty as [Hty|Hty]; rewrite Hty; simpl.
    + by rewrite (Hint Hty).
    + by rewrite (Hfloat Hty).
  - by rewrite get_value, Hst.
  - by destruct val.
Qed.

End variables.

(** The theorem at work: the integer variable "count" with the text "abc"
    stored for it. *)
Lemma load_raises_on_cast_failure_witness :
  let self := NumericalVariable_fields "count" "Number of items" Int (PyInt 0) (PyInt 0) (PyInt 10) in
  let reg := VariableRegistry_set ∅ "module.py" "Instance 1" "count"
               (PyStr "abc") in
  stored reg "module.py" "Instance 1" (label self) = Some (PyStr "abc")
  /\ NumericalVariable__load_from_registry (rt := integral_floats) self
       (Some ("module.py", "Instance 1")) reg = Raise ValueError.
Proof.
  cbv zeta. split; [reflexivity|].
  apply (@load_raises_on_cast_failure integral_floats) with (val := PyStr "abc").
  - left; reflexivity.
  - reflexivity.
  - discriminate.
  - intros _; reflexivity.
  - intros Hty; discriminate Hty.
Defined.

Section declarations.
Context {rt : FloatRuntime}.
Implicit Types (reg : VariableRegistry) (module name : string).

Lemma result_bind_Ok {A B} (r : result A) (k : A -> result B) (b : B) :
  r ≫= k = Ok b -> exists a, r = Ok a /\ k a = Ok b.
Proof. destruct r as [a|e]; [eauto | discriminate]. Qed.

(** Loading assigns [value] only. *)
Lemma load_keeps_declaration (self var : NumericalVariable) ident reg reg' :
  NumericalVariable__load_from_registry self ident reg = Ok (var, reg') ->
  label var = label self /\ variable_type var = variable_type self
  /\ default_value var = default_value self
  /\ min_value var = min_value self /\ max_value var = max_value self.
Proof.
  unfold NumericalVariable__load_from_registry. intros Hload.
  apply result_bind_Ok in Hload as ([self1 reg1] & Hread & Hclamp).
  apply result_bind_Ok in Hclamp as (v & _ & [= <- <-]).
  assert (exists v1, self1 = set_value self v1) as [v1 ->]; [|done].
  destruct ident as [[id0 id1]|].
  - destruct (VariableRegistry_get reg id0 id1 (label self)) as [reg2 val].
    destruct (is_None val).
    + injection Hread as <- _. eauto.
    + apply result_bind_Ok in Hread as (cast & _ & Hread).
      apply result_bind_Ok in Hread as (v1 & _ & [= <- _]). eauto.
  - injection Hread as <- _. eauto.
Qed.

(** C8: an IntegerVariable declared without default, minimum and maximum
    gets 0, 0 and 10, a FloatVariable 0, -1.0 and 1.0, and a value that is
    supplied is kept.  This holds right after [_initialize_variable] and
    for every variable a constructor returns; with nothing supplied and no
    identifier the constructors do return. *)
Theorem numeric_defaulting label' description' dv mn mx ident reg :
  (let var := IntegerVariable__initialize_variable
                (NumericalVariable_fields label' description' Int dv mn mx) in
   default_value var = (if is_None dv then PyInt 0 else dv)
   /\ min_value var = (if is_None mn then PyInt 0 else mn)
   /\ max_value var = (if is_None mx then PyInt 10 else mx))
  /\ (let var := FloatVariable__initialize_variable
                   (NumericalVariable_fields label' description' Float dv mn mx) in
      default_value var = (if is_None dv then PyInt 0 else dv)
      /\ min_value var = (if is_None mn then PyFloat (-1) else mn)
      /\ max_value var = (if is_None mx then PyFloat 1 else mx))
  /\ (forall var reg',
        IntegerVariable label' description' dv mn mx ident reg = Ok (var, reg') ->
        default_value var = (if is_None dv then PyInt 0 else dv)
        /\ min_value var = (if is_None mn then PyInt 0 else mn)
        /\ max_value var = (if is_None mx then PyInt 10 else mx))
  /\ (forall var reg',
        FloatVariable label' description' dv mn mx ident reg = Ok (var, reg') ->
        default_value var = (if is_None dv then PyInt 0 else dv)
        /\ min_value var = (if is_None mn then PyFloat (-1) else mn)
        /\ max_value var = (if is_None mx then PyFloat 1 else mx))
  /\ IntegerVariable label' description' PyNone PyNone PyNone None reg
     = Ok ({| label := label'; description := description';
              variable_type := Int; value := PyInt 0;
              default_value := PyInt 0; min_value := PyInt 0;
              max_value := PyInt 10 |}, reg)
  /\ FloatVariable label' description' PyNone PyNone PyNone None reg
     = Ok ({| label := label'; description := description';
              variable_type := Float; value := PyInt 0;
              default_value := PyInt 0; min_value := PyFloat (-1);
              max_value := PyFloat 1 |}, reg).
Proof.
  split; [done|]. split; [done|].
  split.
  { intros var reg' Hok. unfold IntegerVariable in Hok.
    apply load_keeps_declaration in Hok as (_ & _ & -> & -> & ->). done. }
  split.
  { intros var reg' Hok. unfold FloatVariable in Hok.
    apply load_keeps_declaration in Hok as (_ & _ & -> & -> & ->). done. }
  split; reflexivity.
Qed.

(** C10: with an identifier and nothing stored for the label, the value
    of a StringVariable after loading is the text "None", whatever its
    default is, while the value of a NumericalVariable in the same position
    is its default, clamped; the other fields of both are as declared. *)
Theorem string_variable_without_stored_value
    (self : StringVariable) (num : NumericalVariable) module name reg :
  s_variable_type self = String_ ->
  stored reg module name (s_label self) = None ->
  stored reg module name (label num) = None ->
  (exists var,
     StringVariable__load_from_registry self (Some (module, name)) reg
     = Ok (var, VariableRegistry__get_instance reg module name)
     /\ s_value var = PyStr "None"
     /\ same_declaration self var)
  /\ match clamp_value (default_value num) (min_value num) (max_value num) with
     | Ok v =>
         exists var,
           NumericalVariable__load_from_registry num (Some (module, name)) reg
           = Ok (var, VariableRegistry__get_instance reg module name)
           /\ value var = v
           /\ same_numeric_declaration num var
     | Raise e =>
         NumericalVariable__load_from_registry num (Some (module, name)) reg
         = Raise e
     end.
Proof.
  intros Hty Hs Hn. split.
  - unfold StringVariable__load_from_registry. rewrite Hty.
    pose proof (get_value reg module name (s_label self)) as Hv.
    pose proof (get_registry reg module name (s_label self)) as Hr.
    destruct (VariableRegistry_get reg module name (s_label self)) as [reg' val].
    simpl in Hv, Hr. rewrite Hs in Hv. simpl in Hv. subst.
    eexists. split; [reflexivity|]. split; [reflexivity|].
    repeat split.
  - rewrite load_absent by (by rewrite get_value, Hn).
    destruct (clamp_value (default_value num) (min_value num) (max_value num))
      as [v|e]; [|done].
    eexists. split; [reflexivity|]. split; [reflexivity|].
    repeat split.
Qed.

End declarations.

(** The theorem at work on the empty registry: a string variable with the
    default "hello" and an integer variable with the default 3. *)
Lemma string_variable_without_stored_value_witness :
  let self := {| s_label := "greeting"; s_description := "Greeting shown";
                 s_variable_type := String_; s_value := PyNone;
                 s_default_value := PyStr "hello" |} in
  let num := NumericalVariable_fields "count" "Number of items" Int (PyInt 3) (PyInt 0) (PyInt 10) in
  let reg' := VariableRegistry__get_instance ∅ "module.py" "Instance 1" in
  (exists var,
     StringVariable__load_from_registry (rt := integral_floats) self
       (Some ("module.py", "Instance 1")) ∅ = Ok (var, reg')
     /\ s_value var = PyStr "None"
     /\ same_declaration self var)
  /\ (exists var,
        NumericalVariable__load_from_registry (rt := integral_floats) num
          (Some ("module.py", "Instance 1")) ∅ = Ok (var, reg')
        /\ value var = PyInt 3
        /\ same_numeric_declaration num var).
Proof.
  cbv zeta.
  apply (@string_variable_without_stored_value integral_floats
           {| s_label := "greeting"; s_description := "Greeting shown";
              s_variable_type := String_; s_value := PyNone;
              s_default_value := PyStr "hello" |}
           (NumericalVariable_fields "count" "Number of items" Int (PyInt 3) (PyInt 0) (PyInt 10))
           "module.py" "Instance 1" ∅); reflexivity.
Defined.

(* ===================================================================== *)
(** ** Properties of the profile *)
(* ===================================================================== *)

Section odict_facts.
Context {K V : Type} `{EqDecision K}.
Implicit Types (d : dict K V) (k : K) (v : V).

Lemma odict_mem_get k d : ODict.mem k d = true <-> is_Some (ODict.get k d).
Proof.
  unfold ODict.mem. destruct (ODict.get k d); split; intros Hx; done.
Qed.

Lemma odict_mem_false k d : ODict.mem k d = false <-> ODict.get k d = None.
Proof. unfold ODict.mem. destruct (ODict.get k d); split; done. Qed.

Lemma odict_get_set_eq k v d : ODict.get k (ODict.set k v d) = Some v.
Proof.
  induction d as [|[k' v'] d IH]; simpl.
  - by rewrite decide_True.
  - destruct (decide (k = k')) as [->|Hne]; simpl.
    + by rewrite decide_True.
    + by rewrite decide_False.
Qed.

Lemma odict_get_set_ne k k' v d :
  k' <> k -> ODict.get k' (ODict.set k v d) = ODict.get k' d.
Proof.
  intros Hne. induction d as [|[k0 v0] d IH]; simpl.
  - by rewrite decide_False.
  - destruct (decide (k = k0)) as [->|Hk]; simpl.
    + by rewrite !decide_False.
    + destruct (decide (k' = k0)); done.
Qed.

(** A new key goes to the end. *)
Lemma odict_set_absent k v d :
  ODict.get k d = None -> ODict.set k v d = d ++ [(k, v)].
Proof.
  induction d as [|[k' v'] d IH]; simpl; [done|].
  destruct (decide (k = k')); [done|]. intros Hd. by rewrite IH.
Qed.

(** Assigning to the key that was added last replaces the last entry. *)
Lemma odict_set_last k v v' d :
  ODict.get k d = None -> ODict.set k v' (d ++ [(k, v)]) = d ++ [(k, v')].
Proof.
  induction d as [|[k0 v0] d IH]; simpl.
  - by rewrite decide_True.
  - destruct (decide (k = k0)); [done|]. intros Hd. by rewrite IH.
Qed.

Lemma odict_get_app k d d' :
  ODict.get k (d ++ d') =
  match ODict.get k d with Some v => Some v | None => ODict.get k d' end.
Proof.
  induction d as [|[k0 v0] d IH]; simpl; [done|].
  destruct (decide (k = k0)); done.
Qed.

End odict_facts.

Section reconciliation.
Context {util : Util}.
Implicit Types (self : Profile) (dev : JoystickDevice).

Lemma create_required_modes_fields names (d : Device) :
  Device_name (create_required_modes names d) = Device_name d
  /\ hardware_id (create_required_modes names d) = hardware_id d
  /\ windows_id (create_required_modes names d) = windows_id d
  /\ type (create_required_modes names d) = type d.
Proof.
  unfold create_required_modes. revert d.
  induction names as [|n names IH]; intros d; simpl; [done|].
  destruct (negb (ODict.mem n (modes d))); [|apply IH].
  destruct (IH (Device_set_mode n (Mode_set_name n Mode_init) d))
    as (-> & -> & -> & ->). done.
Qed.

Lemma create_required_modes_get names (d : Device) n :
  ODict.get n (modes (create_required_modes names d)) =
  match ODict.get n (modes d) with
  | Some m => Some m
  | None =>
      if decide (n ∈ names) then Some (Mode_set_name n Mode_init) else None
  end.
Proof.
  unfold create_required_modes. revert d.
  induction names as [|n0 names IH]; intros d; cbn [foldl].
  - destruct (ODict.get n (modes d)); [done|].
    case_decide as Hin; [|done]. by apply elem_of_nil in Hin.
  - rewrite IH. clear IH.
    destruct (ODict.mem n0 (modes d)) eqn:Hmem; cbn [negb].
    + destruct (ODict.get n (modes d)) eqn:Hn; [done|].
      assert (n <> n0) as Hne.
      { intros ->. apply odict_mem_get in Hmem as [m Hm]. congruence. }
      destruct (decide (n ∈ names)) as [Hin|Hin],
               (decide (n ∈ n0 :: names)) as [Hin'|Hin'];
        rewrite ?elem_of_cons in *; try done; tauto.
    + apply odict_mem_false in Hmem. cbn [modes Device_set_mode].
      destruct (decide (n = n0)) as [->|Hne].
      * rewrite odict_get_set_eq, Hmem.
        case_decide as Hin; [done|].
        exfalso. apply Hin, elem_of_cons. by left.
      * rewrite odict_get_set_ne by done.
        destruct (ODict.get n (modes d)); [done|].
        destruct (decide (n ∈ names)) as [Hin|Hin],
               (decide (n ∈ n0 :: names)) as [Hin'|Hin'];
        rewrite ?elem_of_cons in *; try done; tauto.
Qed.

(** What one round of the loop does: nothing, or one entry at the end. *)
Lemma reconcile_device_cases self dev :
  reconcile_device self dev = self
  \/ (is_virtual dev = false
      /\ ODict.get (dev_device_id dev) (devices self) = None
      /\ reconcile_device self dev =
         {| devices :=
              devices self ++
              [(dev_device_id dev,
                create_required_modes
                  (mode_list (devices self ++
                              [(dev_device_id dev, new_device_for dev)])
                             (new_device_for dev))
                  (new_device_for dev))];
            imports := imports self |}).
Proof.
  unfold reconcile_device.
  destruct (is_virtual dev); simpl; [by left|].
  destruct (ODict.mem (dev_device_id dev) (devices self)) eqn:Hmem; simpl;
    [by left|].
  right. apply odict_mem_false in Hmem.
  split; [done|]. split; [done|].
  unfold Profile_set_device. simpl.
  rewrite (odict_set_absent _ _ _ Hmem).
  by rewrite (odict_set_last _ _ _ _ Hmem).
Qed.

Lemma reconcile_device_present self dev :
  is_virtual dev = false ->
  ODict.mem (dev_device_id dev) (devices (reconcile_device self dev)) = true.
Proof.
  intros Hv. destruct (reconcile_device_cases self dev) as [Heq|(_ & Hget & ->)].
  - rewrite Heq. unfold reconcile_device in Heq. rewrite Hv in Heq. simpl in Heq.
    destruct (ODict.mem (dev_device_id dev) (devices self)) eqn:Hmem; [done|].
    simpl in Heq. apply (f_equal devices) in Heq. simpl in Heq.
    apply odict_mem_false in Hmem.
    rewrite (odict_set_absent _ _ _ Hmem), (odict_set_last _ _ _ _ Hmem) in Heq.
    apply (f_equal length) in Heq. rewrite length_app in Heq. simpl in Heq. lia.
  - simpl. apply odict_mem_get. rewrite odict_get_app, Hget. simpl.
    rewrite decide_True by done. by eexists.
Qed.

Lemma reconcile_devices_extend (l : list JoystickDevice) self :
  imports (foldl reconcile_device self l) = imports self
  /\ exists added, devices (foldl reconcile_device self l) = devices self ++ added.
Proof.
  revert self. induction l as [|dev l IH]; intros self; simpl.
  - split; [done|]. exists []. by rewrite app_nil_r.
  - destruct (IH (reconcile_device self dev)) as (Himp & added & Hadd).
    rewrite Himp, Hadd.
    destruct (reconcile_device_cases self dev) as [->|(_ & _ & ->)]; simpl.
    + split; [done|]. by exists added.
    + split; [done|]. eexists. by rewrite <- app_assoc.
Qed.

Lemma reconcile_devices_keep (l : list JoystickDevice) self k d :
  ODict.get k (devices self) = Some d ->
  ODict.get k (devices (foldl reconcile_device self l)) = Some d.
Proof.
  intros Hk. destruct (reconcile_devices_extend l self) as (_ & added & ->).
  by rewrite odict_get_app, Hk.
Qed.

Lemma reconcile_devices_present (l : list JoystickDevice) self dev :
  dev ∈ l -> is_virtual dev = false ->
  ODict.mem (dev_device_id dev) (devices (foldl reconcile_device self l)) = true.
Proof.
  revert self. induction l as [|dev0 l IH]; intros self Hin Hv.
  - by apply elem_of_nil in Hin.
  - simpl. apply elem_of_cons in Hin as [->|Hin]; [|by apply IH].
    pose proof (reconcile_device_present self dev0 Hv) as Hp.
    apply odict_mem_get in Hp as [d Hd].
    apply odict_mem_get. exists d. by apply reconcile_devices_keep.
Qed.

(** A pass over devices that all have their entry changes nothing. *)
Lemma reconcile_devices_noop (l : list JoystickDevice) self :
  (forall dev, dev ∈ l -> is_virtual dev = false ->
     ODict.mem (dev_device_id dev) (devices self) = true) ->
  foldl reconcile_device self l = self.
Proof.
  induction l as [|dev l IH]; intros Hall; simpl; [done|].
  assert (reconcile_device self dev = self) as ->.
  { unfold reconcile_device. destruct (is_virtual dev) eqn:Hv; [done|].
    rewrite (Hall dev); [done | apply elem_of_cons; by left | done]. }
  apply IH. intros dev' Hin. apply Hall. apply elem_of_cons. by right.
Qed.

(** Every entry a pass adds was built for an attached device. *)
Lemma reconcile_devices_new (l : list JoystickDevice) self k d :
  ODict.get k (devices self) = None ->
  ODict.get k (devices (foldl reconcile_device self l)) = Some d ->
  exists dev ds,
    dev ∈ l /\ is_virtual dev = false /\ dev_device_id dev = k
    /\ d = create_required_modes (mode_list ds (new_device_for dev))
             (new_device_for dev).
Proof.
  revert self. induction l as [|dev l IH]; intros self Hnone Hsome.
  - simpl in Hsome. congruence.
  - simpl in Hsome.
    destruct (ODict.get k (devices (reconcile_device self dev))) as [d1|] eqn:Hd1.
    + rewrite (reconcile_devices_keep l _ k d1 Hd1) in Hsome.
      injection Hsome as <-.
      destruct (reconcile_device_cases self dev) as [Heq|(Hv & Hget & Heq)];
        rewrite Heq in Hd1; [congruence|].
      simpl in Hd1. rewrite odict_get_app, Hnone in Hd1. simpl in Hd1.
      destruct (decide (k = dev_device_id dev)) as [->|]; [|done].
      injection Hd1 as <-.
      eexists dev, _. split; [apply elem_of_cons; by left|]. done.
    + destruct (IH _ Hd1 Hsome) as (dev' & ds & Hin & Hrest).
      exists dev', ds. split; [apply elem_of_cons; by right | done].
Qed.

(** C2: the pass over the attached devices only adds.  The entries of the
    profile stay, in place and unchanged, whether or not their device is
    attached; every attached device that is not virtual has an entry
    afterwards; an entry that is new carries the data of such a device and
    exactly one empty mode for "global" and for each name of its mode
    list; and a second pass changes nothing. *)
Theorem reconcile_additive_idempotent (self : Profile) :
  (exists added, devices (reconcile self) = devices self ++ added)
  /\ imports (reconcile self) = imports self
  /\ (forall k d,
        ODict.get k (devices self) = Some d ->
        ODict.get k (devices (reconcile self)) = Some d)
  /\ (forall dev,
        dev ∈ joystick_devices -> is_virtual dev = false ->
        ODict.mem (dev_device_id dev) (devices (reconcile self)) = true)
  /\ (forall k d,
        ODict.get k (devices self) = None ->
        ODict.get k (devices (reconcile self)) = Some d ->
        exists dev names,
          dev ∈ joystick_devices /\ is_virtual dev = false
          /\ dev_device_id dev = k
          /\ (exists ds, names = mode_list ds (new_device_for dev))
          /\ Device_name d = Some (dev_name dev)
          /\ hardware_id d = Some (dev_hardware_id dev)
          /\ windows_id d = Some (dev_windows_id dev)
          /\ type d = Some DT_Joystick
          /\ forall n,
               ODict.get n (modes d) =
               if decide (n = Some "global" \/ n ∈ names)
               then Some (Mode_set_name n Mode_init) else None)
  /\ reconcile (reconcile self) = reconcile self.
Proof.
  unfold reconcile.
  destruct (reconcile_devices_extend joystick_devices self) as (Himp & Hadd).
  split; [done|]. split; [done|].
  split; [intros k d; apply reconcile_devices_keep|].
  split; [intros dev; apply reconcile_devices_present|].
  split.
  - intros k d Hnone Hsome.
    destruct (reconcile_devices_new _ _ _ _ Hnone Hsome)
      as (dev & ds & Hin & Hv & Hk & ->).
    exists dev, (mode_list ds (new_device_for dev)).
    destruct (create_required_modes_fields
                (mode_list ds (new_device_for dev)) (new_device_for dev))
      as (-> & -> & -> & ->).
    repeat (split; [by eauto|]).
    intros n. rewrite create_required_modes_get. simpl.
    destruct (decide (n = Some "global")) as [->|Hne].
    + rewrite decide_True by (by left). done.
    + destruct (decide (n ∈ mode_list ds (new_device_for dev))) as [Hn|Hn].
      * rewrite decide_True by (by right). done.
      * rewrite decide_False by tauto. done.
  - apply reconcile_devices_noop. intros dev.
    apply reconcile_devices_present.
Qed.

End reconciliation.

Section input_items.
Context {acts : Actions}.
Implicit Types (w : World) (self : ref) (item : InputItem) (node : Element).

Lemma bind_run {A B} (m : M A) (k : A -> M B) w :
  (m ≫= k) w =
  match m w with
  | Ok (a, w') => k a w'
  | Raise e => Raise e
  end.
Proof. reflexivity. Qed.

Lemma lift_run {A} (r : result A) w :
  lift r w = match r with Ok a => Ok (a, w) | Raise e => Raise e end.
Proof. reflexivity. Qed.

Lemma update_run self (f : InputItem -> InputItem) item w :
  heap w !! self = Some item ->
  update self f w
  = Ok (tt, {| heap := <[self := f item]> (heap w); stdout := stdout w |}).
Proof. intros Hself. unfold update. by rewrite Hself. Qed.

Lemma update_unallocated self (f : InputItem -> InputItem) w :
  heap w !! self = None -> update self f w = Raise KeyError.
Proof. intros Hself. unfold update. by rewrite Hself. Qed.

(** The loop over the children of an input element. *)
Lemma actions_loop self (cs : list Element) item w :
  heap w !! self = Some item ->
  for_each cs (fun _ child =>
    if negb (bool_decide (ElementTree.tag child ∈ action_tags))
    then print ("Unknown node:  " ++ ElementTree.tag child)%string
    else
      entry ← lift (action_from_xml (ElementTree.tag child) child);
      update self (append_action entry)) tt w
  = match parse_known_actions cs with
    | Ok new =>
        Ok (tt, {| heap := <[self := add_actions new item]> (heap w);
                   stdout := stdout w ++
                     map unknown_warning
                       (List.filter (fun c => negb (known c)) cs) |})
    | Raise e => Raise e
    end.
Proof.
  revert item w. induction cs as [|c cs IH]; intros item w Hself.
  - simpl. unfold add_actions. rewrite !app_nil_r.
    destruct item, w; simpl in *. by rewrite list_insert_id.
  - cbn [for_each]. rewrite bind_run.
    unfold parse_known_actions. cbn [List.filter]. fold (known c).
    destruct (known c) eqn:Hk; cbn [negb].
    + rewrite bind_run, lift_run. cbn [mapM].
      destruct (action_from_xml (ElementTree.tag c) c) as [entry|e]; [|done].
      rewrite (update_run _ _ item) by done.
      rewrite (IH (append_action entry item)); cbn [heap stdout].
      2: { apply list_lookup_insert_eq. by eapply lookup_lt_Some. }
      fold (parse_known_actions cs).
      destruct (parse_known_actions cs) as [new|e]; [|done].
      simpl. rewrite list_insert_insert_eq.
      unfold add_actions, append_action. simpl. by rewrite <- app_assoc.
    + unfold print at 1. rewrite (IH item) by done. cbn [heap stdout].
      fold (parse_known_actions cs).
      destruct (parse_known_actions cs) as [new|e]; [|done].
      simpl. by rewrite <- app_assoc.
Qed.

Lemma InputItem_from_xml_run self node item w :
  heap w !! self = Some item ->
  InputItem_from_xml self node w
  = match InputItem_parsed item node with
    | Ok item' =>
        Ok (tt, {| heap := <[self := item']> (heap w);
                   stdout := stdout w ++ item_warnings node |})
    | Raise e => Raise e
    end.
Proof.
  intros Hself. pose proof (lookup_lt_Some _ _ _ Hself) as Hlt.
  unfold InputItem_from_xml, InputItem_parsed.
  rewrite bind_run, lift_run.
  destruct (tag_to_input_type (ElementTree.tag node)) as [t|e]; [|done].
  cbn [mbind result_bind Py.bind].
  rewrite bind_run, (update_run _ _ item) by done.
  rewrite bind_run, lift_run.
  destruct (int_of_attr (ElementTree.get node "id")) as [id|e]; [|done].
  cbn [mbind result_bind Py.bind].
  rewrite bind_run, (update_run _ _ (set_input_type t item))
    by (by apply list_lookup_insert_eq).
  cbn [heap stdout]. rewrite list_insert_insert_eq.
  rewrite bind_run, lift_run.
  destruct (_parse_bool (ElementTree.get_default node "always-execute" "False"))
    as [ae|e]; [|done].
  cbn [mbind result_bind Py.bind].
  rewrite bind_run, (update_run _ _ (set_input_id (IdInt id) (set_input_type t item)))
    by (by apply list_lookup_insert_eq).
  cbn [heap stdout]. rewrite list_insert_insert_eq.
  rewrite bind_run.
  destruct (decide (t = Keyboard)) as [->|Hkey].
  - rewrite bind_run, lift_run.
    destruct (_parse_bool (ElementTree.get node "extended")) as [ext|e]; [|done].
    cbn [mbind result_bind Py.bind].
    rewrite (update_run _ _
               (set_always_execute ae
                  (set_input_id (IdInt id) (set_input_type Keyboard item))))
      by (by apply list_lookup_insert_eq).
    cbn [heap stdout]. rewrite list_insert_insert_eq.
    erewrite actions_loop; cbn [heap stdout].
    2: { by apply list_lookup_insert_eq. }
    destruct (parse_known_actions (ElementTree.children node)) as [new|e];
      [|done].
    cbn [mbind result_bind Py.bind heap stdout].
    by rewrite list_insert_insert_eq.
  - cbn [mret M_ret].
    erewrite actions_loop; cbn [heap stdout].
    2: { by apply list_lookup_insert_eq. }
    destruct (parse_known_actions (ElementTree.children node)) as [new|e];
      [|done].
    cbn [mbind result_bind Py.bind heap stdout].
    by rewrite list_insert_insert_eq.
Qed.

Lemma InputItem_from_xml_unallocated self node w :
  heap w !! self = None ->
  InputItem_from_xml self node w
  = match tag_to_input_type (ElementTree.tag node) with
    | Ok _ => Raise KeyError
    | Raise e => Raise e
    end.
Proof.
  intros Hself. unfold InputItem_from_xml. rewrite bind_run, lift_run.
  destruct (tag_to_input_type (ElementTree.tag node)) as [t|e]; [|done].
  by rewrite bind_run, update_unallocated.
Qed.

Lemma alloc_run item w :
  alloc item w
  = Ok (length (heap w), {| heap := heap w ++ [item]; stdout := stdout w |}).
Proof. reflexivity. Qed.

(** The body of the loop of [Mode.from_xml]. *)
Lemma Mode_from_xml_body (m : Mode) (c : Element) w :
  (item ← alloc InputItem_init;
   InputItem_from_xml item c;;
   it ← deref item;
   match input_type it with
   | Some t => mret (Mode_set_item t (input_id it) item m)
   | None => lift (Raise KeyError)
   end) w
  = match InputItem_parsed InputItem_init c with
    | Ok it =>
        match input_type it with
        | Some t =>
            Ok (Mode_set_item t (input_id it) (length (heap w)) m,
                {| heap := heap w ++ [it];
                   stdout := stdout w ++ item_warnings c |})
        | None => Raise KeyError
        end
    | Raise e => Raise e
    end.
Proof.
  rewrite bind_run, alloc_run, bind_run.
  rewrite (InputItem_from_xml_run _ _ InputItem_init);
    [|by apply list_lookup_middle].
  destruct (InputItem_parsed InputItem_init c) as [it|e]; [|done].
  cbn [heap stdout].
  assert (<[length (heap w) := it]> (heap w ++ [InputItem_init])
          = heap w ++ [it]) as ->.
  { rewrite insert_app_r_alt by lia. by rewrite Nat.sub_diag. }
  rewrite bind_run. unfold deref at 1. cbn [heap stdout].
  rewrite list_lookup_middle by done.
  destruct (input_type it); done.
Qed.

Lemma Mode_from_xml_loop (cs : list Element) (m : Mode) w :
  for_each cs (fun (self : Mode) child =>
    item ← alloc InputItem_init;
    InputItem_from_xml item child;;
    it ← deref item;
    match input_type it with
    | Some t => mret (Mode_set_item t (input_id it) item self)
    | None => lift (Raise KeyError)
    end) m w
  = match Mode_items m cs (length (heap w)) with
    | Ok (m', items) =>
        Ok (m', {| heap := heap w ++ items;
                   stdout := stdout w ++ concat (map item_warnings cs) |})
    | Raise e => Raise e
    end.
Proof.
  revert m w. induction cs as [|c cs IH]; intros m w.
  - simpl. rewrite !app_nil_r. by destruct w.
  - cbn [for_each]. rewrite bind_run, Mode_from_xml_body.
    cbn [Mode_items].
    destruct (InputItem_parsed InputItem_init c) as [it|e]; [|done].
    cbn [mbind result_bind Py.bind].
    destruct (input_type it) as [t|]; [|done].
    rewrite IH. cbn [heap stdout]. rewrite length_app. simpl.
    replace (length (heap w) + 1)%nat with (S (length (heap w))) by lia.
    destruct (Mode_items _ cs (S (length (heap w)))) as [[m' items]|e]; [|done].
    cbn [mbind result_bind Py.bind].
    by rewrite <- !app_assoc.
Qed.

Lemma Mode_from_xml_run (self : Mode) node w :
  Mode_from_xml self node w
  = match Mode_items (Mode_set_name (ElementTree.get node "name") self)
            (ElementTree.children node) (length (heap w)) with
    | Ok (m', items) =>
        Ok (m', {| heap := heap w ++ items;
                   stdout := stdout w ++ mode_warnings node |})
    | Raise e => Raise e
    end.
Proof. unfold Mode_from_xml. apply Mode_from_xml_loop. Qed.

Lemma filter_known_twice (cs : list Element) :
  List.filter known (List.filter known cs) = List.filter known cs.
Proof.
  induction cs as [|c cs IH]; simpl; [done|].
  destruct (known c) eqn:Hk; simpl; [|done]. by rewrite Hk, IH.
Qed.

Lemma filter_unknown_of_known (cs : list Element) :
  List.filter (fun c => negb (known c)) (List.filter known cs) = [].
Proof.
  induction cs as [|c cs IH]; simpl; [done|].
  destruct (known c) eqn:Hk; simpl; [|done]. by rewrite Hk.
Qed.

Lemma InputItem_parsed_without_unknown item node :
  InputItem_parsed item (without_unknown node) = InputItem_parsed item node.
Proof.
  unfold InputItem_parsed, without_unknown, parse_known_actions.
  destruct node as [t a cs]. cbn [ElementTree.tag ElementTree.children].
  unfold ElementTree.get, ElementTree.get_default. cbn [ElementTree.attrib].
  by rewrite filter_known_twice.
Qed.

Lemma item_warnings_without_unknown node :
  item_warnings (without_unknown node) = [].
Proof.
  unfold item_warnings, without_unknown. cbn [ElementTree.children].
  by rewrite filter_unknown_of_known.
Qed.

Lemma Mode_items_without_unknown (m : Mode) (cs : list Element) next :
  Mode_items m (map without_unknown cs) next = Mode_items m cs next.
Proof.
  revert m next. induction cs as [|c cs IH]; intros m next; simpl; [done|].
  rewrite InputItem_parsed_without_unknown.
  destruct (InputItem_parsed InputItem_init c) as [it|e]; [|done].
  cbn [mbind result_bind Py.bind].
  destruct (input_type it); [|done]. by rewrite IH.
Qed.

Lemma mode_warnings_without_unknown node :
  mode_warnings (mode_without_unknown node) = [].
Proof.
  unfold mode_warnings, mode_without_unknown. cbn [ElementTree.children].
  induction (ElementTree.children node) as [|c cs IH]; simpl; [done|].
  by rewrite item_warnings_without_unknown, IH.
Qed.

Lemma Device_from_xml_loop (cs : list Element) (d : Device) w :
  for_each cs (fun (self : Device) child =>
    mode ← Mode_from_xml Mode_init child;
    mret (Device_set_mode (Mode_name mode) mode self)) d w
  = match Device_modes d cs (length (heap w)) with
    | Ok (d', items) =>
        Ok (d', {| heap := heap w ++ items;
                   stdout := stdout w ++ concat (map mode_warnings cs) |})
    | Raise e => Raise e
    end.
Proof.
  revert d w. induction cs as [|c cs IH]; intros d w.
  - simpl. rewrite !app_nil_r. by destruct w.
  - cbn [for_each]. rewrite bind_run, bind_run, Mode_from_xml_run.
    cbn [Device_modes].
    destruct (Mode_items _ (ElementTree.children c) (length (heap w)))
      as [[m items]|e]; [|done].
    cbn [mbind result_bind Py.bind mret M_ret].
    rewrite IH. cbn [heap stdout]. rewrite length_app.
    destruct (Device_modes _ cs (length (heap w) + length items))
      as [[d' items']|e]; [|done].
    cbn [mbind result_bind Py.bind map concat].
    by rewrite <- !app_assoc.
Qed.

Lemma Device_modes_without_unknown (d : Device) (cs : list Element) next :
  Device_modes d (map mode_without_unknown cs) next = Device_modes d cs next.
Proof.
  revert d next. induction cs as [|c cs IH]; intros d next; simpl; [done|].
  destruct c as [t a ccs].
  cbn [mode_without_unknown ElementTree.children ElementTree.tag
       ElementTree.attrib].
  rewrite Mode_items_without_unknown.
  unfold ElementTree.get. cbn [ElementTree.attrib].
  destruct (Mode_items _ ccs next) as [[m items]|e]; [|done].
  cbn [mbind result_bind Py.bind]. by rewrite IH.
Qed.

Lemma device_warnings_without_unknown node :
  device_warnings (device_without_unknown node) = [].
Proof.
  unfold device_warnings, device_without_unknown. cbn [ElementTree.children].
  induction (ElementTree.children node) as [|c cs IH]; simpl; [done|].
  by rewrite mode_warnings_without_unknown, IH.
Qed.

Lemma Device_from_xml_without_unknown (d : Device) node w :
  Device_from_xml d node w
  = with_warnings (device_warnings node)
      (Device_from_xml d (device_without_unknown node) w).
Proof.
  unfold Device_from_xml, device_without_unknown. destruct node as [t a cs].
  unfold ElementTree.get.
  cbn [ElementTree.children ElementTree.tag ElementTree.attrib].
  rewrite !bind_run, !lift_run.
  destruct (int_of_attr _) as [hid|e]; [|done].
  rewrite !bind_run, !lift_run.
  destruct (int_of_attr _) as [wid|e]; [|done].
  rewrite !bind_run.
  match goal with
  | |- match ?m w with _ => _ end = _ => destruct (m w) as [[d1 w1]|e] eqn:Hty
  end; [|done].
  assert (w1 = w) as ->.
  { revert Hty. case_decide.
    - rewrite bind_run, lift_run. cbn [Device_index]. done.
    - by intros [= _ ->]. }
  rewrite !Device_from_xml_loop.
  rewrite Device_modes_without_unknown.
  fold (device_warnings (ElementTree.Node t a cs)).
  destruct (Device_modes d1 cs (length (heap w))) as [[d' items]|e]; [|done].
  cbn [with_warnings heap stdout].
  assert (concat (map mode_warnings (map mode_without_unknown cs)) = [])
    as -> by apply (device_warnings_without_unknown (ElementTree.Node t a cs)).
  by rewrite app_nil_r.
Qed.

(** A child whose tag is no key of [action_lookup] costs a printed
    line and nothing else.  [InputItem.from_xml], and [Mode.from_xml] and
    [Device.from_xml] around it, come out as they do on the element without
    such children, warnings added: they fail only where they fail without
    them.  On an allocated item the outcome is [InputItem_parsed]: the
    actions of the children of known tag, appended in document order, and
    one warning for each of the others. *)
Theorem unknown_actions_are_skipped node w :
  (forall self,
     InputItem_from_xml self node w
     = with_warnings (item_warnings node)
         (InputItem_from_xml self (without_unknown node) w))
  /\ (forall self item,
        heap w !! self = Some item ->
        InputItem_from_xml self node w
        = match InputItem_parsed item node with
          | Ok item' =>
              Ok (tt, {| heap := <[self := item']> (heap w);
                         stdout := stdout w ++ item_warnings node |})
          | Raise e => Raise e
          end)
  /\ (forall m : Mode,
        Mode_from_xml m node w
        = with_warnings (mode_warnings node)
            (Mode_from_xml m (mode_without_unknown node) w))
  /\ (forall d : Device,
        Device_from_xml d node w
        = with_warnings (device_warnings node)
            (Device_from_xml d (device_without_unknown node) w)).
Proof.
  split; [|split; [|split]].
  - intros self. destruct (heap w !! self) as [item|] eqn:Hself.
    + rewrite !(InputItem_from_xml_run _ _ item) by done.
      rewrite InputItem_parsed_without_unknown, item_warnings_without_unknown.
      destruct (InputItem_parsed item node); [|done].
      simpl. by rewrite app_nil_r.
    + rewrite !InputItem_from_xml_unallocated by done.
      destruct node as [t a cs]. simpl.
      by destruct (tag_to_input_type t).
  - intros self item. apply InputItem_from_xml_run.
  - intros m. rewrite !Mode_from_xml_run.
    rewrite mode_warnings_without_unknown.
    destruct node as [t a cs]. unfold mode_without_unknown, ElementTree.get.
    cbn [ElementTree.children ElementTree.tag ElementTree.attrib].
    rewrite Mode_items_without_unknown.
    destruct (Mode_items _ cs (length (heap w))) as [[m' items]|e]; [|done].
    simpl. by rewrite app_nil_r.
  - intros d. apply Device_from_xml_without_unknown.
Qed.

(** Appending children leaves the attributes of an element alone. *)
Lemma append_actions_attrib (l : list Action) (node0 node : Element) :
  foldl (fun acc entry =>
           node ← acc; child ← action_to_xml entry;
           Ok (ElementTree.append node child))
        (Ok node0) l = Ok node ->
  ElementTree.attrib node = ElementTree.attrib node0
  /\ ElementTree.tag node = ElementTree.tag node0.
Proof.
  revert node0. induction l as [|a l IH]; intros node0; cbn [foldl].
  - by intros [= ->].
  - cbn [mbind result_bind Py.bind].
    destruct (action_to_xml a) as [child|e]; cbn [mbind result_bind Py.bind].
    + intros Hl. by apply IH in Hl as [-> ->].
    + clear IH. intros Hl. exfalso.
      induction l as [|a' l IH]; cbn [foldl] in Hl; [done|].
      by apply IH.
Qed.

Lemma InputItem_to_xml_flag item node :
  InputItem_to_xml item = Ok node ->
  ODict.get "always-execute" (ElementTree.attrib node)
  = (if always_execute item then Some (Some "True") else None).
Proof.
  unfold InputItem_to_xml. intros Hx.
  apply result_bind_Ok in Hx as (tag & _ & Hx).
  apply result_bind_Ok in Hx as (node1 & Hid & Hx).
  apply append_actions_attrib in Hx as [-> _].
  assert (ODict.get "always-execute" (ElementTree.attrib node1) = None) as Hn1.
  { destruct (decide (input_type item = Some Keyboard)).
    - destruct (input_id item); try done. by injection Hid as <-.
    - by injection Hid as <-. }
  destruct (always_execute item); [|done].
  unfold ElementTree.set. cbn [ElementTree.attrib].
  apply odict_get_set_eq.
Qed.

(** C9: the element written for an item carries the attribute
    "always-execute" only when the flag is set, with the text "True"; read
    with the default "False", the attribute gives back the flag; and
    [InputItem.from_xml] on an element without the attribute leaves the
    flag of the item False. *)
Theorem always_execute_false_is_absence item :
  (forall node,
     InputItem_to_xml item = Ok node ->
     ODict.get "always-execute" (ElementTree.attrib node)
     = (if always_execute item then Some (Some "True") else None)
     /\ _parse_bool (ElementTree.get_default node "always-execute" "False")
        = Ok (always_execute item))
  /\ (forall node item',
        ODict.get "always-execute" (ElementTree.attrib node) = None ->
        InputItem_parsed item node = Ok item' ->
        always_execute item' = false)
  /\ (forall node self w w',
        ODict.get "always-execute" (ElementTree.attrib node) = None ->
        heap w !! self = Some item ->
        InputItem_from_xml self node w = Ok (tt, w') ->
        exists item', heap w' !! self = Some item'
                      /\ always_execute item' = false).
Proof.
  assert (Hparsed : forall node item',
            ODict.get "always-execute" (ElementTree.attrib node) = None ->
            InputItem_parsed item node = Ok item' ->
            always_execute item' = false).
  { intros node item' Habs Hp. unfold InputItem_parsed in Hp.
    apply result_bind_Ok in Hp as (t & _ & Hp).
    apply result_bind_Ok in Hp as (id & _ & Hp).
    apply result_bind_Ok in Hp as (ae & Hae & Hp).
    apply result_bind_Ok in Hp as (iid & _ & Hp).
    apply result_bind_Ok in Hp as (new & _ & [= <-]).
    unfold ElementTree.get_default in Hae. rewrite Habs in Hae.
    vm_compute in Hae. by injection Hae as <-. }
  split; [|split; [exact Hparsed|]].
  - intros node Hx. pose proof (InputItem_to_xml_flag _ _ Hx) as Hflag.
    split; [done|].
    unfold ElementTree.get_default. rewrite Hflag.
    by destruct (always_execute item).
  - intros node self w w' Habs Hself Hrun.
    rewrite (InputItem_from_xml_run _ _ item) in Hrun by done.
    destruct (InputItem_parsed item node) as [item'|e] eqn:Hp; [|done].
    injection Hrun as <-. exists item'. cbn [heap]. split.
    + apply list_lookup_insert_eq. by eapply lookup_lt_Some.
    + by eapply Hparsed.
Qed.

Lemma config_get_set_eq (c : Config) t i (item : ref) :
  ODict.get i (config_get (config_set c t i item) t) = Some item.
Proof. destruct t; simpl; apply odict_get_set_eq. Qed.

Lemma config_get_set_ne (c : Config) t i t' i' (item : ref) :
  (t', i') <> (t, i) ->
  ODict.get i' (config_get (config_set c t i item) t')
  = ODict.get i' (config_get c t').
Proof.
  intros Hne. destruct t, t'; simpl; try done;
    apply odict_get_set_ne; congruence.
Qed.

(** [get_data] on a slot that is filled. *)
Lemma get_data_present (m : Mode) t i (item : ref) w :
  ODict.get i (config_get (_config m) t) = Some item ->
  Mode_get_data m t i w = Ok ((m, item), w).
Proof.
  intros Hslot. unfold Mode_get_data, ODict.mem.
  rewrite bind_run, Hslot. cbn [negb mret M_ret]. by rewrite Hslot.
Qed.

(** [get_data] on a slot that is empty. *)
Lemma get_data_absent (m : Mode) t i w :
  ODict.get i (config_get (_config m) t) = None ->
  Mode_get_data m t i w
  = Ok ((Mode_set_item t i (length (heap w)) m, length (heap w)),
        {| heap := heap w ++
                   [{| input_type := Some t; input_id := i;
                       always_execute := false; actions := [] |}];
           stdout := stdout w |}).
Proof.
  intros Hslot. unfold Mode_get_data, ODict.mem.
  rewrite bind_run, Hslot. cbn [negb].
  rewrite bind_run, alloc_run, bind_run.
  rewrite (update_run _ _ InputItem_init) by (by apply list_lookup_middle).
  cbn [heap stdout].
  rewrite bind_run.
  erewrite update_run; cbn [heap stdout].
  2: { apply list_lookup_insert_eq. rewrite length_app. simpl. lia. }
  rewrite list_insert_insert_eq.
  rewrite insert_app_r_alt by lia. rewrite Nat.sub_diag.
  cbn [mret M_ret Mode_set_item _config]. by rewrite config_get_set_eq.
Qed.

(** C7: [get_data(t, i)] returns the item of the slot and fills the slot
    with a new empty item of that type and id only when it is empty; asked
    again, it returns the same object and changes neither the mode nor the
    heap; no other slot is touched. *)
Theorem get_data_twice_same_item (m : Mode) t i w :
  exists (m1 : Mode) (item : ref) (w1 : World),
    Mode_get_data m t i w = Ok ((m1, item), w1)
    /\ Mode_get_data m1 t i w1 = Ok ((m1, item), w1)
    /\ ODict.get i (config_get (_config m1) t) = Some item
    /\ (forall t' i', (t', i') <> (t, i) ->
          ODict.get i' (config_get (_config m1) t')
          = ODict.get i' (config_get (_config m) t'))
    /\ Mode_name m1 = Mode_name m
    /\ match ODict.get i (config_get (_config m) t) with
       | Some item0 => item = item0 /\ m1 = m /\ w1 = w
       | None =>
           item = length (heap w)
           /\ heap w1 = heap w ++
                        [{| input_type := Some t; input_id := i;
                            always_execute := false; actions := [] |}]
           /\ stdout w1 = stdout w
       end.
Proof.
  destruct (ODict.get i (config_get (_config m) t)) as [item0|] eqn:Hslot.
  - exists m, item0, w.
    rewrite (get_data_present _ _ _ item0) by done.
    rewrite Hslot. done.
  - eexists _, _, _. rewrite (get_data_absent _ _ _ _ Hslot).
    split; [done|].
    assert (ODict.get i (config_get
              (_config (Mode_set_item t i (length (heap w)) m)) t)
            = Some (length (heap w))) as Hfilled
      by apply config_get_set_eq.
    split; [by apply get_data_present|].
    split; [done|].
    split; [intros t' i' Hne; by apply config_get_set_ne|].
    done.
Qed.

Lemma filter_known_all (cs : list Element) :
  Forall (fun c => known c = true) cs -> List.filter known cs = cs.
Proof.
  induction 1 as [|c cs Hc _ IH]; simpl; [done|]. by rewrite Hc, IH.
Qed.

(** Writing the actions of an item and reading them back. *)
Lemma actions_round_trip (l : list Action) :
  Forall action_round_trips l ->
  exists cs,
    Forall (fun c => known c = true) cs
    /\ mapM (fun c => action_from_xml (ElementTree.tag c) c) cs = Ok l
    /\ forall node0 : Element,
         foldl (fun acc entry =>
                  node ← acc; child ← action_to_xml entry;
                  Ok (ElementTree.append node child))
               (Ok node0) l
         = Ok (ElementTree.Node (ElementTree.tag node0)
                 (ElementTree.attrib node0)
                 (ElementTree.children node0 ++ cs)).
Proof.
  induction l as [|a l IH]; intros Hall.
  - exists []. split; [done|]. split; [done|]. intros node0.
    cbn [foldl]. rewrite app_nil_r. by destruct node0.
  - apply Forall_cons in Hall as [(child & Hto & Hknown & Hfrom) Hall].
    destruct (IH Hall) as (cs & Hk & Hm & Hfold).
    exists (child :: cs). split; [by constructor|]. split.
    + cbn [mapM]. rewrite Hfrom. cbn [mbind result_bind Py.bind].
      change (mapM (fun c => action_from_xml (ElementTree.tag c) c) cs
              ≫= (fun k => mret (a :: k)) = Ok (a :: l)).
      by rewrite Hm.
    + intros node0. cbn [foldl mbind result_bind Py.bind]. rewrite Hto.
      cbn [mbind result_bind Py.bind]. rewrite Hfold.
      destruct node0 as [t a0 cs0].
      cbn [ElementTree.append ElementTree.tag ElementTree.attrib
           ElementTree.children].
      by rewrite <- app_assoc.
Qed.

Lemma parse_bool_of_bool (b : bool) :
  _parse_bool (Some (string_of_bool b)) = Ok b.
Proof. by destruct b. Qed.

Lemma get_node t a cs (n0 : Element) (k : string) :
  a = ElementTree.attrib n0 ->
  ElementTree.get (ElementTree.Node t a cs) k = ElementTree.get n0 k.
Proof. by intros ->. Qed.

Lemma get_default_node t a cs (n0 : Element) (k d : string) :
  a = ElementTree.attrib n0 ->
  ElementTree.get_default (ElementTree.Node t a cs) k d
  = ElementTree.get_default n0 k d.
Proof. by intros ->. Qed.

Lemma get_set_eq (n : Element) (k : string) v :
  ElementTree.get (ElementTree.set n k v) k = v.
Proof.
  unfold ElementTree.get, ElementTree.set. cbn [ElementTree.attrib].
  by rewrite odict_get_set_eq.
Qed.

Lemma get_set_ne (n : Element) (k k' : string) v :
  k' <> k -> ElementTree.get (ElementTree.set n k v) k' = ElementTree.get n k'.
Proof.
  intros Hne. unfold ElementTree.get, ElementTree.set.
  cbn [ElementTree.attrib]. by rewrite odict_get_set_ne.
Qed.

Lemma get_default_set_eq (n : Element) (k d : string) v :
  ElementTree.get_default (ElementTree.set n k (Some v)) k d = Some v.
Proof.
  unfold ElementTree.get_default, ElementTree.set. cbn [ElementTree.attrib].
  by rewrite odict_get_set_eq.
Qed.

Lemma get_default_set_ne (n : Element) (k k' d : string) v :
  k' <> k ->
  ElementTree.get_default (ElementTree.set n k v) k' d
  = ElementTree.get_default n k' d.
Proof.
  intros Hne. unfold ElementTree.get_default, ElementTree.set.
  cbn [ElementTree.attrib]. by rewrite odict_get_set_ne.
Qed.

Lemma children_set (n : Element) (k : string) v :
  ElementTree.children (ElementTree.set n k v) = ElementTree.children n.
Proof. reflexivity. Qed.

Lemma tag_set (n : Element) (k : string) v :
  ElementTree.tag (ElementTree.set n k v) = ElementTree.tag n.
Proof. reflexivity. Qed.

Lemma get_default_new (t k d : string) :
  ElementTree.get_default (ElementTree.new t) k d = Some d.
Proof. reflexivity. Qed.

(** What [InputItem.to_xml] writes for a well-formed item whose actions
    round-trip, [InputItem.from_xml] reads back as that item. *)
Theorem InputItem_round_trip item :
  well_formed_item item ->
  Forall action_round_trips (actions item) ->
  exists node,
    InputItem_to_xml item = Ok node
    /\ InputItem_parsed InputItem_init node = Ok item.
Proof.
  intros Hwf Hacts. destruct item as [ty iid ae acts0].
  unfold well_formed_item in Hwf. cbn [input_type input_id actions] in *.
  destruct (actions_round_trip acts0 Hacts) as (cs & Hk & Hm & Hfold).
  unfold InputItem_to_xml, InputItem_parsed.
  cbn [input_type input_id actions always_execute].
  destruct ty as [t|]; [|done].
  destruct t, iid as [|z|code ext], ae; try done;
    cbn [input_type_to_tag mbind result_bind Py.bind];
    eexists; (split;
      [ case_decide; [|try done]; try done;
        cbn [mbind result_bind Py.bind]; rewrite Hfold; reflexivity |]);
    unfold parse_known_actions;
    cbn [ElementTree.children ElementTree.tag];
    rewrite !children_set, !tag_set;
    cbn [ElementTree.children ElementTree.tag ElementTree.new app];
    rewrite (filter_known_all cs Hk), Hm;
    rewrite !(get_node _ _ _ _ _ eq_refl), !(get_default_node _ _ _ _ _ _ eq_refl);
    rewrite ?get_default_set_eq, ?get_default_set_ne by done;
    rewrite ?get_default_new;
    rewrite ?get_set_eq, ?(get_set_ne _ "always-execute" "id") by done;
    rewrite ?(get_set_ne _ "always-execute" "extended") by done;
    rewrite ?(get_set_ne _ "extended" "id") by done;
    rewrite ?get_set_eq;
    unfold int_of_attr; cbn [string_of_input_id];
    rewrite int_of_string_of_int;
    rewrite ?parse_bool_of_bool; reflexivity.
Qed.

End input_items.

Section whole_profile.
Context {acts : Actions} {util : Util}.

(** One element with the tag "device" is enough for [Profile.from_xml] to
    raise: either the device fails to parse, or reading [device.index]
    does. *)
Lemma from_xml_raises_on_device (self : Profile) (root : Element) w :
  ElementTree.iter "device" root <> [] ->
  exists e, Profile_from_xml self root w = Raise e.
Proof.
  intros Hdev. unfold Profile_from_xml.
  destruct (ElementTree.iter "device" root) as [|c cs]; [done|].
  rewrite bind_run. cbn [for_each]. rewrite bind_run, bind_run.
  destruct (Device_from_xml Device_init c w) as [[device w1]|e]; [|by eexists].
  rewrite bind_run, lift_run. cbn [Device_index]. by eexists.
Qed.

(** C5: children of unknown tag are skipped in every element of a
    document, and the document is not parsed all the same.  A device
    element is read as it is read without the children of unknown tag of
    its input elements, with one printed line for each of them; but
    [Profile.from_xml] raises at the first device element of the document,
    with the error of that element if it cannot be read and with
    AttributeError, from [device.index], if it can. *)
Theorem document_with_unknown_action_does_not_load
    (self : Profile) (root device : Element) (rest : list Element) w :
  ElementTree.iter "device" root = device :: rest ->
  Device_from_xml Device_init device w
  = with_warnings (device_warnings device)
      (Device_from_xml Device_init (device_without_unknown device) w)
  /\ Profile_from_xml self root w
     = match Device_from_xml Device_init device w with
       | Ok _ => Raise AttributeError
       | Raise e => Raise e
       end.
Proof.
  intros Hdev. split; [apply Device_from_xml_without_unknown|].
  unfold Profile_from_xml. rewrite Hdev.
  rewrite bind_run. cbn [for_each]. rewrite bind_run, bind_run.
  destruct (Device_from_xml Device_init device w) as [[d w1]|e]; [|done].
  by rewrite bind_run, lift_run.
Qed.

Lemma append_children_prefix {A} (f : A -> result Element) (l : list A)
    (node0 node : Element) :
  foldl (fun acc x =>
           node ← acc; child ← f x; Ok (ElementTree.append node child))
        (Ok node0) l = Ok node ->
  ElementTree.tag node = ElementTree.tag node0
  /\ exists more,
       ElementTree.children node = ElementTree.children node0 ++ more.
Proof.
  revert node0. induction l as [|a l IH]; intros node0; cbn [foldl].
  - intros [= ->]. split; [done|]. exists []. by rewrite app_nil_r.
  - cbn [mbind result_bind Py.bind].
    destruct (f a) as [child|e]; cbn [mbind result_bind Py.bind].
    + intros Hl. apply IH in Hl as (-> & more & ->).
      split; [done|]. destruct node0 as [t a0 cs]. simpl.
      eexists. by rewrite <- app_assoc.
    + clear IH. intros Hl. exfalso.
      induction l as [|a' l IH]; cbn [foldl] in Hl; [done|].
      by apply IH.
Qed.

Lemma Device_to_xml_tag w (d : Device) node :
  Device_to_xml w d = Ok node -> ElementTree.tag node = "device".
Proof.
  unfold Device_to_xml. intros Hx.
  by apply append_children_prefix in Hx as [-> _].
Qed.

(** The document written for a profile with a device has an element with
    the tag "device". *)
Lemma to_xml_has_device w (p : Profile) (root : Element) :
  devices p <> [] ->
  Profile_to_xml w p = Ok root ->
  ElementTree.iter "device" root <> [].
Proof.
  intros Hdev Hx. unfold Profile_to_xml in Hx.
  apply result_bind_Ok in Hx as (root1 & Hloop & Hx).
  unfold ElementTree.tostring in Hx.
  destruct (ElementTree.serialisable _); [|done].
  injection Hx as <-.
  destruct (devices p) as [|[k d] ds]; [done|].
  cbn [ODict.values map foldl snd] in Hloop.
  cbn [mbind result_bind Py.bind] in Hloop.
  destruct (Device_to_xml w d) as [child|e] eqn:Hd.
  - cbn [mbind result_bind Py.bind] in Hloop.
    apply append_children_prefix in Hloop as (Htag & more & Hch).
    apply Device_to_xml_tag in Hd.
    destruct root1 as [t a cs]. simpl in Htag, Hch. subst t cs.
    destruct child as [tc ac cc]. simpl in Hd. subst tc.
    simpl. done.
  - exfalso. cbn [mbind result_bind Py.bind] in Hloop.
    revert Hloop. generalize (map snd ds). intros l.
    induction l as [|a' l IH]; cbn [foldl]; [done|]. exact IH.
Qed.

(** C1, where it fails: a profile with a device can be saved, but the
    document cannot be loaded again; [Profile.from_xml] raises. *)
Theorem saved_profile_with_device_does_not_load
    (p self : Profile) (root : Element) w w' :
  devices p <> [] ->
  Profile_to_xml w p = Ok root ->
  exists e, Profile_from_xml self root w' = Raise e.
Proof.
  intros Hdev Hx. apply from_xml_raises_on_device.
  by eapply to_xml_has_device.
Qed.

End whole_profile.

(** A document whose one device has a button with the actions remap,
    bogus and macro: the device element is read with bogus left out and a
    line printed for it, and the document is not loaded. *)
Lemma document_with_unknown_action_does_not_load_witness :
  ElementTree.iter "device" document_with_unknown_action
  = [device_with_unknown_action]
  /\ Device_from_xml (acts := element_actions) Device_init
       device_with_unknown_action empty_world
     = Ok ({| Device_name := Some "Stick"; hardware_id := Some 1;
              windows_id := Some 1;
              modes := [(Some "global",
                         {| Mode_name := Some "global";
                            _config :=
                              {| axis_items := [];
                                 button_items := [(IdInt 3, 0%nat)];
                                 hat_items := []; key_items := [] |} |})];
              type := Some DT_Joystick |},
           {| heap := [ {| input_type := Some JoystickButton;
                           input_id := IdInt 3; always_execute := false;
                           actions :=
                             [ ElementTree.Node "remap"
                                 [("button", Some "1")] [];
                               ElementTree.Node "macro" [] [] ] |} ];
              stdout := ["Unknown node:  bogus"] |})
  /\ Profile_from_xml (acts := element_actions) (util := one_joystick)
       Profile_init document_with_unknown_action empty_world
     = Raise AttributeError.
Proof.
  split; [reflexivity|]. split; [reflexivity|].
  apply (document_with_unknown_action_does_not_load
           (acts := element_actions) (util := one_joystick) Profile_init
           document_with_unknown_action device_with_unknown_action []
           empty_world).
  reflexivity.
Defined.

(** The theorem at work: the profile with the one joystick, saved and
    loaded on the machine it was made on. *)
Lemma saved_profile_with_device_does_not_load_witness :
  devices stick_profile <> []
  /\ Profile_to_xml empty_world stick_profile = Ok stick_document
  /\ exists e,
       Profile_from_xml (util := one_joystick) Profile_init stick_document
         empty_world = Raise e.
Proof.
  split; [discriminate|]. split; [reflexivity|].
  apply (@saved_profile_with_device_does_not_load element_actions one_joystick
           stick_profile Profile_init stick_document empty_world empty_world).
  - discriminate.
  - reflexivity.
Defined.

(** The exception is the AttributeError of [device.index], with the
    joystick attached or not. *)
Example load_of_saved_stick_profile :
  Profile_from_xml (util := one_joystick) Profile_init stick_document empty_world
  = Raise AttributeError
  /\ Profile_from_xml (util := no_joysticks) Profile_init stick_document
       empty_world
     = Raise AttributeError.
Proof. split; reflexivity. Qed.

(** The button with the unknown action, run: the mode is parsed, the item has the two known
    actions in their order, and one warning is printed. *)
Example mode_with_unknown_action_parses :
  Mode_from_xml (acts := element_actions) Mode_init mode_with_unknown_action
    empty_world
  = Ok ({| Mode_name := Some "global";
           _config := {| axis_items := [];
                         button_items := [(IdInt 3, 0%nat)];
                         hat_items := []; key_items := [] |} |},
        {| heap := [ {| input_type := Some JoystickButton;
                        input_id := IdInt 3;
                        always_execute := false;
                        actions :=
                          [ ElementTree.Node "remap" [("button", Some "1")] [];
                            ElementTree.Node "macro" [] [] ] |} ];
           stdout := ["Unknown node:  bogus"] |}).
Proof. reflexivity. Qed.

(** A key written and read back: id 30, extended, always executed. *)
Example key_item_round_trip :
  let item := {| input_type := Some Keyboard; input_id := IdKey 30 true;
                 always_execute := true; actions := [] |} in
  InputItem_to_xml (acts := element_actions) item
  = Ok (ElementTree.Node "key"
          [("id", Some "30"); ("extended", Some "True");
           ("always-execute", Some "True")] [])
  /\ InputItem_parsed (acts := element_actions) InputItem_init
       (ElementTree.Node "key"
          [("id", Some "30"); ("extended", Some "True");
           ("always-execute", Some "True")] [])
     = Ok item.
Proof. split; reflexivity. Qed.

(** An integer variable without bounds, with 15 stored for it: the value
    read is clamped to 10. *)
Example stored_value_is_clamped :
  let reg := VariableRegistry_set ∅ "module.py" "Instance 1" "count" (PyInt 15) in
  ('(var, _) ← IntegerVariable (rt := integral_floats) "count" "Number of items"
                 PyNone PyNone PyNone (Some ("module.py", "Instance 1")) reg;
   Ok (value var))
  = Ok (PyInt 10).
Proof. reflexivity. Qed.

(* ===================================================================== *)
(** ** More on the registry and on clamping *)
(* ===================================================================== *)

Section registry_writes.
Implicit Types (reg : VariableRegistry) (module name key : string).

Lemma set_registry reg module name key value :
  VariableRegistry_set reg module name key value
  = <[module :=
        <[name := <[key := value]> (default ∅ (instance_of reg module name))]>
          (module_at (VariableRegistry__get_instance reg module name) module)]>
      (VariableRegistry__get_instance reg module name).
Proof.
  unfold VariableRegistry_set.
  by rewrite instance_at_instance_of, get_instance_instance_of.
Qed.

Lemma module_at_lookup reg module name :
  module_at reg module !! name = instance_of reg module name.
Proof.
  unfold module_at, instance_of.
  destruct (reg !! module); simpl; [done | apply lookup_empty].
Qed.

(** X1: A write reaches one key: every other key triple reads as before, and
    a second write to the same key replaces the first. *)
Theorem set_touches_one_key reg module name key value :
  (forall m i k,
     (m, i, k) <> (module, name, key) ->
     stored (VariableRegistry_set reg module name key value) m i k
     = stored reg m i k)
  /\ (forall value',
        VariableRegistry_set
          (VariableRegistry_set reg module name key value)
          module name key value'
        = VariableRegistry_set reg module name key value').
Proof.
  split.
  - intros m i k Hne. rewrite set_registry.
    rewrite <- (get_instance_stored reg module name m i k).
    unfold stored at 1 2.
    destruct (decide (m = module)) as [->|Hm].
    + rewrite lookup_insert_eq. simpl.
      destruct (decide (i = name)) as [->|Hi].
      * rewrite lookup_insert_eq. simpl.
        rewrite lookup_insert_ne by congruence.
        pose proof (get_instance_instance_of reg module name) as Hinst.
        unfold instance_of in Hinst.
        destruct (VariableRegistry__get_instance reg module name !! module)
          as [md|]; simpl in *; [|done].
        rewrite Hinst. done.
      * rewrite lookup_insert_ne by done.
        unfold module_at.
        by destruct (VariableRegistry__get_instance reg module name !! module).
    + by rewrite lookup_insert_ne.
  - intros value'. rewrite (set_registry (VariableRegistry_set _ _ _ _ _)).
    assert (instance_of (VariableRegistry_set reg module name key value)
              module name
            = Some (<[key := value]> (default ∅ (instance_of reg module name))))
      as Hinst.
    { rewrite set_registry. unfold instance_of.
      rewrite lookup_insert_eq. simpl. by rewrite lookup_insert_eq. }
    rewrite (get_instance_present _ _ _ _ Hinst), Hinst. simpl.
    rewrite !set_registry. unfold module_at at 1.
    rewrite lookup_insert_eq. simpl.
    by rewrite !insert_insert_eq.
Qed.

End registry_writes.

Section clamping.

Lemma Qlt_bool_true (x y : Q) : Qlt_bool x y = true <-> (x < y)%Q.
Proof.
  unfold Qlt_bool. rewrite negb_true_iff.
  destruct (Qle_bool y x) eqn:Hle.
  - apply Qle_bool_iff in Hle. split; [done|]. intros Hlt. exfalso. lra.
  - split; [|done]. intros _.
    apply Qnot_le_lt. intros Hyx. apply Qle_bool_iff in Hyx. congruence.
Qed.

Lemma Qlt_bool_false (x y : Q) : Qlt_bool x y = false <-> (y <= x)%Q.
Proof.
  unfold Qlt_bool. rewrite negb_false_iff. apply Qle_bool_iff.
Qed.

Lemma as_number_float (a : pyval) (x : Q) :
  as_number a = Some x <-> as_float a = Some (Finite x).
Proof. destruct a; simpl; split; intros [= <-]; done. Qed.

Lemma py_lt_floats (a b : pyval) (x y : float) :
  as_float a = Some x -> as_float b = Some y ->
  py_lt a b = Ok (float_lt x y).
Proof. intros Ha Hb. unfold py_lt. by rewrite Ha, Hb. Qed.

Lemma py_lt_numbers (a b : pyval) (x y : Q) :
  as_number a = Some x -> as_number b = Some y ->
  py_lt a b = Ok (Qlt_bool x y).
Proof.
  intros Ha%as_number_float Hb%as_number_float.
  by rewrite (py_lt_floats _ _ _ _ Ha Hb).
Qed.

Lemma float_lt_asym (x y : float) :
  float_lt x y = true -> float_lt y x = false.
Proof.
  destruct x as [a| |[|]], y as [b| |[|]]; simpl; try done.
  intros Hlt%Qlt_bool_true. apply Qlt_bool_false. lra.
Qed.

Lemma string_ltb_asym (s t : string) :
  String.ltb s t = true -> String.ltb t s = false.
Proof.
  unfold String.ltb. rewrite (String.compare_antisym s t).
  destruct (String.compare t s); simpl; done.
Qed.

(** When the bounds come in the wrong order, the comparison the other way
    round is false. *)
Lemma py_gt_asym (a b : pyval) :
  py_gt a b = Ok true -> py_gt b a = Ok false.
Proof.
  unfold py_gt, py_lt.
  destruct (as_float a) as [x|] eqn:Ha, (as_float b) as [y|] eqn:Hb.
  - intros [= Hlt]. f_equal. by apply float_lt_asym.
  - destruct a, b; simpl in *; done.
  - destruct a, b; simpl in *; done.
  - destruct a, b; simpl in *; try done.
    intros [= Hlt]. f_equal. by apply string_ltb_asym.
Qed.

(** X2: Bounds given in the wrong order clamp as the same bounds in the right
    order. *)
Theorem clamp_value_swapped_bounds (value min_val max_val : pyval) :
  py_gt min_val max_val = Ok true ->
  clamp_value value min_val max_val = clamp_value value max_val min_val.
Proof.
  intros Hgt. unfold clamp_value.
  rewrite Hgt, (py_gt_asym _ _ Hgt). reflexivity.
Qed.

(** A bound that is nan is not clamped against: every comparison with it
    is false, so nan as the upper bound is what comes back, and with nan
    as the lower bound the upper bound does. *)
Lemma clamp_value_nan_bound (value min_val max_val : pyval) (v a b : Q) :
  as_number value = Some v ->
  as_number min_val = Some a ->
  as_number max_val = Some b ->
  clamp_value value min_val PyNaN = Ok PyNaN
  /\ clamp_value value PyNaN max_val = Ok max_val.
Proof.
  intros Hv%as_number_float Ha%as_number_float Hb%as_number_float.
  assert (as_float PyNaN = Some NaN) as Hnan by done.
  unfold clamp_value, py_gt, py_max, py_min, py_gt.
  split;
    repeat match goal with
      | |- context [py_lt ?x ?y] =>
          erewrite (py_lt_floats x y) by eassumption;
          cbn [mbind result_bind Py.bind float_lt]
      | |- context [if Qlt_bool ?x ?y then _ else _] =>
          destruct (Qlt_bool x y) eqn:?
      end; done.
Qed.

(** X3: On finite numbers (ints, bools and floats other than nan and the
    infinities) the value returned is one of the three arguments, lies
    between the bounds in whichever order they come, and is the value
    itself, up to the bound it may coincide with, when that lies between
    them.  With nan for a bound that fails: nan as the upper bound is
    returned as it is, and nan as the lower bound gives the upper one. *)
Theorem clamp_value_numbers (value min_val max_val : pyval) (v a b : Q) :
  as_number value = Some v ->
  as_number min_val = Some a ->
  as_number max_val = Some b ->
  (exists r q,
     clamp_value value min_val max_val = Ok r
     /\ (r = value \/ r = min_val \/ r = max_val)
     /\ as_number r = Some q
     /\ ((a <= q <= b)%Q \/ (b <= q <= a)%Q)
     /\ (((a <= v <= b)%Q \/ (b <= v <= a)%Q) -> (q == v)%Q)
     /\ (((a < v < b)%Q \/ (b < v < a)%Q) -> r = value))
  /\ clamp_value value min_val PyNaN = Ok PyNaN
  /\ clamp_value value PyNaN max_val = Ok max_val.
Proof.
  intros Hv Ha Hb.
  split; [|by apply (clamp_value_nan_bound _ _ _ _ _ _ Hv Ha Hb)].
  unfold clamp_value, py_gt, py_max, py_min, py_gt.
  rewrite (py_lt_numbers _ _ _ _ Hb Ha).
  cbn [mbind result_bind Py.bind].
  destruct (Qlt_bool b a) eqn:Hba.
  - apply Qlt_bool_true in Hba.
    rewrite (py_lt_numbers _ _ _ _ Hb Hv).
    cbn [mbind result_bind Py.bind].
    destruct (Qlt_bool b v) eqn:Hbv.
    + apply Qlt_bool_true in Hbv.
      rewrite (py_lt_numbers _ _ _ _ Hv Ha).
      cbn [mbind result_bind Py.bind].
      destruct (Qlt_bool v a) eqn:Hva.
      * apply Qlt_bool_true in Hva. exists value, v.
        repeat split; first [done | tauto | lra].
      * apply Qlt_bool_false in Hva. exists min_val, a.
        repeat split; first [done | tauto | lra].
    + apply Qlt_bool_false in Hbv.
      rewrite (py_lt_numbers _ _ _ _ Hb Ha).
      cbn [mbind result_bind Py.bind].
      assert (Qlt_bool b a = true) as -> by (by apply Qlt_bool_true).
      exists max_val, b.
      repeat split; first [done | tauto | lra].
  - apply Qlt_bool_false in Hba.
    rewrite (py_lt_numbers _ _ _ _ Ha Hv).
    cbn [mbind result_bind Py.bind].
    destruct (Qlt_bool a v) eqn:Hav.
    + apply Qlt_bool_true in Hav.
      rewrite (py_lt_numbers _ _ _ _ Hv Hb).
      cbn [mbind result_bind Py.bind].
      destruct (Qlt_bool v b) eqn:Hvb.
      * apply Qlt_bool_true in Hvb. exists value, v.
        repeat split; first [done | tauto | lra].
      * apply Qlt_bool_false in Hvb. exists max_val, b.
        repeat split; first [done | tauto | lra].
    + apply Qlt_bool_false in Hav.
      rewrite (py_lt_numbers _ _ _ _ Ha Hb).
      cbn [mbind result_bind Py.bind].
      destruct (Qlt_bool a b) eqn:Hab.
      * exists min_val, a. apply Qlt_bool_true in Hab.
        repeat split; first [done | tauto | lra].
      * exists max_val, b. apply Qlt_bool_false in Hab.
        repeat split; first [done | tauto | lra].
Qed.

(** On numbers [clamp_value] returns a number between the bounds. *)
Lemma clamp_value_within (value min_val max_val : pyval) (v a b : Q) :
  as_number value = Some v ->
  as_number min_val = Some a ->
  as_number max_val = Some b ->
  exists r q,
    clamp_value value min_val max_val = Ok r
    /\ as_number r = Some q
    /\ ((a <= q <= b)%Q \/ (b <= q <= a)%Q).
Proof.
  intros Hv Ha Hb. unfold clamp_value, py_gt, py_max, py_min, py_gt.
  repeat match goal with
    | |- context [py_lt ?x ?y] =>
        erewrite (py_lt_numbers x y) by eassumption;
        cbn [mbind result_bind Py.bind]
    | |- context [if Qlt_bool ?x ?y then _ else _] =>
        destruct (Qlt_bool x y) eqn:?
    end;
    repeat match goal with
      | H : Qlt_bool _ _ = true |- _ => apply Qlt_bool_true in H
      | H : Qlt_bool _ _ = false |- _ => apply Qlt_bool_false in H
      end;
    (eexists _, _; split; [reflexivity|]; split; [eassumption|lra]).
Qed.

End clamping.

(** Bounds 10 and 0, given as minimum and maximum. *)
Lemma clamp_value_swapped_bounds_witness :
  py_gt (PyInt 10) (PyInt 0) = Ok true
  /\ clamp_value (PyInt 15) (PyInt 10) (PyInt 0)
     = clamp_value (PyInt 15) (PyInt 0) (PyInt 10).
Proof.
  split; [reflexivity|].
  apply (clamp_value_swapped_bounds (PyInt 15) (PyInt 10) (PyInt 0)).
  reflexivity.
Defined.

(** 15 between the float bounds 0.5 and 10. *)
Lemma clamp_value_numbers_witness :
  as_number (PyInt 15) = Some (inject_Z 15)
  /\ as_number (PyFloat (1 # 2)) = Some (1 # 2)%Q
  /\ as_number (PyInt 10) = Some (inject_Z 10)
  /\ (exists r q,
        clamp_value (PyInt 15) (PyFloat (1 # 2)) (PyInt 10) = Ok r
        /\ (r = PyInt 15 \/ r = PyFloat (1 # 2) \/ r = PyInt 10)
        /\ as_number r = Some q
        /\ ((1 # 2 <= q <= inject_Z 10)%Q \/ (inject_Z 10 <= q <= 1 # 2)%Q)
        /\ (((1 # 2 <= inject_Z 15 <= inject_Z 10)%Q
             \/ (inject_Z 10 <= inject_Z 15 <= 1 # 2)%Q) -> (q == inject_Z 15)%Q)
        /\ (((1 # 2 < inject_Z 15 < inject_Z 10)%Q
             \/ (inject_Z 10 < inject_Z 15 < 1 # 2)%Q) -> r = PyInt 15))
  /\ clamp_value (PyInt 15) (PyFloat (1 # 2)) PyNaN = Ok PyNaN
  /\ clamp_value (PyInt 15) PyNaN (PyInt 10) = Ok (PyInt 10).
Proof.
  split; [reflexivity|]. split; [reflexivity|]. split; [reflexivity|].
  apply (clamp_value_numbers (PyInt 15) (PyFloat (1 # 2)) (PyInt 10));
    reflexivity.
Defined.

Section more_variables.
Context {rt : FloatRuntime}.
Implicit Types (reg : VariableRegistry) (module name : string).

(** X4: None for the value or for a bound is a TypeError. *)
Theorem clamp_value_None (value min_val max_val : pyval) :
  is_None value = true \/ is_None min_val = true \/ is_None max_val = true ->
  clamp_value value min_val max_val = Raise TypeError.
Proof.
  assert (forall a, py_lt a PyNone = Raise TypeError) as Hright
    by (by intros []).
  assert (forall a b e, py_lt a b = Raise e -> e = TypeError) as Hraises.
  { intros a b e. unfold py_lt.
    destruct (as_float a), (as_float b), a, b; simpl; congruence. }
  intros [Hn|[Hn|Hn]].
  - destruct value; try done. unfold clamp_value.
    destruct (py_gt min_val max_val) as [swap|e] eqn:Hswap.
    + cbn [mbind result_bind Py.bind].
      destruct swap; unfold py_max, py_gt; by rewrite Hright.
    + apply Hraises in Hswap. by subst.
  - destruct min_val; try done. unfold clamp_value, py_gt. by rewrite Hright.
  - by destruct max_val.
Qed.

(** With finite bounds, whatever [clamp_value] returns is a number
    between them, also for a value that is nan or infinite. *)
Lemma clamp_value_Ok_within (value min_val max_val r : pyval) (a b : Q) :
  as_number min_val = Some a ->
  as_number max_val = Some b ->
  clamp_value value min_val max_val = Ok r ->
  exists q, as_number r = Some q /\ ((a <= q <= b)%Q \/ (b <= q <= a)%Q).
Proof.
  intros Ha Hb.
  pose proof (proj1 (as_number_float _ _) Ha) as Ha'.
  pose proof (proj1 (as_number_float _ _) Hb) as Hb'.
  destruct (as_float value) as [[v| |negative]|] eqn:Hf.
  - apply as_number_float in Hf.
    destruct (clamp_value_within _ _ _ _ _ _ Hf Ha Hb)
      as (r' & q & -> & Hq & Hin).
    intros [= <-]. eauto.
  - unfold clamp_value, py_gt, py_max, py_min, py_gt.
    repeat match goal with
      | |- context [py_lt ?x ?y] =>
          erewrite (py_lt_floats x y) by eassumption;
          cbn [mbind result_bind Py.bind float_lt]
      | |- context [if Qlt_bool ?x ?y then _ else _] =>
          destruct (Qlt_bool x y) eqn:?
      end;
      repeat match goal with
        | H : Qlt_bool _ _ = true |- _ => apply Qlt_bool_true in H
        | H : Qlt_bool _ _ = false |- _ => apply Qlt_bool_false in H
        end;
      intros [= <-]; (eexists; split; [eassumption|lra]).
  - unfold clamp_value, py_gt, py_max, py_min, py_gt.
    destruct negative;
      repeat match goal with
        | |- context [py_lt ?x ?y] =>
            erewrite (py_lt_floats x y) by eassumption;
            cbn [mbind result_bind Py.bind float_lt]
        | |- context [if Qlt_bool ?x ?y then _ else _] =>
            destruct (Qlt_bool x y) eqn:?
        end;
      repeat match goal with
        | H : Qlt_bool _ _ = true |- _ => apply Qlt_bool_true in H
        | H : Qlt_bool _ _ = false |- _ => apply Qlt_bool_false in H
        end;
      intros [= <-]; (eexists; split; [eassumption|lra]).
  - assert (forall x, is_Some (as_float x) -> py_lt x value = Raise TypeError)
      as Hraise.
    { intros x [y Hx]. unfold py_lt. rewrite Hx, Hf.
      destruct x, value; simpl in *; done. }
    unfold clamp_value, py_gt, py_max, py_min, py_gt.
    rewrite (py_lt_floats _ _ _ _ Hb' Ha').
    cbn [mbind result_bind Py.bind float_lt].
    destruct (Qlt_bool b a); by rewrite Hraise by (by eexists).
Qed.

(** X5: With finite numbers for its bounds (no nan, no infinity),
    whatever a numeric variable loads, a stored nan or infinity included,
    the value it ends up with is a finite number between the bounds, in
    whichever order they were declared; and with a finite number for the
    default as well and no identifier, loading does not fail. *)
Theorem loaded_value_within_bounds (self : NumericalVariable) (a b : Q) :
  as_number (min_value self) = Some a ->
  as_number (max_value self) = Some b ->
  (forall ident reg var reg',
     NumericalVariable__load_from_registry self ident reg = Ok (var, reg') ->
     exists q, as_number (value var) = Some q
               /\ ((a <= q <= b)%Q \/ (b <= q <= a)%Q))
  /\ (forall reg d,
        as_number (default_value self) = Some d ->
        exists var,
          NumericalVariable__load_from_registry self None reg = Ok (var, reg)).
Proof.
  intros Ha Hb. split.
  - intros ident reg var reg' Hload.
    unfold NumericalVariable__load_from_registry in Hload.
    apply result_bind_Ok in Hload as ([self1 reg1] & Hread & Hclamp).
    apply result_bind_Ok in Hclamp as (r & Hclamp & [= <- <-]).
    assert (exists v1, self1 = set_value self v1) as [v1 ->].
    { destruct ident as [[id0 id1]|].
      - destruct (VariableRegistry_get reg id0 id1 (label self)) as [reg2 val].
        destruct (is_None val).
        + injection Hread as <- _. eauto.
        + apply result_bind_Ok in Hread as (cast & _ & Hread).
          apply result_bind_Ok in Hread as (v1 & _ & [= <- _]). eauto.
      - injection Hread as <- _. eauto. }
    cbn [value min_value max_value set_value] in *.
    by apply (clamp_value_Ok_within _ _ _ _ _ _ Ha Hb Hclamp).
  - intros reg d Hd. unfold NumericalVariable__load_from_registry.
    cbn [mbind result_bind Py.bind value min_value max_value set_value].
    destruct (clamp_value_within _ _ _ _ _ _ Hd Ha Hb)
      as (r & q & -> & _). cbn [mbind result_bind Py.bind]. eauto.
Qed.

(** X6: Loading a string variable cannot fail: with an identifier its
    value afterwards is the text [str] makes of what is stored, None
    included; without one it is the default.  The other fields are as
    declared. *)
Theorem string_variable_always_loads (self : StringVariable) reg :
  s_variable_type self = String_ ->
  (forall module name,
     exists s var,
       py_str (default PyNone (stored reg module name (s_label self)))
       = Ok (PyStr s)
       /\ StringVariable__load_from_registry self (Some (module, name)) reg
          = Ok (var, VariableRegistry__get_instance reg module name)
       /\ s_value var = PyStr s
       /\ same_declaration self var)
  /\ (exists var,
        StringVariable__load_from_registry self None reg = Ok (var, reg)
        /\ s_value var = s_default_value self
        /\ same_declaration self var).
Proof.
  intros Hty. split.
  - intros module name.
    unfold StringVariable__load_from_registry. rewrite Hty.
    pose proof (get_value reg module name (s_label self)) as Hv.
    pose proof (get_registry reg module name (s_label self)) as Hr.
    destruct (VariableRegistry_get reg module name (s_label self))
      as [reg' val].
    simpl in Hv, Hr. subst.
    destruct (default PyNone (stored reg module name (s_label self)));
      eexists _, _; (split; [reflexivity|]); (split; [reflexivity|]);
      (split; [reflexivity|]); repeat split.
  - eexists. split; [reflexivity|]. split; [reflexivity|]. repeat split.
Qed.

(** X7: A mode variable with an identifier cannot load: the cast table has
    no entry for its type, and the lookup raises before the registry is
    read.  Without an identifier its value afterwards is its default, the
    other fields being as declared. *)
Theorem mode_variable_load_raises (self : StringVariable) reg :
  s_variable_type self = custom_module.Mode ->
  (forall module name,
     ModeVariable__load_from_registry self (Some (module, name)) reg
     = Raise KeyError)
  /\ (exists var,
        ModeVariable__load_from_registry self None reg = Ok (var, reg)
        /\ s_value var = s_default_value self
        /\ same_declaration self var).
Proof.
  intros Hty. split.
  - intros module name.
    unfold ModeVariable__load_from_registry. by rewrite Hty.
  - eexists. split; [reflexivity|]. split; [reflexivity|]. repeat split.
Qed.

End more_variables.

(** No value to clamp. *)
Lemma clamp_value_None_witness :
  (is_None PyNone = true \/ is_None (PyInt 0) = true
   \/ is_None (PyInt 10) = true)
  /\ clamp_value PyNone (PyInt 0) (PyInt 10) = Raise TypeError.
Proof.
  split; [by left|].
  apply (clamp_value_None PyNone (PyInt 0) (PyInt 10)). by left.
Defined.

Lemma loaded_value_within_bounds_witness :
  as_number (min_value count_variable) = Some (inject_Z 0)
  /\ as_number (max_value count_variable) = Some (inject_Z 10)
  /\ (forall ident reg var reg',
        NumericalVariable__load_from_registry (rt := integral_floats)
          count_variable ident reg = Ok (var, reg') ->
        exists q, as_number (value var) = Some q
                  /\ ((inject_Z 0 <= q <= inject_Z 10)%Q
                      \/ (inject_Z 10 <= q <= inject_Z 0)%Q))
  /\ (forall reg d,
        as_number (default_value count_variable) = Some d ->
        exists var,
          NumericalVariable__load_from_registry (rt := integral_floats)
            count_variable None reg = Ok (var, reg)).
Proof.
  split; [reflexivity|]. split; [reflexivity|].
  apply (loaded_value_within_bounds (rt := integral_floats) count_variable);
    reflexivity.
Defined.

Lemma string_variable_always_loads_witness :
  s_variable_type title_variable = String_
  /\ (forall module name,
        exists s var,
          py_str (rt := integral_floats)
            (default PyNone (stored ∅ module name (s_label title_variable)))
          = Ok (PyStr s)
          /\ StringVariable__load_from_registry (rt := integral_floats)
               title_variable (Some (module, name)) ∅
             = Ok (var, VariableRegistry__get_instance ∅ module name)
          /\ s_value var = PyStr s
          /\ same_declaration title_variable var)
  /\ (exists var,
        StringVariable__load_from_registry (rt := integral_floats)
          title_variable None ∅ = Ok (var, ∅)
        /\ s_value var = s_default_value title_variable
        /\ same_declaration title_variable var).
Proof.
  split; [reflexivity|].
  apply (string_variable_always_loads (rt := integral_floats) title_variable).
  reflexivity.
Defined.

Lemma mode_variable_load_raises_witness :
  s_variable_type mode_variable = custom_module.Mode
  /\ (forall module name,
        ModeVariable__load_from_registry (rt := integral_floats)
          mode_variable (Some (module, name)) ∅
        = Raise KeyError)
  /\ (exists var,
        ModeVariable__load_from_registry (rt := integral_floats)
          mode_variable None ∅ = Ok (var, ∅)
        /\ s_value var = s_default_value mode_variable
        /\ same_declaration mode_variable var).
Proof.
  split; [reflexivity|].
  apply (mode_variable_load_raises (rt := integral_floats) mode_variable).
  reflexivity.
Defined.

Section variable_definitions.
Context {V : Type} {syslog : SystemLog} (label_of : V -> string).
Implicit Types (globals : list (string * option V)) (vars : dict string V).

Lemma odict_get_None_keys {K W} `{EqDecision K} (k : K) (d : dict K W) :
  ODict.get k d = None <-> k ∉ map fst d.
Proof.
  induction d as [|[k' w'] d IH]; simpl.
  - split; [intros _; apply not_elem_of_nil | done].
  - rewrite not_elem_of_cons. destruct (decide (k = k')) as [->|Hne].
    + split; [done | tauto].
    + rewrite IH. tauto.
Qed.

Lemma collect_variables_snoc globals key (value : option V) :
  collect_variables label_of (globals ++ [(key, value)])
  = ('(variables, log) ← collect_variables label_of globals;
     match value with
     | Some var =>
         log ←
           (if ODict.mem (label_of var) variables
            then
              let message :=
                ("Duplicate label present: " ++ label_of var)%string in
              log_error message;;
              Ok (log ++ [message])
            else Ok log);
         Ok (ODict.set (label_of var) var variables, log)
     | None => Ok (variables, log)
     end).
Proof. unfold collect_variables. by rewrite foldl_snoc. Qed.

Lemma declared_snoc globals key (value : option V) :
  declared (globals ++ [(key, value)])
  = declared globals ++ match value with Some var => [var] | None => [] end.
Proof. unfold declared. rewrite omap_app. by destruct value. Qed.

(** Without a label declared twice the loop returns the declarations as
    they come and never turns to the log. *)
Lemma collect_variables_distinct globals :
  NoDup (label_of <$> declared globals) ->
  collect_variables label_of globals
  = Ok ((fun var => (label_of var, var)) <$> declared globals, []).
Proof.
  induction globals as [|[key value] globals IH] using rev_ind; [done|].
  rewrite declared_snoc, collect_variables_snoc.
  destruct value as [var|].
  - rewrite fmap_app. intros (Hnodup & Hfresh & _)%NoDup_app.
    rewrite (IH Hnodup). cbn [mbind result_bind Py.bind].
    assert (ODict.get (label_of var)
              ((fun var => (label_of var, var)) <$> declared globals) = None)
      as Hget.
    { apply odict_get_None_keys. intros Hin.
      apply (Hfresh (label_of var)); [|apply list_elem_of_singleton; done].
      change (label_of var ∈ fst <$> ((fun var => (label_of var, var)) <$>
                                       declared globals)) in Hin.
      by rewrite <- list_fmap_compose in Hin. }
    unfold ODict.mem. rewrite Hget. cbn [mbind result_bind Py.bind].
    rewrite (odict_set_absent _ _ _ Hget). by rewrite fmap_app.
  - rewrite app_nil_r. intros Hnodup. by rewrite (IH Hnodup).
Qed.

(** X8: [get_variable_definitions]: a path that is no file gives the empty
    collection, and a module that declares no label twice gives its
    declarations in their order, with nothing logged, whatever the logger
    would do. *)
Theorem variable_definitions_without_duplicates globals :
  get_variable_definitions label_of None = Ok ([], [])
  /\ (NoDup (label_of <$> declared globals) ->
      get_variable_definitions label_of (Some globals)
      = Ok (declared globals, [])).
Proof.
  split; [done|]. intros Hnodup. unfold get_variable_definitions.
  rewrite (collect_variables_distinct _ Hnodup).
  cbn [mbind result_bind Py.bind]. unfold ODict.values.
  change (map snd ?l) with (snd <$> l).
  rewrite <- list_fmap_compose. by rewrite list_fmap_id.
Qed.

(** X10: With a logger that raises, a label declared twice makes
    [get_variable_definitions] raise. *)
Theorem variable_definitions_logger_raises globals e :
  (forall message, log_error message = Raise e) ->
  ~ NoDup (label_of <$> declared globals) ->
  get_variable_definitions label_of (Some globals) = Raise e.
Proof.
  intros Hlog Hdup.
  assert (collect_variables label_of globals = Raise e) as Hrun.
  { revert Hdup.
    induction globals as [|[key value] globals IH] using rev_ind.
    - intros Hdup. exfalso. apply Hdup, NoDup_nil_2.
    - rewrite declared_snoc, collect_variables_snoc.
      destruct value as [var|]; [|rewrite app_nil_r; intros Hdup;
                                  by rewrite (IH Hdup)].
      intros Hdup.
      destruct (decide (NoDup (label_of <$> declared globals)))
        as [Hnodup|Hdup']; [|by rewrite (IH Hdup')].
      rewrite (collect_variables_distinct _ Hnodup).
      cbn [mbind result_bind Py.bind].
      assert (is_Some (ODict.get (label_of var)
                ((fun var => (label_of var, var)) <$> declared globals)))
        as Hin.
      { destruct (ODict.get (label_of var)
                   ((fun var => (label_of var, var)) <$> declared globals))
          eqn:Hget; [by eexists|].
        exfalso. apply Hdup. rewrite fmap_app. apply NoDup_app.
        split; [done|]. split; [|apply NoDup_singleton].
        intros k Hk ->%list_elem_of_singleton.
        apply odict_get_None_keys in Hget. apply Hget.
        change (label_of var ∈ fst <$> ((fun var => (label_of var, var)) <$>
                                         declared globals)).
        by rewrite <- list_fmap_compose. }
      apply odict_mem_get in Hin. rewrite Hin, Hlog. done. }
  unfold get_variable_definitions. by rewrite Hrun.
Qed.

End variable_definitions.

(** A module that declares "x" twice, with the logger of the standard
    module. *)
Lemma variable_definitions_logger_raises_witness :
  (forall message,
     log_error (SystemLog := raising_log) message = Raise AttributeError)
  /\ ~ NoDup (fst <$> declared module_with_duplicate)
  /\ get_variable_definitions (syslog := raising_log) fst
       (Some module_with_duplicate) = Raise AttributeError.
Proof.
  assert (~ NoDup (fst <$> declared module_with_duplicate)) as Hdup.
  { intros [Hx _]%NoDup_cons. apply Hx. by left. }
  split; [done|]. split; [exact Hdup|].
  apply (variable_definitions_logger_raises (syslog := raising_log) fst
           module_with_duplicate AttributeError); [done|exact Hdup].
Defined.

(* ===================================================================== *)
(** ** More on reading a profile *)
(* ===================================================================== *)

Section reading.
Context {acts : Actions}.
Implicit Types (w : World) (self : ref) (item : InputItem) (node : Element).

Lemma parse_bool_cases (value : option string) :
  _parse_bool value = Ok true \/ _parse_bool value = Ok false
  \/ _parse_bool value = Raise ProfileError.
Proof.
  unfold _parse_bool, int_of_attr.
  destruct value as [s|]; [|tauto].
  destruct (int_of_string s) as [z|].
  - case_decide as Hz; [|tauto].
    destruct Hz as [-> | ->]; simpl; tauto.
  - case_decide as Hl; [|tauto]. case_decide; tauto.
Qed.

(** X11: [_parse_bool] raises nothing but ProfileError, reads back the text
    [str] makes of a bool, and of the integers takes 0 and 1 only. *)
Theorem parse_bool_outcomes (value : option string) :
  (_parse_bool value = Ok true \/ _parse_bool value = Ok false
   \/ _parse_bool value = Raise ProfileError)
  /\ _parse_bool None = Raise ProfileError
  /\ (forall b, _parse_bool (Some (string_of_bool b)) = Ok b)
  /\ (forall z,
        _parse_bool (Some (string_of_int z))
        = if decide (z = 0) then Ok false
          else if decide (z = 1) then Ok true
          else Raise ProfileError).
Proof.
  split; [apply parse_bool_cases|].
  split; [done|]. split; [apply parse_bool_of_bool|].
  intros z. unfold _parse_bool, int_of_attr.
  rewrite int_of_string_of_int.
  destruct (decide (z = 0)) as [->|H0]; [done|].
  destruct (decide (z = 1)) as [->|H1]; [done|].
  rewrite decide_False by tauto. done.
Qed.

(** X12: How [InputItem.from_xml] fails on an element of a valid tag: a
    missing id is a TypeError and an id that is no integer a ValueError,
    neither wrapped; a flag that is no bool is a ProfileError, and a key
    without the attribute "extended" is one whatever its flag. *)
Theorem InputItem_from_xml_failures self item node w (t : InputType) :
  heap w !! self = Some item ->
  tag_to_input_type (ElementTree.tag node) = Ok t ->
  (ElementTree.get node "id" = None ->
   InputItem_from_xml self node w = Raise TypeError)
  /\ (forall s, ElementTree.get node "id" = Some s ->
        int_of_string s = None ->
        InputItem_from_xml self node w = Raise ValueError)
  /\ (forall s z flag,
        ElementTree.get node "id" = Some s -> int_of_string s = Some z ->
        ElementTree.get node "always-execute" = Some flag ->
        _parse_bool (Some flag) = Raise ProfileError ->
        InputItem_from_xml self node w = Raise ProfileError)
  /\ (forall s z,
        ElementTree.get node "id" = Some s -> int_of_string s = Some z ->
        t = Keyboard ->
        ElementTree.get node "extended" = None ->
        InputItem_from_xml self node w = Raise ProfileError).
Proof.
  intros Hself Htag.
  rewrite (InputItem_from_xml_run _ _ item) by done.
  unfold InputItem_parsed. rewrite Htag. cbn [mbind result_bind Py.bind].
  split; [|split; [|split]].
  - intros ->. done.
  - intros s -> Hs. unfold int_of_attr. by rewrite Hs.
  - intros s z flag -> Hs Hflag Hbad. unfold int_of_attr. rewrite Hs.
    cbn [mbind result_bind Py.bind].
    assert (ElementTree.get_default node "always-execute" "False" = Some flag)
      as ->.
    { revert Hflag. unfold ElementTree.get, ElementTree.get_default.
      by destruct (ODict.get "always-execute" (ElementTree.attrib node))
        as [[v|]|]. }
    by rewrite Hbad.
  - intros s z -> Hs -> Hext. unfold int_of_attr. rewrite Hs.
    cbn [mbind result_bind Py.bind]. rewrite Hext.
    destruct (_parse_bool
                (ElementTree.get_default node "always-execute" "False"))
      as [ae|e] eqn:Hae.
    + cbn [mbind result_bind Py.bind]. case_decide; done.
    + destruct (parse_bool_cases
                  (ElementTree.get_default node "always-execute" "False"))
        as [H|[H|H]]; rewrite H in Hae; by simplify_eq.
Qed.

(** X13: Whether [Mode.from_xml] succeeds is decided child by child: it does
    exactly when [InputItem.from_xml] would on each child, so one element
    that cannot be read costs the whole mode. *)
Theorem Mode_from_xml_succeeds_iff (m : Mode) node w :
  (exists m' w', Mode_from_xml m node w = Ok (m', w'))
  <-> Forall (fun c => exists item, InputItem_parsed InputItem_init c = Ok item)
        (ElementTree.children node).
Proof.
  rewrite Mode_from_xml_run.
  generalize (Mode_set_name (ElementTree.get node "name") m).
  generalize (length (heap w)).
  induction (ElementTree.children node) as [|c cs IH]; intros next m0.
  - simpl. split; [by constructor | by eauto].
  - cbn [Mode_items]. rewrite Forall_cons.
    destruct (InputItem_parsed InputItem_init c) as [it|e] eqn:Hc;
      cbn [mbind result_bind Py.bind].
    + assert (exists t, input_type it = Some t) as [t Ht].
      { unfold InputItem_parsed in Hc.
        apply result_bind_Ok in Hc as (t & _ & Hc).
        apply result_bind_Ok in Hc as (id & _ & Hc).
        apply result_bind_Ok in Hc as (ae & _ & Hc).
        apply result_bind_Ok in Hc as (iid & _ & Hc).
        apply result_bind_Ok in Hc as (new & _ & [= <-]). by eexists. }
      rewrite Ht. rewrite <- (IH (S next) (Mode_set_item t (input_id it) next m0)).
      destruct (Mode_items _ cs (S next)) as [[m' items]|e];
        cbn [mbind result_bind Py.bind].
      * split; [intros _; split; eauto | eauto].
      * split; [by intros (? & ? & ?) | by intros [_ (? & ? & ?)]].
    + split; [by intros (? & ? & ?) | by intros [(? & ?) _]].
Qed.

Lemma Mode_items_name (m m' : Mode) (cs : list Element) next items :
  Mode_items m cs next = Ok (m', items) -> Mode_name m' = Mode_name m.
Proof.
  revert m next items. induction cs as [|c cs IH]; intros m next items.
  - by intros [= <- _].
  - cbn [Mode_items]. intros Hrun.
    apply result_bind_Ok in Hrun as (it & _ & Hrun).
    destruct (input_type it) as [t|]; [|done].
    apply result_bind_Ok in Hrun as ([m1 items1] & Hrest & [= <- _]).
    by apply IH in Hrest.
Qed.

(** [Device.from_xml], as a value. *)
Lemma Device_from_xml_run (d : Device) node w :
  Device_from_xml d node w
  = match int_of_attr (ElementTree.get node "id") with
    | Raise e => Raise e
    | Ok hid =>
        match int_of_attr (ElementTree.get node "windows_id") with
        | Raise e => Raise e
        | Ok wid =>
            if decide (ElementTree.get node "name" = Some "keyboard")
            then Raise AttributeError
            else
              match Device_modes
                      (Device_set_type DT_Joystick
                         (Device_set_windows_id (Some wid)
                            (Device_set_hardware_id (Some hid)
                               (Device_set_name (ElementTree.get node "name") d))))
                      (ElementTree.children node) (length (heap w)) with
              | Ok (d', items) =>
                  Ok (d', {| heap := heap w ++ items;
                             stdout := stdout w ++ device_warnings node |})
              | Raise e => Raise e
              end
        end
    end.
Proof.
  unfold Device_from_xml. rewrite bind_run, lift_run.
  destruct (int_of_attr (ElementTree.get node "id")) as [hid|e]; [|done].
  rewrite bind_run, lift_run.
  destruct (int_of_attr (ElementTree.get node "windows_id")) as [wid|e]; [|done].
  rewrite bind_run. cbn [Device_name Device_set_windows_id
                         Device_set_hardware_id Device_set_name].
  destruct (decide (ElementTree.get node "name" = Some "keyboard")) as [Hk|Hk].
  - by rewrite bind_run, lift_run.
  - cbn [mret M_ret]. by rewrite Device_from_xml_loop.
Qed.

Lemma Device_modes_fields (d d' : Device) (cs : list Element) next items :
  Device_modes d cs next = Ok (d', items) ->
  Device_name d' = Device_name d /\ hardware_id d' = hardware_id d
  /\ windows_id d' = windows_id d /\ type d' = type d
  /\ forall n,
       is_Some (ODict.get n (modes d'))
       <-> is_Some (ODict.get n (modes d))
           \/ n ∈ (fun c => ElementTree.get c "name") <$> cs.
Proof.
  revert d next items. induction cs as [|c cs IH]; intros d next items.
  - intros [= <- _]. repeat split; try done; [tauto|].
    intros [?|?%elem_of_nil]; done.
  - cbn [Device_modes]. intros Hrun.
    apply result_bind_Ok in Hrun as ([m its] & Hmode & Hrun).
    apply result_bind_Ok in Hrun as ([d1 its1] & Hrest & [= <- _]).
    apply Mode_items_name in Hmode. cbn [Mode_name Mode_set_name] in Hmode.
    apply IH in Hrest as (-> & -> & -> & -> & Hmodes).
    repeat split; try done.
    + intros Hn. apply Hmodes in Hn as [Hn|Hn].
      * cbn [modes Device_set_mode] in Hn.
        destruct (decide (n = Mode_name m)) as [->|Hne].
        -- right. rewrite Hmode, fmap_cons. apply elem_of_cons. by left.
        -- rewrite odict_get_set_ne in Hn by done. by left.
      * right. rewrite fmap_cons. apply elem_of_cons. by right.
    + intros Hn. apply Hmodes. cbn [modes Device_set_mode].
      rewrite fmap_cons, elem_of_cons in Hn.
      destruct (decide (n = Mode_name m)) as [->|Hne].
      * left. rewrite odict_get_set_eq. by eexists.
      * rewrite odict_get_set_ne by done.
        destruct Hn as [Hn|[Hn|Hn]]; [by left| |by right].
        rewrite Hmode in Hne. done.
Qed.

(** X14: A device element named "keyboard" cannot be read: once its two ids
    are read, [Device.from_xml] turns to [self.index] and raises. *)
Theorem keyboard_device_cannot_be_read (d : Device) node w hid wid :
  ElementTree.get node "name" = Some "keyboard" ->
  int_of_attr (ElementTree.get node "id") = Ok hid ->
  int_of_attr (ElementTree.get node "windows_id") = Ok wid ->
  Device_from_xml d node w = Raise AttributeError.
Proof.
  intros Hname Hid Hwid. rewrite Device_from_xml_run, Hid, Hwid.
  by rewrite decide_True.
Qed.

(** X15: What [Device.from_xml] returns is a joystick: the type is Joystick,
    the name is the attribute and is not "keyboard", the two ids are the
    integers of the attributes, and the modes are those the device had
    together with one for each child element, under its name. *)
Theorem Device_from_xml_result (d d' : Device) node w w' :
  Device_from_xml d node w = Ok (d', w') ->
  type d' = Some DT_Joystick
  /\ Device_name d' = ElementTree.get node "name"
  /\ Device_name d' <> Some "keyboard"
  /\ (exists hid, hardware_id d' = Some hid
        /\ int_of_attr (ElementTree.get node "id") = Ok hid)
  /\ (exists wid, windows_id d' = Some wid
        /\ int_of_attr (ElementTree.get node "windows_id") = Ok wid)
  /\ forall n,
       is_Some (ODict.get n (modes d'))
       <-> is_Some (ODict.get n (modes d))
           \/ n ∈ (fun c => ElementTree.get c "name")
                    <$> ElementTree.children node.
Proof.
  rewrite Device_from_xml_run. intros Hrun.
  destruct (int_of_attr (ElementTree.get node "id")) as [hid|e]; [|done].
  destruct (int_of_attr (ElementTree.get node "windows_id")) as [wid|e];
    [|done].
  destruct (decide (ElementTree.get node "name" = Some "keyboard"))
    as [Hk|Hk]; [done|].
  destruct (Device_modes _ _ _) as [[d1 items]|e] eqn:Hmodes; [|done].
  injection Hrun as <- _.
  apply Device_modes_fields in Hmodes as (-> & -> & -> & -> & Hmodes).
  repeat split; try done; try (by eexists).
  - by apply Hmodes.
  - by apply Hmodes.
Qed.

End reading.

(** A key element without the attribute "extended", read into a new
    item. *)
Lemma InputItem_from_xml_failures_witness :
  heap (one_item_world (acts := element_actions)) !! 0%nat = Some InputItem_init
  /\ tag_to_input_type (ElementTree.tag key_without_extended) = Ok Keyboard
  /\ InputItem_from_xml (acts := element_actions) 0%nat key_without_extended
       one_item_world
     = Raise ProfileError.
Proof.
  split; [reflexivity|]. split; [reflexivity|].
  destruct (InputItem_from_xml_failures (acts := element_actions) 0%nat
              InputItem_init key_without_extended one_item_world Keyboard
              eq_refl eq_refl) as (_ & _ & _ & Hkey).
  by apply (Hkey "30" 30).
Defined.

(** A device element named "keyboard", with the ids 0 and 0. *)
Lemma keyboard_device_cannot_be_read_witness :
  ElementTree.get keyboard_element "name" = Some "keyboard"
  /\ int_of_attr (ElementTree.get keyboard_element "id") = Ok 0
  /\ int_of_attr (ElementTree.get keyboard_element "windows_id") = Ok 0
  /\ Device_from_xml (acts := element_actions) Device_init keyboard_element
       empty_world
     = Raise AttributeError.
Proof.
  split; [reflexivity|]. split; [reflexivity|]. split; [reflexivity|].
  apply (keyboard_device_cannot_be_read (acts := element_actions) Device_init
           keyboard_element empty_world 0 0); reflexivity.
Defined.

(** The device element of the stick, read into a new device. *)
Lemma Device_from_xml_result_witness :
  Device_from_xml (acts := element_actions) Device_init stick_element
    empty_world = Ok (stick_device, empty_world)
  /\ type stick_device = Some DT_Joystick
  /\ Device_name stick_device
     = ElementTree.get stick_element "name"
  /\ Device_name stick_device <> Some "keyboard".
Proof.
  split; [reflexivity|].
  destruct (Device_from_xml_result (acts := element_actions) Device_init
              stick_device stick_element empty_world empty_world eq_refl)
    as (Hty & Hname & Hkey & _).
  split; [exact Hty|]. split; [exact Hname|exact Hkey].
Defined.

Section mode_data.
Context {acts : Actions}.
Implicit Types (m : Mode) (t : InputType) (i : InputId) (w : World).

Lemma odict_get_remove_eq {K V} `{EqDecision K} (k : K) (d : dict K V) :
  ODict.get k (ODict.remove k d) = None.
Proof.
  induction d as [|[k' v] d IH]; [done|]. cbn [ODict.remove].
  destruct (decide (k = k')) as [->|Hne]; [done|].
  cbn [ODict.get]. by rewrite decide_False.
Qed.

Lemma odict_get_remove_ne {K V} `{EqDecision K} (k k' : K) (d : dict K V) :
  k' <> k -> ODict.get k' (ODict.remove k d) = ODict.get k' d.
Proof.
  intros Hne. induction d as [|[k0 v] d IH]; [done|]. cbn [ODict.remove].
  destruct (decide (k = k0)) as [->|Hk].
  - cbn [ODict.get]. by rewrite decide_False.
  - cbn [ODict.get]. by rewrite IH.
Qed.

Lemma config_get_replace_eq (c : Config) t items :
  config_get (config_replace c t items) t = items.
Proof. by destruct t. Qed.

Lemma config_get_replace_ne (c : Config) t t' items :
  t' <> t -> config_get (config_replace c t items) t' = config_get c t'.
Proof. by destruct t, t'. Qed.

(** X16: [set_data] stores the item it is given: [get_data] on that slot
    returns it without creating anything, whatever the slot held, and no
    other slot reads differently. *)
Theorem set_data_then_get_data m t i (data : ref) w :
  Mode_get_data (Mode_set_data m t i data) t i w
  = Ok ((Mode_set_data m t i data, data), w)
  /\ Mode_name (Mode_set_data m t i data) = Mode_name m
  /\ forall t' i', (t', i') <> (t, i) ->
       ODict.get i' (config_get (_config (Mode_set_data m t i data)) t')
       = ODict.get i' (config_get (_config m) t').
Proof.
  split; [|split; [done|]].
  - apply get_data_present. apply config_get_set_eq.
  - intros t' i' Hne. by apply config_get_set_ne.
Qed.

(** X17: [delete_data] on an empty slot raises KeyError.  On a filled slot it
    empties that slot and no other; a second deletion raises, and
    [get_data] then makes a new empty item for the slot, not the one
    deleted. *)
Theorem delete_data_outcomes m t i :
  match ODict.get i (config_get (_config m) t) with
  | None => Mode_delete_data m t i = Raise KeyError
  | Some _ =>
      exists m',
        Mode_delete_data m t i = Ok m'
        /\ Mode_name m' = Mode_name m
        /\ ODict.get i (config_get (_config m') t) = None
        /\ (forall t' i', (t', i') <> (t, i) ->
              ODict.get i' (config_get (_config m') t')
              = ODict.get i' (config_get (_config m) t'))
        /\ Mode_delete_data m' t i = Raise KeyError
        /\ forall w,
             Mode_get_data m' t i w
             = Ok ((Mode_set_data m' t i (length (heap w)), length (heap w)),
                   {| heap := heap w ++
                              [{| input_type := Some t; input_id := i;
                                  always_execute := false; actions := [] |}];
                      stdout := stdout w |})
  end.
Proof.
  destruct (ODict.get i (config_get (_config m) t)) as [item|] eqn:Hslot.
  - unfold Mode_delete_data at 1, ODict.mem. rewrite Hslot.
    eexists. split; [done|]. cbn [Mode_name _config].
    assert (ODict.get i
              (config_get
                 (config_replace (_config m) t
                    (ODict.remove i (config_get (_config m) t))) t) = None)
      as Hgone by (by rewrite config_get_replace_eq, odict_get_remove_eq).
    split; [done|]. split; [done|]. split; [|split].
    + intros t' i' Hne. destruct (decide (t' = t)) as [->|Ht].
      * rewrite config_get_replace_eq. apply odict_get_remove_ne. congruence.
      * by rewrite config_get_replace_ne.
    + unfold Mode_delete_data, ODict.mem. cbn [_config]. by rewrite Hgone.
    + intros w. by apply get_data_absent.
  - unfold Mode_delete_data, ODict.mem. by rewrite Hslot.
Qed.

End mode_data.

Section saving.
Context {acts : Actions}.
Implicit Types (w : World) (d : Device) (m : Mode) (p : Profile).

Lemma append_loop_Raise {A} (f : A -> result Element) (l : list A) e :
  foldl (fun acc x =>
           node ← acc; child ← f x; Ok (ElementTree.append node child))
        (Raise e) l = Raise e.
Proof. induction l as [|a l IH]; cbn [foldl]; [done|]. exact IH. Qed.

(** A loop that appends one child per entry returns the node it started
    from with the children made for the entries, in their order. *)
Lemma append_loop_inv {A} (f : A -> result Element) (l : list A)
    (node0 node : Element) :
  foldl (fun acc x =>
           node ← acc; child ← f x; Ok (ElementTree.append node child))
        (Ok node0) l = Ok node ->
  exists cs,
    Forall2 (fun x c => f x = Ok c) l cs
    /\ node = ElementTree.Node (ElementTree.tag node0)
                (ElementTree.attrib node0) (ElementTree.children node0 ++ cs).
Proof.
  revert node0. induction l as [|a l IH]; intros node0; cbn [foldl].
  - intros [= <-]. exists []. split; [constructor|].
    rewrite app_nil_r. by destruct node0.
  - cbn [mbind result_bind Py.bind].
    destruct (f a) as [child|e] eqn:Hfa; cbn [mbind result_bind Py.bind].
    + intros Hl. apply IH in Hl as (cs & Hcs & ->).
      exists (child :: cs). split; [by constructor|].
      destruct node0 as [t a0 cs0]. simpl. by rewrite <- app_assoc.
    + by rewrite append_loop_Raise.
Qed.

Lemma serialisable_node t a (cs : list Element) :
  ElementTree.serialisable (ElementTree.Node t a cs) = true
  <-> Forall (fun kv : string * option string => is_Some (snd kv)) a
      /\ Forall (fun c => ElementTree.serialisable c = true) cs.
Proof.
  cbn [ElementTree.serialisable]. rewrite andb_true_iff.
  assert (forall P P' Q Q' : Prop, (P <-> P') -> (Q <-> Q') -> (P /\ Q <-> P' /\ Q'))
    as Hboth by tauto.
  apply Hboth; clear Hboth.
  - induction a as [|[k [v|]] a IH]; cbn [forallb snd].
    + split; [constructor|done].
    + rewrite andb_true_l, IH. split.
      * intros Ha. constructor; [by eexists|done].
      * by intros [_ Ha]%Forall_cons.
    + rewrite andb_false_l. split; [done|].
      intros [[? [=]] _]%Forall_cons.
  - induction cs as [|c cs IH].
    + split; [constructor|done].
    + rewrite andb_true_iff, IH. split.
      * intros [Hc Hcs]. by constructor.
      * by intros [Hc Hcs]%Forall_cons.
Qed.

Lemma written_entries {A} (f : A -> result Element) (l : list A)
    (cs : list Element) (P : Element -> Prop) (Q : A -> Prop) :
  Forall2 (fun x c => f x = Ok c) l cs ->
  Forall P cs ->
  (forall x c, f x = Ok c -> P c -> Q x) ->
  Forall Q l.
Proof.
  intros Hl Hcs HPQ. induction Hl as [|x c l cs Hx _ IH]; [constructor|].
  apply Forall_cons in Hcs as [Hc Hcs]. constructor; [by eapply HPQ|by apply IH].
Qed.

Lemma foldl_ext_all {A B} (g g' : B -> A -> B) (l : list A) (b : B) :
  (forall acc x, g acc x = g' acc x) -> foldl g b l = foldl g' b l.
Proof.
  intros Hg. revert b. induction l as [|a l IH]; intros b; cbn [foldl]; [done|].
  by rewrite Hg, IH.
Qed.

(** [Mode.to_xml] appends one element per item, by input type and then in
    the order of the slots. *)
Lemma Mode_to_xml_loop w m :
  Mode_to_xml w m
  = foldl (fun acc item =>
             node ← acc; child ← item_to_xml_at w item;
             Ok (ElementTree.append node child))
          (Ok (ElementTree.set (ElementTree.new "mode") "name" (Mode_name m)))
          (concat (map (fun t => ODict.values (config_get (_config m) t))
                       [JoystickAxis; JoystickButton; JoystickHat; Keyboard])).
Proof.
  unfold Mode_to_xml. apply foldl_ext_all. intros [node|e] item; [|done].
  unfold item_to_xml_at. cbn [mbind result_bind Py.bind].
  by destruct (heap w !! item).
Qed.

(** The element [Mode.to_xml] returns carries the name of the mode. *)
Lemma Mode_to_xml_name w m node :
  Mode_to_xml w m = Ok node ->
  ElementTree.attrib node = [("name", Mode_name m)].
Proof.
  rewrite Mode_to_xml_loop. intros Hx.
  by apply append_loop_inv in Hx as (cs & _ & ->).
Qed.

(** The element [Device.to_xml] returns. *)
Lemma Device_to_xml_node w d node :
  Device_to_xml w d = Ok node ->
  exists cs,
    Forall2 (fun m c => Mode_to_xml w m = Ok c) (ODict.values (modes d)) cs
    /\ node = ElementTree.Node "device"
                [("name", Device_name d);
                 ("id", Some (string_of_id (hardware_id d)));
                 ("windows_id", Some (string_of_id (windows_id d)))] cs.
Proof.
  unfold Device_to_xml. intros Hx.
  apply append_loop_inv in Hx as (cs & Hcs & ->). by exists cs.
Qed.

(** The loop over the imports of [Profile.to_xml]. *)
Lemma import_loop (l : list (option string)) (node0 : Element) :
  foldl (fun import_node entry =>
           let node := ElementTree.new "module" in
           let node := ElementTree.set node "name" entry in
           ElementTree.append import_node node)
        node0 l
  = ElementTree.Node (ElementTree.tag node0) (ElementTree.attrib node0)
      (ElementTree.children node0
         ++ map (fun entry => ElementTree.Node "module" [("name", entry)] []) l).
Proof.
  revert node0. induction l as [|e l IH]; intros node0; cbn [foldl map].
  - rewrite app_nil_r. by destruct node0.
  - rewrite IH. destruct node0 as [t a cs]. simpl. by rewrite <- app_assoc.
Qed.

(** The document [Profile.to_xml] writes. *)
Lemma Profile_to_xml_document w p root :
  Profile_to_xml w p = Ok root ->
  ElementTree.serialisable root = true
  /\ exists cs,
       Forall2 (fun d c => Device_to_xml w d = Ok c)
         (ODict.values (devices p)) cs
       /\ root = ElementTree.Node "devices" [("version", Some "1")]
                   (cs ++ [ElementTree.Node "import" []
                             (map (fun entry =>
                                     ElementTree.Node "module"
                                       [("name", entry)] [])
                                  (imports p))]).
Proof.
  unfold Profile_to_xml. intros Hx.
  apply result_bind_Ok in Hx as (root1 & Hloop & Hx).
  unfold ElementTree.tostring in Hx.
  destruct (ElementTree.serialisable _) eqn:Hs; [|done].
  injection Hx as <-. split; [done|].
  apply append_loop_inv in Hloop as (cs & Hcs & ->).
  exists cs. split; [done|]. by rewrite import_loop.
Qed.

(** X18: [Profile.to_xml] writes text only: when it returns, every device and
    every mode of the profile has a name and no import entry is None.  A
    name that is None is never written out; serialising raises instead. *)
Theorem Profile_to_xml_writes_text_only w p root :
  Profile_to_xml w p = Ok root ->
  Forall (fun d =>
            is_Some (Device_name d)
            /\ Forall (fun m => is_Some (Mode_name m))
                 (ODict.values (modes d)))
         (ODict.values (devices p))
  /\ Forall is_Some (imports p).
Proof.
  intros Hx. apply Profile_to_xml_document in Hx as (Hs & cs & Hcs & ->).
  apply serialisable_node in Hs as [_ Hs].
  apply Forall_app in Hs as [Hdevs Himp]. split.
  - eapply written_entries; [exact Hcs|exact Hdevs|].
    intros d c Hd Hc. cbv beta in Hc.
    apply Device_to_xml_node in Hd as (ms & Hms & ->).
    apply serialisable_node in Hc as [Hattr Hmodes]. split.
    + by apply Forall_cons in Hattr as [Hname _].
    + eapply written_entries; [exact Hms|exact Hmodes|].
      intros m c Hm Hc. cbv beta in Hc.
      apply Mode_to_xml_name in Hm. destruct c as [t a cc].
      cbn [ElementTree.attrib] in Hm. subst a.
      apply serialisable_node in Hc as [Hma _].
      by apply Forall_cons in Hma as [Hname _].
  - apply Forall_cons in Himp as [Himp _].
    apply serialisable_node in Himp as [_ Himp].
    apply Forall_map in Himp. eapply Forall_impl; [exact Himp|].
    intros e He. cbv beta in He. apply serialisable_node in He as [He _].
    by apply Forall_cons in He as [He _].
Qed.

End saving.

(** The profile with the one joystick, saved. *)
Lemma Profile_to_xml_writes_text_only_witness :
  Profile_to_xml (acts := element_actions) empty_world stick_profile
  = Ok stick_document
  /\ Forall (fun d =>
               is_Some (Device_name d)
               /\ Forall (fun m => is_Some (Mode_name m))
                    (ODict.values (modes d)))
            (ODict.values (devices stick_profile))
  /\ Forall is_Some (imports stick_profile).
Proof.
  split; [reflexivity|].
  apply (Profile_to_xml_writes_text_only (acts := element_actions) empty_world
           stick_profile stick_document).
  reflexivity.
Defined.

Section device_lookup.
Context {acts : Actions}.
Implicit Types (self : Profile) (d : Device) (w : World).

(** X19: [get_device_modes] always returns, and returns the entry of the id.
    An existing entry is returned as it is and the profile is unchanged.
    For an unknown id a device is added after the others: it has the given
    name and id, no [windows_id], the type Keyboard exactly when the name
    is "keyboard", and the empty mode "global" only.  No other entry and no
    import changes, and asking again, under any name, returns the same
    device and changes nothing. *)
Theorem get_device_modes_outcome self (hardware_id' : Z)
    (device_name : option string) :
  exists p' d,
    Profile_get_device_modes self hardware_id' device_name = Ok (p', d)
    /\ ODict.get hardware_id' (devices p') = Some d
    /\ (forall name', Profile_get_device_modes p' hardware_id' name' = Ok (p', d))
    /\ (forall k, k <> hardware_id' ->
          ODict.get k (devices p') = ODict.get k (devices self))
    /\ imports p' = imports self
    /\ match ODict.get hardware_id' (devices self) with
       | Some d0 => d = d0 /\ p' = self
       | None =>
           devices p' = devices self ++ [(hardware_id', d)]
           /\ d = {| Device_name := device_name;
                     hardware_id := Some hardware_id';
                     windows_id := None;
                     modes := [(Some "global",
                                {| Mode_name := Some "global";
                                   _config := _config Mode_init |})];
                     type := Some (if decide (device_name = Some "keyboard")
                                   then DT_Keyboard else DT_Joystick) |}
       end.
Proof.
  assert (forall p d, ODict.get hardware_id' (devices p) = Some d ->
            forall name', Profile_get_device_modes p hardware_id' name'
                          = Ok (p, d)) as Hknown.
  { intros p d Hd name'. unfold Profile_get_device_modes, ODict.mem.
    rewrite Hd. cbn [negb]. by rewrite Hd. }
  destruct (ODict.get hardware_id' (devices self)) as [d0|] eqn:Hd.
  - exists self, d0. rewrite (Hknown _ _ Hd). repeat split; try done.
    by apply Hknown.
  - unfold Profile_get_device_modes at 1, ODict.mem. rewrite Hd. cbn [negb].
    cbn [devices Profile_set_device]. rewrite odict_get_set_eq.
    eexists _, _. split; [done|]. cbn [devices imports].
    split; [by apply odict_get_set_eq|].
    split; [apply Hknown; by apply odict_get_set_eq|].
    split; [intros k Hk; by apply odict_get_set_ne|].
    split; [done|]. split; [by apply odict_set_absent|].
    by destruct (decide (device_name = Some "keyboard")).
Qed.

(** X20: A device that [get_device_modes] made is written with the text "None"
    for its [windows_id], which [Device.from_xml] cannot read: it raises
    ValueError on the element [Device.to_xml] returns for that device. *)
Theorem device_made_on_demand_is_not_read_back self (hardware_id' : Z)
    (device_name : option string) p' d w :
  ODict.get hardware_id' (devices self) = None ->
  Profile_get_device_modes self hardware_id' device_name = Ok (p', d) ->
  exists node,
    Device_to_xml w d = Ok node
    /\ ElementTree.get node "id" = Some (string_of_int hardware_id')
    /\ ElementTree.get node "windows_id" = Some "None"
    /\ forall d0 w', Device_from_xml d0 node w' = Raise ValueError.
Proof.
  intros Hd. unfold Profile_get_device_modes, ODict.mem. rewrite Hd.
  cbn [negb devices Profile_set_device]. rewrite odict_get_set_eq.
  intros [= _ <-].
  exists (ElementTree.Node "device"
            [("name", device_name);
             ("id", Some (string_of_int hardware_id'));
             ("windows_id", Some "None")]
            [ElementTree.Node "mode" [("name", Some "global")] []]).
  split; [by destruct (decide (device_name = Some "keyboard"))|].
  split; [done|]. split; [done|].
  intros d0 w'. rewrite Device_from_xml_run.
  change (ElementTree.get _ "id") with (Some (string_of_int hardware_id')).
  change (ElementTree.get _ "windows_id") with (Some "None").
  unfold int_of_attr at 1. by rewrite int_of_string_of_int.
Qed.

End device_lookup.

(** The pedals, asked for in a new profile. *)
Lemma device_made_on_demand_is_not_read_back_witness :
  ODict.get 7 (devices Profile_init) = None
  /\ Profile_get_device_modes Profile_init 7
       (Some "Pedals")
     = Ok ({| devices := [(7, pedals)]; imports := [] |}, pedals)
  /\ exists node,
       Device_to_xml (acts := element_actions) empty_world pedals = Ok node
       /\ ElementTree.get node "id" = Some (string_of_int 7)
       /\ ElementTree.get node "windows_id" = Some "None"
       /\ forall d0 w', Device_from_xml d0 node w' = Raise ValueError.
Proof.
  split; [reflexivity|]. split; [reflexivity|].
  apply (device_made_on_demand_is_not_read_back (acts := element_actions)
           Profile_init 7 (Some "Pedals")
           {| devices := [(7, pedals)]; imports := [] |} pedals empty_world);
    reflexivity.
Defined.

Section loading.
Context {acts : Actions} {util : Util}.
Implicit Types (self p : Profile) (root : Element) (w : World).

Lemma iter_node (t t' : string) a (cs : list Element) :
  ElementTree.iter t (ElementTree.Node t' a cs)
  = (if decide (t' = t) then [ElementTree.Node t' a cs] else [])
      ++ concat (map (ElementTree.iter t) cs).
Proof.
  cbn [ElementTree.iter]. f_equal.
  induction cs as [|c cs IH]; [done|]. cbn [map concat]. by rewrite IH.
Qed.

Lemma reconcile_device_imports self dev :
  imports (reconcile_device self dev) = imports self.
Proof.
  unfold reconcile_device.
  by destruct (negb (is_virtual dev)
               && negb (ODict.mem (dev_device_id dev) (devices self))).
Qed.

Lemma reconcile_imports self : imports (reconcile self) = imports self.
Proof.
  unfold reconcile. generalize joystick_devices. intros l. revert self.
  induction l as [|dev l IH]; intros self; cbn [foldl]; [done|].
  by rewrite IH, reconcile_device_imports.
Qed.

Lemma import_entries_loop self (l : list Element) :
  foldl (fun self entry =>
           Profile_append_import (ElementTree.get entry "name") self)
        self l
  = {| devices := devices self;
       imports := imports self
                  ++ map (fun entry => ElementTree.get entry "name") l |}.
Proof.
  revert self. induction l as [|e l IH]; intros self; cbn [foldl map].
  - rewrite app_nil_r. by destruct self.
  - rewrite IH. cbn [devices imports Profile_append_import].
    by rewrite <- app_assoc.
Qed.

Lemma imports_loop self (l : list Element) :
  foldl (fun self child =>
           foldl (fun self entry =>
                    Profile_append_import (ElementTree.get entry "name") self)
                 self (ElementTree.children child))
        self l
  = {| devices := devices self;
       imports := imports self
                  ++ concat (map (fun child =>
                                    map (fun entry =>
                                           ElementTree.get entry "name")
                                        (ElementTree.children child)) l) |}.
Proof.
  revert self. induction l as [|c l IH]; intros self; cbn [foldl map concat].
  - rewrite app_nil_r. by destruct self.
  - rewrite IH, import_entries_loop. cbn [devices imports].
    by rewrite <- app_assoc.
Qed.

(** [Profile.from_xml] on a document without device elements. *)
Lemma Profile_from_xml_no_device self root w :
  ElementTree.iter "device" root = [] ->
  Profile_from_xml self root w
  = Ok ({| devices := devices (reconcile self);
           imports := imports self ++ imported root |}, w).
Proof.
  intros Hnone. unfold Profile_from_xml. rewrite Hnone, bind_run.
  cbn [for_each mret M_ret]. rewrite imports_loop.
  by rewrite reconcile_imports.
Qed.

(** X21: [Profile.from_xml] returns exactly on the documents without a device
    element.  It then prints nothing and creates no item, the devices are
    those the profile had together with the attached ones, and the names of
    the entries of the import elements are appended to the imports the
    profile had: loading a second document adds to them. *)
Theorem Profile_from_xml_outcome self root w :
  match ElementTree.iter "device" root with
  | [] =>
      Profile_from_xml self root w
      = Ok ({| devices := devices (reconcile self);
               imports := imports self ++ imported root |}, w)
  | _ :: _ => exists e, Profile_from_xml self root w = Raise e
  end.
Proof.
  destruct (ElementTree.iter "device" root) as [|c cs] eqn:Hdev.
  - by apply Profile_from_xml_no_device.
  - apply from_xml_raises_on_device. by rewrite Hdev.
Qed.

(** X22: A profile without devices: [to_xml] raises TypeError when an
    import entry is None.  When every entry is printable text it returns,
    and [from_xml] reads the document back as the imports that were saved,
    after those the loading profile had, and makes the entries of the
    attached devices. *)
Theorem profile_without_devices_round_trip self p w w' :
  devices p = [] ->
  (Forall plain_name (imports p) ->
   exists root,
     Profile_to_xml w p = Ok root
     /\ Profile_from_xml self root w'
        = Ok ({| devices := devices (reconcile self);
                 imports := imports self ++ imports p |}, w'))
  /\ (~ Forall is_Some (imports p) -> Profile_to_xml w p = Raise TypeError).
Proof.
  intros Hnone.
  assert (forall l : list (option string),
            concat (map (ElementTree.iter "device")
                      (map (fun entry =>
                              ElementTree.Node "module" [("name", entry)] [])
                           l)) = []) as Hd.
  { induction l as [|e l IH]; [done|]. cbn [map concat]. by rewrite IH. }
  assert (forall l : list (option string),
            concat (map (ElementTree.iter "import")
                      (map (fun entry =>
                              ElementTree.Node "module" [("name", entry)] [])
                           l)) = []) as Hi.
  { induction l as [|e l IH]; [done|]. cbn [map concat]. by rewrite IH. }
  assert (forall l : list (option string),
            map (fun entry => ElementTree.get entry "name")
              (map (fun entry =>
                      ElementTree.Node "module" [("name", entry)] []) l) = l)
    as Hn.
  { induction l as [|e l IH]; [done|]. cbn [map]. by rewrite IH. }
  assert (Profile_to_xml w p
          = ElementTree.tostring
              (ElementTree.Node "devices" [("version", Some "1")]
                 [ElementTree.Node "import" []
                    (map (fun entry =>
                            ElementTree.Node "module" [("name", entry)] [])
                         (imports p))])) as Hx.
  { unfold Profile_to_xml. rewrite Hnone. cbn [ODict.values map foldl].
    cbn [mbind result_bind Py.bind]. by rewrite import_loop. }
  rewrite Hx. unfold ElementTree.tostring.
  destruct (ElementTree.serialisable _) eqn:Hs.
  - split; [|intros Hbad; exfalso; apply Hbad].
    + intros _. eexists. split; [done|].
      rewrite Profile_from_xml_no_device.
      * unfold imported. rewrite !iter_node.
        rewrite decide_False by done. cbn [map concat app].
        rewrite iter_node, decide_True by done. rewrite Hi.
        cbn [app map concat ElementTree.children]. by rewrite Hn, !app_nil_r.
      * rewrite !iter_node. rewrite decide_False by done.
        cbn [map concat app]. rewrite iter_node, decide_False by done.
        by rewrite Hd.
    + apply serialisable_node in Hs as [_ Hs].
      apply Forall_cons in Hs as [Hs _].
      apply serialisable_node in Hs as [_ Hs].
      apply Forall_map in Hs. eapply Forall_impl; [exact Hs|].
      intros e He. cbv beta in He. apply serialisable_node in He as [He _].
      by apply Forall_cons in He as [He _].
  - split; [|done]. intros Hall. exfalso.
    assert (ElementTree.serialisable
              (ElementTree.Node "devices" [("version", Some "1")]
                 [ElementTree.Node "import" []
                    (map (fun entry =>
                            ElementTree.Node "module" [("name", entry)] [])
                         (imports p))]) = true) as Hok; [|congruence].
    apply serialisable_node. split; [by repeat constructor; eexists|].
    constructor; [|constructor].
    apply serialisable_node. split; [constructor|].
    apply Forall_map. eapply Forall_impl; [exact Hall|].
    intros e (name & -> & _). cbv beta. apply serialisable_node.
    split; [|constructor]. by constructor.
Qed.

End loading.

(** A profile that imports one module, saved and loaded on the machine
    with one joystick. *)
Lemma profile_without_devices_round_trip_witness :
  devices plugin_profile = []
  /\ exists root,
       Profile_to_xml empty_world plugin_profile = Ok root
       /\ Profile_from_xml (util := one_joystick) Profile_init root empty_world
          = Ok ({| devices := devices stick_profile;
                   imports := [Some "plugin.py"] |}, empty_world).
Proof.
  split; [reflexivity|].
  destruct (profile_without_devices_round_trip (acts := element_actions)
              (util := one_joystick) Profile_init plugin_profile
              empty_world empty_world eq_refl) as [Hok _].
  apply Hok. repeat constructor. by exists "plugin.py".
Defined.

Section written_items.
Context {acts : Actions}.
Implicit Types (w : World) (self : ref) (item : InputItem) (node : Element).

(** The children of the element [InputItem.to_xml] returns are the
    elements of the actions. *)
Lemma InputItem_to_xml_children item node :
  InputItem_to_xml item = Ok node ->
  Forall2 (fun a c => action_to_xml a = Ok c) (actions item)
    (ElementTree.children node).
Proof.
  unfold InputItem_to_xml. intros Hx.
  apply result_bind_Ok in Hx as (tag & _ & Hx).
  apply result_bind_Ok in Hx as (node1 & Hnode1 & Hx).
  apply append_loop_inv in Hx as (cs & Hcs & ->).
  cbn [ElementTree.children].
  assert (ElementTree.children node1 = []) as Hnone.
  { destruct (decide (input_type item = Some Keyboard)).
    - destruct (input_id item); try done. by injection Hnode1 as <-.
    - by injection Hnode1 as <-. }
  destruct (always_execute item); rewrite ?children_set, Hnone; done.
Qed.

Lemma written_actions_known (l : list Action) (cs : list Element) :
  Forall action_round_trips l ->
  Forall2 (fun a c => action_to_xml a = Ok c) l cs ->
  Forall (fun c => known c = true) cs.
Proof.
  intros Hl Hcs. induction Hcs as [|a c l cs Ha _ IH]; [constructor|].
  apply Forall_cons in Hl as [(child & Hto & Hknown & _) Hl].
  constructor; [|by apply IH]. congruence.
Qed.

Lemma item_warnings_known node :
  Forall (fun c => known c = true) (ElementTree.children node) ->
  item_warnings node = [].
Proof.
  unfold item_warnings. generalize (ElementTree.children node). intros cs.
  induction 1 as [|c cs Hc _ IH]; [done|]. cbn [List.filter].
  by rewrite Hc.
Qed.

(** X23: An item written by [to_xml] and read by [from_xml] into a new item is
    the item again: for a well-formed item whose actions read back what
    they write, [to_xml] returns an element on which [from_xml] fills a new
    item with the type, the id, the flag and the actions of the one
    written, and prints nothing. *)
Theorem InputItem_to_xml_then_from_xml item self w :
  well_formed_item item ->
  Forall action_round_trips (actions item) ->
  heap w !! self = Some InputItem_init ->
  exists node,
    InputItem_to_xml item = Ok node
    /\ InputItem_from_xml self node w
       = Ok (tt, {| heap := <[self := item]> (heap w); stdout := stdout w |}).
Proof.
  intros Hwf Hacts Hself.
  destruct (InputItem_round_trip item Hwf Hacts) as (node & Hto & Hfrom).
  exists node. split; [done|].
  rewrite (InputItem_from_xml_run _ _ InputItem_init) by done.
  rewrite Hfrom, item_warnings_known, app_nil_r; [done|].
  eapply written_actions_known; [exact Hacts|].
  by apply InputItem_to_xml_children.
Qed.

End written_items.

(** A key with one action, written and read into a new item. *)
Lemma InputItem_to_xml_then_from_xml_witness :
  well_formed_item key_item
  /\ Forall action_round_trips (actions key_item)
  /\ heap one_item_world !! 0%nat = Some InputItem_init
  /\ exists node,
       InputItem_to_xml key_item = Ok node
       /\ InputItem_from_xml 0%nat node one_item_world
          = Ok (tt, {| heap := [key_item]; stdout := [] |}).
Proof.
  assert (Forall (action_round_trips (acts := element_actions))
            (actions key_item)) as Hacts.
  { repeat constructor. by eexists. }
  split; [exact I|]. split; [exact Hacts|]. split; [reflexivity|].
  apply (InputItem_to_xml_then_from_xml (acts := element_actions) key_item
           0%nat one_item_world); [exact I|exact Hacts|reflexivity].
Defined.

Section written_modes.
Context {acts : Actions}.
Implicit Types (w : World) (m : Mode) (t : InputType) (item : InputItem)
  (h : list InputItem) (d : dict InputId ref).

Lemma items_of_cons h (e : InputType * (InputId * ref)) es item :
  h !! e.2.2 = Some item -> items_of h (e :: es) = item :: items_of h es.
Proof. intros Hitem. unfold items_of. simpl. by rewrite Hitem. Qed.

Lemma items_of_app h (es es' : list (InputType * (InputId * ref))) :
  items_of h (es ++ es') = items_of h es ++ items_of h es'.
Proof. apply omap_app. Qed.

Lemma append_loop_Ok {A} (f : A -> result Element) (l : list A)
    (cs : list Element) (node0 : Element) :
  Forall2 (fun x c => f x = Ok c) l cs ->
  foldl (fun acc x =>
           node ← acc; child ← f x; Ok (ElementTree.append node child))
        (Ok node0) l
  = Ok (ElementTree.Node (ElementTree.tag node0) (ElementTree.attrib node0)
          (ElementTree.children node0 ++ cs)).
Proof.
  intros Hl. revert node0.
  induction Hl as [|x c l cs Hx _ IH]; intros node0; cbn [foldl].
  - rewrite app_nil_r. by destruct node0.
  - cbn [mbind result_bind Py.bind]. rewrite Hx.
    cbn [mbind result_bind Py.bind]. rewrite IH.
    destruct node0 as [t0 a0 cs0]. simpl. by rewrite <- app_assoc.
Qed.

Lemma slot_reads_as h t kv :
  slot_consistent h t kv -> exists c, reads_as h (t, kv) c.
Proof.
  intros (item & Hitem & Hty & Hid & Hwf & Hacts).
  destruct (InputItem_round_trip item Hwf Hacts) as (c & Hto & Hfrom).
  exists c, item. repeat split; try done.
  apply item_warnings_known.
  eapply written_actions_known; [exact Hacts|].
  by apply InputItem_to_xml_children.
Qed.

Lemma slots_read_as h t d :
  Forall (slot_consistent h t) d ->
  exists cs, Forall2 (reads_as h) (map (pair t) d) cs.
Proof.
  induction 1 as [|kv d Hkv _ (cs & Hcs)]; [by exists []|].
  apply slot_reads_as in Hkv as (c & Hc).
  exists (c :: cs). by constructor.
Qed.

(** The loop of [Mode.from_xml] on the elements of a list of slots. *)
Lemma Mode_items_read h (es : list (InputType * (InputId * ref)))
    (cs : list Element) :
  Forall2 (reads_as h) es cs ->
  forall m0 next, exists m',
    Mode_items m0 cs next = Ok (m', items_of h es).
Proof.
  induction 1 as [|e c es cs (item & Hitem & Hty & Hid & _ & Hfrom & _) _ IH];
    intros m0 next.
  - by exists m0.
  - cbn [Mode_items]. rewrite Hfrom. cbn [mbind result_bind Py.bind].
    rewrite Hty.
    destruct (IH (Mode_set_item e.1 (input_id item) next m0) (S next))
      as (m' & ->).
    exists m'. cbn [mbind result_bind Py.bind].
    by rewrite (items_of_cons _ _ _ _ Hitem).
Qed.

Lemma Mode_items_warnings h (es : list (InputType * (InputId * ref)))
    (cs : list Element) :
  Forall2 (reads_as h) es cs -> concat (map item_warnings cs) = [].
Proof.
  induction 1 as [|e c es cs (item & _ & _ & _ & _ & _ & Hw) _ IH]; [done|].
  cbn [map concat]. by rewrite Hw, IH.
Qed.

Lemma map_odict_set {A B} (f : A -> B) (i : InputId) (r : A)
    (d : dict InputId A) :
  map (fun kv : InputId * A => (kv.1, f kv.2)) (ODict.set i r d)
  = ODict.set i (f r) (map (fun kv : InputId * A => (kv.1, f kv.2)) d).
Proof.
  induction d as [|[k v] d IH]; [done|]. cbn [ODict.set map fst snd].
  destruct (decide (i = k)); [done|]. cbn [map fst snd]. by rewrite IH.
Qed.

(** What the loop of [Mode.from_xml] leaves in the slots, by value. *)
Lemma Mode_items_content (cs : list Element) :
  forall m0 next m' items h,
    Mode_items m0 cs next = Ok (m', items) ->
    (forall k item, items !! k = Some item -> h !! (next + k)%nat = Some item) ->
    Mode_name m' = Mode_name m0
    /\ forall t,
         Mode_content h m' t = foldl (store_item t) (Mode_content h m0 t) items.
Proof.
  induction cs as [|c cs IH]; intros m0 next m' items h.
  - by intros [= <- <-].
  - cbn [Mode_items]. intros Hrun Hh.
    apply result_bind_Ok in Hrun as (item & _ & Hrun).
    destruct (input_type item) as [t0|] eqn:Hty; [|done].
    apply result_bind_Ok in Hrun as ([m1 items1] & Hrest & [= <- <-]).
    eapply IH in Hrest as [Hname Hcontent].
    2: { intros k it Hk. replace (S next + k)%nat with (next + S k)%nat by lia.
         by apply Hh. }
    split; [done|]. intros t. rewrite Hcontent. cbn [foldl]. f_equal.
    unfold Mode_content, store_item. cbn [_config Mode_set_item].
    rewrite Hty. specialize (Hh 0%nat item eq_refl).
    rewrite Nat.add_0_r in Hh.
    destruct (decide (Some t0 = Some t)) as [[= ->]|Hne].
    + destruct t; cbn [config_get config_set axis_items button_items
                       hat_items key_items];
        by rewrite (map_odict_set (fun r => h !! r)), Hh.
    + by destruct t0, t.
Qed.

Lemma store_other_type h t t' d acc :
  t <> t' ->
  Forall (slot_consistent h t') d ->
  foldl (store_item t) acc (items_of h (map (pair t') d)) = acc.
Proof.
  intros Hne. induction 1 as [|kv d (item & Hitem & Hty & _) _ IH]; [done|].
  cbn [map]. rewrite (items_of_cons _ (t', kv) _ _ Hitem). cbn [foldl].
  unfold store_item at 2. rewrite Hty, decide_False by congruence. exact IH.
Qed.

Lemma store_own_type h t d : forall acc,
  Forall (slot_consistent h t) d ->
  NoDup (map fst d) ->
  (forall kv, kv ∈ d -> ODict.get kv.1 acc = None) ->
  foldl (store_item t) acc (items_of h (map (pair t) d))
  = acc ++ map (fun kv : InputId * ref => (kv.1, h !! kv.2)) d.
Proof.
  induction d as [|kv d IH]; intros acc Hall Hnodup Hfresh.
  - by rewrite app_nil_r.
  - apply Forall_cons in Hall as [(item & Hitem & Hty & Hid & _) Hall].
    cbn [map] in Hnodup. apply NoDup_cons in Hnodup as [Hkv Hnodup].
    cbn [map]. rewrite (items_of_cons _ (t, kv) _ _ Hitem). cbn [foldl].
    unfold store_item at 2. rewrite Hty, decide_True by done.
    rewrite Hid, odict_set_absent by (apply Hfresh; by left).
    rewrite IH; [by rewrite <- app_assoc, Hitem|done|done|].
    intros kv' Hin. rewrite odict_get_app, Hfresh by (by right).
    cbn [ODict.get]. rewrite decide_False; [done|].
    intros Heq. apply Hkv. rewrite <- Heq.
    by apply (list_elem_of_fmap_2 fst).
Qed.

(** A consistent mode is written as an element that reads back, at
    whatever address the items are created, as a mode of the same name
    that holds the same items. *)
Lemma Mode_written_reads m w :
  Mode_consistent (heap w) m ->
  exists node items,
    Mode_to_xml w m = Ok node
    /\ ElementTree.get node "name" = Mode_name m
    /\ mode_warnings node = []
    /\ forall next, exists m',
         Mode_items (Mode_set_name (Mode_name m) Mode_init)
           (ElementTree.children node) next = Ok (m', items)
         /\ Mode_name m' = Mode_name m
         /\ forall h,
              (forall k item,
                 items !! k = Some item -> h !! (next + k)%nat = Some item) ->
              forall t, Mode_content h m' t = Mode_content (heap w) m t.
Proof.
  intros Hm.
  destruct (Hm JoystickAxis) as [Hna Ha]. destruct (Hm JoystickButton) as [Hnb Hb].
  destruct (Hm JoystickHat) as [Hnh Hh]. destruct (Hm Keyboard) as [Hnk Hk].
  destruct (slots_read_as _ _ _ Ha) as (csa & Hcsa).
  destruct (slots_read_as _ _ _ Hb) as (csb & Hcsb).
  destruct (slots_read_as _ _ _ Hh) as (csh & Hcsh).
  destruct (slots_read_as _ _ _ Hk) as (csk & Hcsk).
  pose proof (Forall2_app Hcsa (Forall2_app Hcsb (Forall2_app Hcsh Hcsk)))
    as Hall.
  set (es := map (pair JoystickAxis) (axis_items (_config m))
             ++ map (pair JoystickButton) (button_items (_config m))
             ++ map (pair JoystickHat) (hat_items (_config m))
             ++ map (pair Keyboard) (key_items (_config m))) in *.
  cbn [config_get] in Hall. fold es in Hall.
  set (cs := csa ++ csb ++ csh ++ csk) in *.
  exists (ElementTree.Node "mode" [("name", Mode_name m)] cs),
    (items_of (heap w) es).
  split; [|split; [done|split]].
  - rewrite Mode_to_xml_loop.
    rewrite (append_loop_Ok (item_to_xml_at w) _ cs); [done|].
    cbn [map concat config_get]. rewrite app_nil_r.
    assert (forall (l : list (InputType * (InputId * ref))) cs0,
              Forall2 (reads_as (heap w)) l cs0 ->
              Forall2 (fun r c => item_to_xml_at w r = Ok c)
                (map (fun e => e.2.2) l) cs0) as Hrefs.
    { induction 1 as [|e c l cs0 (item & Hitem & _ & _ & Hto & _) _ IH];
        [constructor|].
      cbn [map]. constructor; [|done].
      unfold item_to_xml_at. by rewrite Hitem. }
    apply Hrefs in Hall. revert Hall. unfold es, ODict.values.
    by rewrite !map_app, !map_map.
  - unfold mode_warnings. cbn [ElementTree.children].
    by apply (Mode_items_warnings _ _ _ Hall).
  - intros next. cbn [ElementTree.children].
    destruct (Mode_items_read _ _ _ Hall
                (Mode_set_name (Mode_name m) Mode_init) next) as (m' & Hread).
    exists m'. split; [done|].
    split; [by apply Mode_items_name in Hread|].
    intros h Hh' t.
    eapply (Mode_items_content _ _ _ _ _ h) in Hread as [_ Hcontent];
      [|exact Hh'].
    rewrite Hcontent.
    unfold es. rewrite !items_of_app, !foldl_app.
    cbn [config_get] in Ha, Hb, Hh, Hk, Hna, Hnb, Hnh, Hnk.
    unfold Mode_content at 1.
    destruct t;
      cbn [config_get _config Mode_set_name Mode_init axis_items button_items
           hat_items key_items map];
      unfold Mode_content; cbn [config_get];
      repeat match goal with
        | |- context [foldl (store_item ?t) ?acc
                        (items_of ?h (map (pair ?t') ?d))] =>
            rewrite (store_other_type h t t' d acc) by done
        end;
      by rewrite store_own_type.
Qed.

(** X24: A consistent mode written by [to_xml] and read by [from_xml] into a
    new mode holds the same items again: [to_xml] returns, [from_xml]
    returns on that element and prints nothing, and the mode read has the
    name of the one written and, for every input type, the same ids in
    the same order with equal items, which are new objects. *)
Theorem Mode_to_xml_then_from_xml m w w' :
  Mode_consistent (heap w) m ->
  exists node m' items,
    Mode_to_xml w m = Ok node
    /\ Mode_from_xml Mode_init node w'
       = Ok (m', {| heap := heap w' ++ items; stdout := stdout w' |})
    /\ Mode_name m' = Mode_name m
    /\ forall t,
         Mode_content (heap w' ++ items) m' t = Mode_content (heap w) m t.
Proof.
  intros Hm.
  destruct (Mode_written_reads m w Hm)
    as (node & items & Hto & Hname & Hwarn & Hread).
  destruct (Hread (length (heap w'))) as (m' & Hitems & Hn & Hcontent).
  exists node, m', items. split; [done|]. split.
  - by rewrite Mode_from_xml_run, Hname, Hitems, Hwarn, app_nil_r.
  - split; [done|]. apply Hcontent. intros k item Hk.
    rewrite lookup_app_r by lia.
    by replace (length (heap w') + k - length (heap w'))%nat with k by lia.
Qed.

End written_modes.

(** A mode that holds one key, written and read into a new mode. *)
Lemma Mode_to_xml_then_from_xml_witness :
  Mode_consistent (heap key_world) key_mode
  /\ exists node m' items,
       Mode_to_xml key_world key_mode = Ok node
       /\ Mode_from_xml Mode_init node empty_world
          = Ok (m', {| heap := heap empty_world ++ items;
                       stdout := stdout empty_world |})
       /\ Mode_name m' = Mode_name key_mode
       /\ forall t,
            Mode_content (heap empty_world ++ items) m' t
            = Mode_content (heap key_world) key_mode t.
Proof.
  assert (Mode_consistent (acts := element_actions) (heap key_world) key_mode)
    as Hm.
  { intros t. destruct t; (split; [repeat constructor; by intros ?%elem_of_nil|]);
      repeat constructor.
    exists key_item. repeat split; try done.
    repeat constructor. by eexists. }
  split; [exact Hm|].
  apply (Mode_to_xml_then_from_xml (acts := element_actions) key_mode key_world
           empty_world Hm).
Defined.

Section written_devices.
Context {acts : Actions}.
Implicit Types (w : World) (d : Device) (m : Mode) (h : list InputItem).

Lemma modes_read_as w (P : dict (option string) Mode) :
  Forall (fun kv : option string * Mode =>
            Mode_name kv.2 = kv.1 /\ Mode_consistent (heap w) kv.2) P ->
  exists cs, Forall2 (mode_reads_as w) P cs.
Proof.
  induction 1 as [|[k m] P [Hname Hm] _ (cs & Hcs)]; [by exists []|].
  cbn [fst snd] in Hname, Hm.
  destruct (Mode_written_reads m w Hm)
    as (c & items & Hto & Hget & Hwarn & Hread).
  exists (c :: cs). constructor; [|done].
  unfold mode_reads_as. cbn [fst snd]. subst k.
  split; [done|]. split; [done|]. split; [done|]. split; [done|].
  by exists items.
Qed.

Lemma odict_get_keys {K V} `{EqDecision K} (k : K) (v : V) (P : dict K V) :
  ODict.get k P = Some v -> k ∈ map fst P.
Proof.
  induction P as [|[k' v'] P IH]; [done|]. cbn [ODict.get map fst].
  destruct (decide (k = k')) as [->|Hne]; [intros _; by left|].
  intros Hk. right. by apply IH.
Qed.

(** The loop of [Device.from_xml] on the elements of a list of modes. *)
Lemma Device_modes_read w (P : dict (option string) Mode) (cs : list Element) :
  Forall2 (mode_reads_as w) P cs ->
  NoDup (map fst P) ->
  forall d0 next, exists d1 items,
    Device_modes d0 cs next = Ok (d1, items)
    /\ forall h,
         (forall k item,
            items !! k = Some item -> h !! (next + k)%nat = Some item) ->
         forall n,
           match ODict.get n P with
           | Some m =>
               exists m',
                 ODict.get n (modes d1) = Some m'
                 /\ Mode_name m' = Mode_name m
                 /\ forall t, Mode_content h m' t = Mode_content (heap w) m t
           | None => ODict.get n (modes d1) = ODict.get n (modes d0)
           end.
Proof.
  induction 1 as [|[k m] c P cs Hc _ IH]; intros Hnodup d0 next.
  - exists d0, []. split; [done|]. by intros h _ n.
  - cbn [map fst] in Hnodup. apply NoDup_cons in Hnodup as [Hk Hnodup].
    destruct Hc as (Hname & _ & Hget & _ & its & Hread).
    cbn [fst snd] in Hname, Hget, Hread.
    destruct (Hread next) as (m' & Hitems & Hname' & Hcontent).
    destruct (IH Hnodup (Device_set_mode k m' d0) (next + length its)%nat)
      as (d1 & items' & Hrest & Hmodes).
    exists d1, (its ++ items'). split.
    + cbn [Device_modes]. rewrite Hget, Hitems.
      cbn [mbind result_bind Py.bind]. rewrite Hname', Hrest. done.
    + intros h Hh n.
      assert (forall j item,
                items' !! j = Some item ->
                h !! (next + length its + j)%nat = Some item) as Hh'.
      { intros j item Hj. rewrite <- Nat.add_assoc. apply Hh.
        rewrite lookup_app_r by lia.
        by replace (length its + j - length its)%nat with j by lia. }
      specialize (Hmodes h Hh'). cbn [ODict.get].
      destruct (decide (n = k)) as [->|Hne].
      * specialize (Hmodes k).
        destruct (ODict.get k P) as [m0|] eqn:Hk0;
          [exfalso; apply Hk; by eapply odict_get_keys|].
        exists m'. split.
        -- rewrite Hmodes. cbn [modes Device_set_mode].
           apply odict_get_set_eq.
        -- split; [congruence|]. apply Hcontent.
           intros j item Hj. apply Hh. by apply lookup_app_l_Some.
      * specialize (Hmodes n). destruct (ODict.get n P) as [m0|]; [done|].
        rewrite Hmodes. cbn [modes Device_set_mode].
        by apply odict_get_set_ne.
Qed.

Lemma Device_modes_warnings w (P : dict (option string) Mode)
    (cs : list Element) :
  Forall2 (mode_reads_as w) P cs -> concat (map mode_warnings cs) = [].
Proof.
  induction 1 as [|kv c P cs (_ & _ & _ & Hw & _) _ IH]; [done|].
  cbn [map concat]. by rewrite Hw, IH.
Qed.

(** X25: A consistent device that is no keyboard and has both ids, written by
    [to_xml] and read by [from_xml] into a new device, is read back by
    value: [to_xml] returns, [from_xml] returns on that element and prints
    nothing, and the device read has the same name and ids, the type
    Joystick, and under every mode name of the device written a mode of
    that name holding the same items; any other name reads as in a new
    device. *)
Theorem Device_to_xml_then_from_xml d w w' (hid wid : Z) :
  hardware_id d = Some hid ->
  windows_id d = Some wid ->
  Device_name d <> Some "keyboard" ->
  Device_consistent (heap w) d ->
  exists node d' items,
    Device_to_xml w d = Ok node
    /\ Device_from_xml Device_init node w'
       = Ok (d', {| heap := heap w' ++ items; stdout := stdout w' |})
    /\ Device_name d' = Device_name d
    /\ hardware_id d' = hardware_id d
    /\ windows_id d' = windows_id d
    /\ type d' = Some DT_Joystick
    /\ forall n,
         match ODict.get n (modes d) with
         | Some m =>
             exists m',
               ODict.get n (modes d') = Some m'
               /\ Mode_name m' = Mode_name m
               /\ forall t,
                    Mode_content (heap w' ++ items) m' t
                    = Mode_content (heap w) m t
         | None => ODict.get n (modes d') = ODict.get n (modes Device_init)
         end.
Proof.
  intros Hhid Hwid Hname [Hnodup Hmodes].
  destruct (modes_read_as w _ Hmodes) as (cs & Hcs).
  set (node := ElementTree.Node "device"
                 [("name", Device_name d);
                  ("id", Some (string_of_int hid));
                  ("windows_id", Some (string_of_int wid))] cs).
  destruct (Device_modes_read w _ _ Hcs Hnodup
              (Device_set_type DT_Joystick
                 (Device_set_windows_id (Some wid)
                    (Device_set_hardware_id (Some hid)
                       (Device_set_name (Device_name d) Device_init))))
              (length (heap w')))
    as (d' & items & Hread & Hlookup).
  assert (Device_from_xml Device_init node w'
          = Ok (d', {| heap := heap w' ++ items; stdout := stdout w' |}))
    as Hfrom.
  { rewrite Device_from_xml_run.
    change (ElementTree.get node "id") with (Some (string_of_int hid)).
    change (ElementTree.get node "windows_id") with (Some (string_of_int wid)).
    change (ElementTree.get node "name") with (Device_name d).
    unfold int_of_attr. rewrite !int_of_string_of_int.
    rewrite decide_False by done. cbn [ElementTree.children node].
    rewrite Hread. unfold device_warnings, node. cbn [ElementTree.children].
    by rewrite (Device_modes_warnings _ _ _ Hcs), app_nil_r. }
  exists node, d', items. split.
  - unfold Device_to_xml. rewrite Hhid, Hwid.
    rewrite (append_loop_Ok (Mode_to_xml w) _ cs); [done|].
    unfold ODict.values. clear -Hcs.
    induction Hcs as [|kv c P cs (_ & Hto & _) _ IH]; [constructor|].
    cbn [map]. by constructor.
  - split; [done|].
    apply Device_modes_fields in Hread as (-> & -> & -> & -> & _).
    cbn [Device_name hardware_id windows_id type Device_set_type
         Device_set_windows_id Device_set_hardware_id Device_set_name].
    split; [done|]. split; [done|]. split; [done|]. split; [done|].
    apply Hlookup. intros k item Hk. rewrite lookup_app_r by lia.
    by replace (length (heap w') + k - length (heap w'))%nat with k by lia.
Qed.

End written_devices.

(** A device with one mode that holds one key, written and read into a
    new device. *)
Lemma Device_to_xml_then_from_xml_witness :
  hardware_id key_device = Some 3
  /\ windows_id key_device = Some 2
  /\ Device_name key_device <> Some "keyboard"
  /\ Device_consistent (heap key_world) key_device
  /\ exists node d' items,
       Device_to_xml key_world key_device = Ok node
       /\ Device_from_xml Device_init node empty_world
          = Ok (d', {| heap := heap empty_world ++ items;
                       stdout := stdout empty_world |})
       /\ Device_name d' = Device_name key_device
       /\ hardware_id d' = hardware_id key_device
       /\ windows_id d' = windows_id key_device
       /\ type d' = Some DT_Joystick
       /\ forall n,
            match ODict.get n (modes key_device) with
            | Some m =>
                exists m',
                  ODict.get n (modes d') = Some m'
                  /\ Mode_name m' = Mode_name m
                  /\ forall t,
                       Mode_content (heap empty_world ++ items) m' t
                       = Mode_content (heap key_world) m t
            | None => ODict.get n (modes d') = ODict.get n (modes Device_init)
            end.
Proof.
  assert (Device_consistent (acts := element_actions) (heap key_world)
            key_device) as Hd.
  { split; [repeat constructor; by intros ?%elem_of_nil|].
    constructor; [|constructor]. split; [reflexivity|].
    intros input. destruct input;
      (split; [repeat constructor; by intros ?%elem_of_nil|]);
      repeat constructor.
    exists key_item. repeat split; try done.
    repeat constructor. by eexists. }
  split; [reflexivity|]. split; [reflexivity|]. split; [done|].
  split; [exact Hd|].
  apply (Device_to_xml_then_from_xml (acts := element_actions) key_device
           key_world empty_world 3 2); [reflexivity|reflexivity|done|exact Hd].
Defined.
